(** * Swarm output cleaning and extraction ([src/swarm_utils.py])

    A shallow embedding of the text cleaner, the batch cleaner, the content
    extractor, the summary formatter and the two entry points of
    [swarm_utils.py], together with the properties of its specification.

    Python strings are sequences of Unicode code points, so a string is a
    list of code points here; [len], slicing and truncation count code
    points. *)

From Stdlib Require Import String Ascii NArith ZArith Bool Lia List.
From Equations Require Import Equations.
Import ListNotations.

Set Implicit Arguments.
Set Warnings "-register-all".

(* ===================================================================== *)
(** * Python strings *)
(* ===================================================================== *)

Module Py.

(** A character is its code point. *)
Abbreviation char := N (only parsing).
Abbreviation str := (list N) (only parsing).

(** An ASCII literal of the source as a Python string. *)
Definition lit (s : string) : str := map N_of_ascii (list_ascii_of_string s).

Definition chr (a : ascii) : char := N_of_ascii a.

Definition LF : char := 10%N.
Definition ESC : char := 27%N.
Definition DQUOTE : char := 34%N.

Fixpoint str_eqb (a b : str) : bool :=
  match a, b with
  | [], [] => true
  | x :: a', y :: b' => N.eqb x y && str_eqb a' b'
  | _, _ => false
  end.

(** [s.startswith(p)] *)
Fixpoint startswith (p s : str) : bool :=
  match p, s with
  | [], _ => true
  | x :: p', y :: s' => N.eqb x y && startswith p' s'
  | _ :: _, [] => false
  end.

(** [sub in s] on strings. *)
Fixpoint contains (sub s : str) : bool :=
  startswith sub s ||
  match s with
  | [] => false
  | _ :: t => contains sub t
  end.

(** [s.find(sub)]: the lowest index at which [sub] occurs, [-1] when it
    does not occur. *)
Fixpoint find_from (i : Z) (sub s : str) : Z :=
  if startswith sub s then i
  else match s with
       | [] => (-1)%Z
       | _ :: t => find_from (i + 1) sub t
       end.

Definition find (sub s : str) : Z := find_from 0 sub s.

Definition len (s : str) : Z := Z.of_nat (length s).

(** Slice bounds as Python normalises them: a negative index counts from
    the end, and the result is clamped to [0, len]. *)
Definition clamp (n : Z) (i : Z) : Z :=
  let j := if (i <? 0)%Z then (i + n)%Z else i in
  Z.max 0 (Z.min n j).

(** [s[start:stop]] *)
Definition slice (s : str) (start stop : Z) : str :=
  let a := clamp (len s) start in
  let b := clamp (len s) stop in
  firstn (Z.to_nat (b - a)) (skipn (Z.to_nat a) s).

(** [s[start:]] *)
Definition slice_from (s : str) (start : Z) : str :=
  skipn (Z.to_nat (clamp (len s) start)) s.

(** [s[:stop]] *)
Definition slice_to (s : str) (stop : Z) : str :=
  firstn (Z.to_nat (clamp (len s) stop)) s.

(** [str.isspace] of one character: the characters [str.strip()] removes. *)
Definition isspace (c : char) : bool :=
  ((9 <=? c) && (c <=? 13) || (28 <=? c) && (c <=? 32) ||
   (c =? 0x85) || (c =? 0xA0) || (c =? 0x1680) ||
   (0x2000 <=? c) && (c <=? 0x200A) ||
   (c =? 0x2028) || (c =? 0x2029) || (c =? 0x202F) ||
   (c =? 0x205F) || (c =? 0x3000))%N.

Fixpoint lstrip (s : str) : str :=
  match s with
  | c :: t => if isspace c then lstrip t else s
  | [] => []
  end.

Definition rstrip (s : str) : str := rev (lstrip (rev s)).

(** [s.strip()] *)
Definition strip (s : str) : str := rstrip (lstrip s).

(** Starts of the runs of ten consecutive decimal digits (general category
    Nd, Unicode 14.0); the mathematical digits U+1D7CE..U+1D7FF are five
    such runs. *)
Definition decimal_runs : list N :=
  [0x30; 0x660; 0x6F0; 0x7C0; 0x966; 0x9E6; 0xA66; 0xAE6; 0xB66; 0xBE6;
   0xC66; 0xCE6; 0xD66; 0xDE6; 0xE50; 0xED0; 0xF20; 0x1040; 0x1090;
   0x17E0; 0x1810; 0x1946; 0x19D0; 0x1A80; 0x1A90; 0x1B50; 0x1BB0;
   0x1C40; 0x1C50; 0xA620; 0xA8D0; 0xA900; 0xA9D0; 0xA9F0; 0xAA50;
   0xABF0; 0xFF10; 0x104A0; 0x10D30; 0x11066; 0x110F0; 0x11136; 0x111D0;
   0x112F0; 0x11450; 0x114D0; 0x11650; 0x116C0; 0x11730; 0x118E0;
   0x11950; 0x11C50; 0x11D50; 0x11DA0; 0x16A60; 0x16AC0; 0x16B50;
   0x1D7CE; 0x1D7D8; 0x1D7E2; 0x1D7EC; 0x1D7F6;
   0x1E140; 0x1E2F0; 0x1E950; 0x1FBF0]%N.

(** [str.isdecimal] of one character: what [\d] matches in a [str]
    pattern. *)
Definition isdecimal (c : char) : bool :=
  existsb (fun lo => (lo <=? c) && (c <? lo + 10))%N decimal_runs.

End Py.

(* ===================================================================== *)
(** * The regular expressions of the module *)
(* ===================================================================== *)

(** The patterns of [swarm_utils.py] are sequences of literal characters,
    character classes and greedy repetitions of a class.  [match_here] is
    the backtracking matcher of [re] on such a pattern: a repetition takes
    as many characters as it can and gives them back one at a time while
    the rest of the pattern fails. *)

Module Re.

Import Py.

Inductive atom :=
| Chr (c : char)                 (* a literal character *)
| Cls (p : char -> bool)         (* one character of a class *)
| Star (p : char -> bool)        (* [p*], greedy *)
| Plus (p : char -> bool).       (* [p+], greedy *)

Definition regex := list atom.

Definition lits (s : string) : regex := map Chr (lit s).

(** [.] without DOTALL: anything but a line feed. *)
Definition dot (c : char) : bool := negb (c =? LF)%N.

(** [\d] *)
Definition digit (c : char) : bool := isdecimal c.

(** Greedy repetition of class [p] followed by the continuation [k]; the
    result is the number of characters consumed. *)
Fixpoint star (p : char -> bool) (k : str -> option nat) (s : str)
  : option nat :=
  match s with
  | c :: t =>
      if p c then
        match star p k t with
        | Some n => Some (S n)
        | None => k s
        end
      else k s
  | [] => k []
  end.

(** Length of the match of [re] anchored at the start of [s]. *)
Fixpoint match_here (re : regex) (s : str) : option nat :=
  match re with
  | [] => Some 0
  | Chr c :: re' =>
      match s with
      | x :: t => if (x =? c)%N then option_map S (match_here re' t) else None
      | [] => None
      end
  | Cls p :: re' =>
      match s with
      | x :: t => if p x then option_map S (match_here re' t) else None
      | [] => None
      end
  | Star p :: re' => star p (match_here re') s
  | Plus p :: re' =>
      match s with
      | x :: t => if p x then option_map S (star p (match_here re') t) else None
      | [] => None
      end
  end.

(** [re.search(re, s)]: the leftmost match, as the text before it, the
    matched text and the text after it. *)
Fixpoint search (re : regex) (s : str) : option (str * str * str) :=
  match match_here re s with
  | Some n => Some ([], firstn n s, skipn n s)
  | None =>
      match s with
      | [] => None
      | c :: t =>
          match search re t with
          | Some (pre, m, post) => Some (c :: pre, m, post)
          | None => None
          end
      end
  end.

(** [bool(re.search(re, s))] *)
Definition found (re : regex) (s : str) : bool :=
  match search re s with Some _ => true | None => false end.

#[local] Unset Equations With Funext.

(** [re.sub(re, '', s)]: the leftmost non-overlapping matches are deleted
    in one pass; scanning resumes after each match.  An empty match
    deletes nothing. *)
Equations? sub (re : regex) (s : str) : str by wf (length s) lt :=
  sub re [] := [];
  sub re (c :: t) with match_here re (c :: t) := {
    | Some (S k) := sub re (skipn k t);
    | _ := c :: sub re t }.
Proof.
  all: simpl; try lia.
  pose proof (length_skipn k t). lia.
Qed.

End Re.

(* ===================================================================== *)
(** * Python values *)
(* ===================================================================== *)

(** The values a decoded JSON payload is made of.  A [dict] is kept as its
    items in insertion order; its keys are strings, as [Dict[str, Any]]
    says.  A float is kept as its literal. *)

Module Val.

Import Py.

Inductive value :=
| VNone
| VBool (b : bool)
| VInt (n : Z)
| VFloat (literal : str)
| VStr (s : str)
| VList (l : list value)
| VDict (d : list (str * value)).

Definition dict := list (str * value).

(** Exceptions that the code can meet. *)
Inductive exn := TypeError | JSONDecodeError.

Inductive result (A : Type) :=
| Ok (a : A)
| Raise (e : exn).
Arguments Ok {A} a.
Arguments Raise {A} e.

Definition bind {A B} (m : result A) (f : A -> result B) : result B :=
  match m with
  | Ok a => f a
  | Raise e => Raise e
  end.

Notation "x <- m ;; k" := (bind m (fun x => k))
  (at level 61, m at next level, right associativity).

(** [try: m except: h] with a bare [except]. *)
Definition try_except {A} (m : result A) (h : A) : A :=
  match m with
  | Ok a => a
  | Raise _ => h
  end.

(** [k in d] *)
Fixpoint dict_has (k : str) (d : dict) : bool :=
  match d with
  | [] => false
  | (k', _) :: d' => str_eqb k' k || dict_has k d'
  end.

(** [d.get(k)] *)
Fixpoint dict_get (k : str) (d : dict) : option value :=
  match d with
  | [] => None
  | (k', v) :: d' => if str_eqb k' k then Some v else dict_get k d'
  end.

(** [d[k] = v]: an existing key keeps its place, a new key goes last. *)
Fixpoint dict_set (k : str) (v : value) (d : dict) : dict :=
  match d with
  | [] => [(k, v)]
  | (k', v') :: d' =>
      if str_eqb k' k then (k', v) :: d' else (k', v') :: dict_set k v d'
  end.

(** [dict(pairs)] *)
Definition dict_of_pairs (pairs : list (str * value)) : dict :=
  fold_left (fun d kv => dict_set (fst kv) (snd kv) d) pairs [].

(** [x == s] for a string [s]. *)
Definition eq_str (s : str) (x : value) : bool :=
  match x with
  | VStr s' => str_eqb s' s
  | _ => false
  end.

(** [s in x] for a string [s]: substring of a string, member of a list,
    key of a dict; the other values are not containers. *)
Definition py_in (s : str) (x : value) : result bool :=
  match x with
  | VStr t => Ok (contains s t)
  | VList l => Ok (existsb (eq_str s) l)
  | VDict d => Ok (dict_has s d)
  | _ => Raise TypeError
  end.

(** [for item in x]: the items the loop visits. *)
Definition py_iter (x : value) : result (list value) :=
  match x with
  | VList l => Ok l
  | VDict d => Ok (map (fun kv => VStr (fst kv)) d)
  | VStr s => Ok (map (fun c => VStr [c]) s)
  | _ => Raise TypeError
  end.

(** The characters of a float literal before the exponent mark. *)
Fixpoint mantissa (literal : str) : str :=
  match literal with
  | [] => []
  | c :: t => if ((c =? 101) || (c =? 69))%N then [] else c :: mantissa t
  end.

(** The characters after the exponent mark. *)
Fixpoint exponent (literal : str) : str :=
  match literal with
  | [] => []
  | c :: t => if ((c =? 101) || (c =? 69))%N then t else exponent t
  end.

(** The characters after the decimal point. *)
Fixpoint fraction (literal : str) : str :=
  match literal with
  | [] => []
  | c :: t => if (c =? 46)%N then t else fraction t
  end.

Definition digits (s : str) : str :=
  filter (fun c => (48 <=? c) && (c <=? 57))%N s.

(** The number that the digits of [s] write. *)
Definition number (s : str) : Z :=
  fold_left (fun n c => (10 * n + Z.of_N (c - 48))%Z) (digits s) 0%Z.

(** A float literal whose value is zero as a binary64 number: the literal
    is [m * 10 ^ e] for the integer [m] that its digits before the
    exponent write, and the nearest binary64 number is zero when that is
    at most [2 ^ -1075], half of the least positive one.  [NaN] and the
    infinities have no digits. *)
Definition float_is_zero (literal : str) : bool :=
  let m := mantissa literal in
  let x := exponent literal in
  let e := ((if existsb (N.eqb 45) x then - number x else number x) -
            Z.of_nat (length (digits (fraction m))))%Z in
  match digits m with
  | [] => false
  | _ => ((number m =? 0) ||
          (e <? 0) && (number m * 2 ^ 1075 <=? 10 ^ (- e)))%Z
  end.

(** [bool(x)] *)
Definition truthy (x : value) : bool :=
  match x with
  | VNone => false
  | VBool b => b
  | VInt n => negb (n =? 0)%Z
  | VFloat literal => negb (float_is_zero literal)
  | VStr s => negb (str_eqb s [])
  | VList l => match l with [] => false | _ => true end
  | VDict d => match d with [] => false | _ => true end
  end.

End Val.

(* ===================================================================== *)
(** * [json.loads] *)
(* ===================================================================== *)

(** The decoder of the standard [json] module on the JSON grammar, with
    the extensions the module accepts ([NaN], [Infinity], [-Infinity]).
    The recursion limit of the interpreter and its limit on the length of
    integer literals are not modelled. *)

Module Json.

Import Py Val.

Definition is_ws (c : char) : bool :=
  ((c =? 32) || (c =? 9) || (c =? 10) || (c =? 13))%N.

Fixpoint skip_ws (s : str) : str :=
  match s with
  | c :: t => if is_ws c then skip_ws t else s
  | [] => []
  end.

Definition is_digit (c : char) : bool := ((48 <=? c) && (c <=? 57))%N.

Definition hex_val (c : char) : option N :=
  if ((48 <=? c) && (c <=? 57))%N then Some (c - 48)%N
  else if ((97 <=? c) && (c <=? 102))%N then Some (c - 87)%N
  else if ((65 <=? c) && (c <=? 70))%N then Some (c - 55)%N
  else None.

(** The four hexadecimal digits of a [\uXXXX] escape. *)
Definition hex4 (s : str) : option (N * str) :=
  match s with
  | a :: b :: c :: d :: t =>
      match hex_val a, hex_val b, hex_val c, hex_val d with
      | Some x, Some y, Some z, Some w =>
          Some (((x * 16 + y) * 16 + z) * 16 + w, t)%N
      | _, _, _, _ => None
      end
  | _ => None
  end.

Definition BACKSLASH : char := 92%N.

(** The body of a string literal, after its opening quote. *)
Fixpoint scan_string (fuel : nat) (s : str) : option (str * str) :=
  match fuel with
  | O => None
  | S f =>
      match s with
      | [] => None
      | c :: t =>
          if (c =? DQUOTE)%N then Some ([], t)
          else if (c =? BACKSLASH)%N then
            match t with
            | [] => None
            | e :: t' =>
                let simple (x : char) :=
                  option_map (fun r => (x :: fst r, snd r)) (scan_string f t') in
                if (e =? DQUOTE)%N then simple DQUOTE
                else if (e =? BACKSLASH)%N then simple BACKSLASH
                else if (e =? chr "/")%N then simple (chr "/")
                else if (e =? chr "b")%N then simple 8%N
                else if (e =? chr "f")%N then simple 12%N
                else if (e =? chr "n")%N then simple 10%N
                else if (e =? chr "r")%N then simple 13%N
                else if (e =? chr "t")%N then simple 9%N
                else if (e =? chr "u")%N then
                  match hex4 t' with
                  | None => None
                  | Some (u, r) =>
                      let single :=
                        option_map (fun x => (u :: fst x, snd x)) (scan_string f r) in
                      if ((0xD800 <=? u) && (u <=? 0xDBFF))%N then
                        match r with
                        | b1 :: b2 :: r' =>
                            if ((b1 =? BACKSLASH) && (b2 =? chr "u"))%N then
                              match hex4 r' with
                              | None => None
                              | Some (u2, r'') =>
                                  if ((0xDC00 <=? u2) && (u2 <=? 0xDFFF))%N then
                                    option_map
                                      (fun x =>
                                         ((0x10000 + ((u - 0xD800) * 1024 + (u2 - 0xDC00)))%N
                                            :: fst x, snd x))
                                      (scan_string f r'')
                                  else single
                              end
                            else single
                        | _ => single
                        end
                      else single
                  end
                else None
            end
          else if (c <? 32)%N then None
          else option_map (fun r => (c :: fst r, snd r)) (scan_string f t)
      end
  end.

(** A maximal run of ASCII digits and what follows it. *)
Fixpoint span_digits (s : str) : str * str :=
  match s with
  | c :: t =>
      if is_digit c then let '(ds, r) := span_digits t in (c :: ds, r)
      else ([], s)
  | [] => ([], [])
  end.

Definition digits_value (ds : str) : Z :=
  fold_left (fun acc c => (acc * 10 + Z.of_N (c - 48))%Z) ds 0%Z.

(** The integer part of a number: [0], or a non-zero digit and a run of
    digits. *)
Definition scan_int (s : str) : option (str * str) :=
  match s with
  | c :: t =>
      if (c =? 48)%N then Some ([c], t)
      else if is_digit c then
        let '(ds, r) := span_digits t in Some (c :: ds, r)
      else None
  | [] => None
  end.

(** The optional fraction [(\.[0-9]+)?]. *)
Definition scan_frac (s : str) : str * str :=
  match s with
  | c :: t =>
      if (c =? chr ".")%N then
        match span_digits t with
        | ([], _) => ([], s)
        | (ds, r) => (c :: ds, r)
        end
      else ([], s)
  | [] => ([], [])
  end.

(** The optional exponent [([eE][-+]?[0-9]+)?]. *)
Definition scan_exp (s : str) : str * str :=
  match s with
  | c :: t =>
      if ((c =? chr "e") || (c =? chr "E"))%N then
        let '(sign, t') :=
          match t with
          | g :: u => if ((g =? chr "-") || (g =? chr "+"))%N
                      then ([g], u) else ([], t)
          | [] => ([], t)
          end in
        match span_digits t' with
        | ([], _) => ([], s)
        | (ds, r) => (c :: sign ++ ds, r)
        end
      else ([], s)
  | [] => ([], [])
  end.

Definition scan_number (s : str) : option (value * str) :=
  let '(neg, s1) :=
    match s with
    | c :: t => if (c =? chr "-")%N then (true, t) else (false, s)
    | [] => (false, s)
    end in
  match scan_int s1 with
  | None => None
  | Some (ip, r1) =>
      let '(fp, r2) := scan_frac r1 in
      let '(ep, r3) := scan_exp r2 in
      match fp, ep with
      | [], [] =>
          Some (VInt (if neg then - digits_value ip else digits_value ip)%Z, r3)
      | _, _ =>
          Some (VFloat ((if neg then [chr "-"] else []) ++ ip ++ fp ++ ep), r3)
      end
  end.

(** A keyword of the grammar at the start of [s]. *)
Definition keyword (w : string) (v : value) (s : str) : option (value * str) :=
  if startswith (lit w) s then Some (v, skipn (length (lit w)) s) else None.

Definition or_else {A} (a b : option A) : option A :=
  match a with Some _ => a | None => b end.

Definition scan_atom (s : str) : option (value * str) :=
  or_else (keyword "null" VNone s)
  (or_else (keyword "true" (VBool true) s)
  (or_else (keyword "false" (VBool false) s)
  (or_else (scan_number s)
  (or_else (keyword "NaN" (VFloat (lit "NaN")) s)
  (or_else (keyword "Infinity" (VFloat (lit "Infinity")) s)
           (keyword "-Infinity" (VFloat (lit "-Infinity")) s)))))).

(** [scan_value] reads one value; [scan_elems] reads the elements of an
    array after the first position, [scan_members] the members of an
    object. *)
Fixpoint scan_value (fuel : nat) (s : str) : option (value * str) :=
  match fuel with
  | O => None
  | S f =>
      match s with
      | [] => None
      | c :: t =>
          if (c =? DQUOTE)%N then
            option_map (fun r => (VStr (fst r), snd r)) (scan_string (length t) t)
          else if (c =? chr "[")%N then
            match skip_ws t with
            | c' :: t' =>
                if (c' =? chr "]")%N then Some (VList [], t')
                else option_map (fun r => (VList (fst r), snd r))
                       (scan_elems f (c' :: t'))
            | [] => None
            end
          else if (c =? chr "{")%N then
            match skip_ws t with
            | c' :: t' =>
                if (c' =? chr "}")%N then Some (VDict [], t')
                else option_map (fun r => (VDict (dict_of_pairs (fst r)), snd r))
                       (scan_members f (c' :: t'))
            | [] => None
            end
          else scan_atom s
      end
  end

with scan_elems (fuel : nat) (s : str) : option (list value * str) :=
  match fuel with
  | O => None
  | S f =>
      match scan_value f s with
      | None => None
      | Some (v, r) =>
          match skip_ws r with
          | c :: t =>
              if (c =? chr "]")%N then Some ([v], t)
              else if (c =? chr ",")%N then
                option_map (fun x => (v :: fst x, snd x)) (scan_elems f (skip_ws t))
              else None
          | [] => None
          end
      end
  end

with scan_members (fuel : nat) (s : str) : option (list (str * value) * str) :=
  match fuel with
  | O => None
  | S f =>
      match s with
      | q :: t =>
          if (q =? DQUOTE)%N then
            match scan_string (length t) t with
            | None => None
            | Some (k, r) =>
                match skip_ws r with
                | c :: r1 =>
                    if (c =? chr ":")%N then
                      match scan_value f (skip_ws r1) with
                      | None => None
                      | Some (v, r2) =>
                          match skip_ws r2 with
                          | c' :: t' =>
                              if (c' =? chr "}")%N then Some ([(k, v)], t')
                              else if (c' =? chr ",")%N then
                                option_map (fun x => ((k, v) :: fst x, snd x))
                                  (scan_members f (skip_ws t'))
                              else None
                          | [] => None
                          end
                      end
                    else None
                | [] => None
                end
            end
          else None
      | [] => None
      end
  end.

(** [json.loads(s)] *)
Definition loads (s : str) : result value :=
  match scan_value (2 * length s + 2) (skip_ws s) with
  | Some (v, r) =>
      match skip_ws r with
      | [] => Ok v
      | _ :: _ => Raise JSONDecodeError
      end
  | None => Raise JSONDecodeError
  end.

End Json.

(* ===================================================================== *)
(** * [swarm_utils.py] *)
(* ===================================================================== *)

Module Swarm.

Import Py Re Val.

(** ** Text cleaner *)

(** [[0-9;]] *)
Definition ansi_param (c : char) : bool :=
  ((48 <=? c) && (c <=? 57) || (c =? chr ";"))%N.

(** [r'\x1b\[[0-9;]*m'] *)
Definition ansi_re : regex :=
  [Chr ESC; Chr (chr "["); Star ansi_param; Chr (chr "m")].

(** [r'\\u001b\[[0-9;]*m']: a backslash and the five characters [u001b]. *)
Definition ansi_escaped_re : regex :=
  lits "\u001b" ++ [Chr (chr "["); Star ansi_param; Chr (chr "m")].

(** The dict display [box_chars], entry by entry as it is written: first
    the glyphs, then the same code points as escapes. *)
Definition box_chars_display : list (char * char) :=
  [ (0x256D, chr "+"); (0x256E, chr "+"); (0x2570, chr "+"); (0x256F, chr "+");
    (0x2500, chr "-"); (0x2502, chr "|"); (0x251C, chr "+"); (0x2514, chr "+");
    (0x2524, chr "+"); (0x252C, chr "+"); (0x2534, chr "+"); (0x253C, chr "+");
    (0x2550, chr "="); (0x2554, chr "+"); (0x2557, chr "+"); (0x255A, chr "+");
    (0x255D, chr "+"); (0x2551, chr "|"); (0x2560, chr "+"); (0x2563, chr "+");
    (0x2566, chr "+"); (0x2569, chr "+"); (0x256C, chr "+");
    (0x256D, chr "+"); (0x256E, chr "+"); (0x2570, chr "+"); (0x256F, chr "+");
    (0x2500, chr "-"); (0x2502, chr "|"); (0x251C, chr "+"); (0x2514, chr "+");
    (0x2524, chr "+"); (0x252C, chr "+"); (0x2534, chr "+"); (0x253C, chr "+");
    (0x2550, chr "="); (0x2551, chr "|"); (0x2552, chr "+"); (0x2553, chr "+");
    (0x2554, chr "+"); (0x2555, chr "+"); (0x2556, chr "+"); (0x2557, chr "+");
    (0x2558, chr "+"); (0x2559, chr "+"); (0x255A, chr "+"); (0x255B, chr "+");
    (0x255C, chr "+"); (0x255D, chr "+"); (0x255E, chr "+"); (0x255F, chr "+");
    (0x2560, chr "+"); (0x2561, chr "+"); (0x2562, chr "+"); (0x2563, chr "+");
    (0x2564, chr "+"); (0x2565, chr "+"); (0x2566, chr "+"); (0x2567, chr "+");
    (0x2568, chr "+"); (0x2569, chr "+"); (0x256A, chr "+"); (0x256B, chr "+");
    (0x256C, chr "+") ]%N.

(** Storing one entry of a dict display: a key that is already there keeps
    its place and takes the new value. *)
Fixpoint store (k v : char) (d : list (char * char)) : list (char * char) :=
  match d with
  | [] => [(k, v)]
  | (k', v') :: d' =>
      if (k' =? k)%N then (k', v) :: d' else (k', v') :: store k v d'
  end.

(** [box_chars.items()] *)
Definition box_chars : list (char * char) :=
  Eval vm_compute in
  fold_left (fun d kv => store (fst kv) (snd kv) d) box_chars_display [].

(** [text.replace(old_char, new_char)] for one-character strings. *)
Definition replace (old_char new_char : char) (text : str) : str :=
  map (fun c => if (c =? old_char)%N then new_char else c) text.

(** The body of [clean_swarm_text] on a string. *)
Definition clean_str (text : str) : str :=
  let text := sub ansi_re text in
  let text := sub ansi_escaped_re text in
  fold_left (fun text kv => replace (fst kv) (snd kv) text) box_chars text.

Definition clean_swarm_text (text : value) : value :=
  match text with
  | VStr s => VStr (clean_str s)
  | _ => text                        (* not isinstance(text, str) *)
  end.

(** ** Batch cleaner *)

Definition TEXT : str := lit "text".

(** One turn of the loop of [clean_swarm_output]: the element appended to
    [cleaned_data]. *)
Definition clean_item (item : value) : value :=
  match item with
  | VDict d =>
      match dict_get TEXT d with
      | Some text => VDict (dict_set TEXT (clean_swarm_text text) d)
      | None => item
      end
  | _ => item
  end.

Definition clean_swarm_output (json_data : list value) : list value :=
  fold_left (fun cleaned_data item => cleaned_data ++ [clean_item item])
            json_data [].

(** ** Content extractor *)

Record sections := Sections {
  swarm_status : value;
  agent_responses : list (str * str);     (* agent_id, response *)
  metrics : list (str * str);             (* agent_id, metrics *)
  collective_knowledge : value
}.

Definition content_sections : sections :=
  Sections VNone [] [] (VList []).

(** [r'Agent agent_\d+.*Response:'] and [r'Agent agent_\d+.*Metrics:'] *)
Definition response_re : regex :=
  lits "Agent agent_" ++ [Plus digit; Star dot] ++ lits "Response:".
Definition metrics_re : regex :=
  lits "Agent agent_" ++ [Plus digit; Star dot] ++ lits "Metrics:".

(** [r'Agent (agent_\d+)']: the literal [Agent ] and then the only group,
    which runs to the end of the match. *)
Definition agent_re : regex := lits "Agent " ++ lits "agent_" ++ [Plus digit].

(** [agent_match.group(1) if agent_match else 'unknown'] *)
Definition agent_id_of (text : str) : str :=
  match search agent_re text with
  | Some (_, m, _) => skipn (length (lit "Agent ")) m
  | None => lit "unknown"
  end.

Definition METRICS_DELIM : str := [LF; LF] ++ lit "Metrics:".

Definition CONTENT : str := lit "content".

(** One turn of the loop over [knowledge_data]. *)
Definition clean_knowledge_item (item : value) : result value :=
  has <- py_in CONTENT item ;;
  if has then
    match item with
    | VDict d =>
        match dict_get CONTENT d with
        | Some c => Ok (VDict (dict_set CONTENT (clean_swarm_text c) d))
        | None => Raise TypeError
        end
    | _ => Raise TypeError     (* item['content'] on a string or a list *)
    end
  else Ok item.

Fixpoint clean_knowledge_items (items : list value) : result (list value) :=
  match items with
  | [] => Ok []
  | item :: rest =>
      item' <- clean_knowledge_item item ;;
      rest' <- clean_knowledge_items rest ;;
      Ok (item' :: rest')
  end.

(** The loop over [knowledge_data]; the dicts of a list are updated in
    place, the keys of a dict and the characters of a string are not. *)
Definition clean_knowledge (knowledge_data : value) : result value :=
  items <- py_iter knowledge_data ;;
  items' <- clean_knowledge_items items ;;
  Ok (match knowledge_data with
      | VList _ => VList items'
      | _ => knowledge_data
      end).

Section WithJson.

(** [json.loads] and [json.dump(_, f, indent=2 or None, ensure_ascii=False)]
    of the standard library. *)
Variable json_loads : str -> result value.
Variable json_dumps : bool -> value -> str.

(** The text that [json.loads] is given in the collective-knowledge branch,
    when there is one. *)
Definition knowledge_body (text : str) : option str :=
  let knowledge_start := find (lit "[") text in
  if (knowledge_start =? -1)%Z then None
  else Some (slice_from text knowledge_start).

(** The branches of the loop body after the status test, on a string;
    [clean_swarm_text] of a string is [clean_str] of it. *)
Definition extract_text (cs : sections) (text : str) : sections :=
  if found response_re text then
    let agent_id := agent_id_of text in
    let response_start := (find (lit "Response:") text + 9)%Z in
    let response_end :=
      if contains METRICS_DELIM text then find METRICS_DELIM text
      else len text in
    let response_text := strip (slice text response_start response_end) in
    Sections (swarm_status cs)
             (agent_responses cs ++ [(agent_id, clean_str response_text)])
             (metrics cs) (collective_knowledge cs)
  else if found metrics_re text then
    let agent_id := agent_id_of text in
    let metrics_start := (find (lit "Metrics:") text + 8)%Z in
    let metrics_text := strip (slice_from text metrics_start) in
    Sections (swarm_status cs) (agent_responses cs)
             (metrics cs ++ [(agent_id, clean_str metrics_text)])
             (collective_knowledge cs)
  else if contains (lit "Collective Knowledge:") text then
    match knowledge_body text with
    | Some body =>
        try_except
          (knowledge_data <- json_loads body ;;
           knowledge_data' <- clean_knowledge knowledge_data ;;
           Ok (Sections (swarm_status cs) (agent_responses cs) (metrics cs)
                        knowledge_data'))
          cs
    | None => cs
    end
  else cs.

(** The loop body of [extract_swarm_content]. *)
Definition extract_item (cs : sections) (item : value) : result sections :=
  match item with
  | VDict d =>
      match dict_get TEXT d with
      | Some text =>
          is_status <- py_in (lit "Swarm Status") text ;;
          if is_status then
            Ok (Sections (clean_swarm_text text) (agent_responses cs)
                         (metrics cs) (collective_knowledge cs))
          else
            match text with
            | VStr s => Ok (extract_text cs s)
            | _ => Raise TypeError    (* re.search on a non-string *)
            end
      | None => Ok cs
      end
  | _ => Ok cs
  end.

Fixpoint extract_items (cs : sections) (json_data : list value)
  : result sections :=
  match json_data with
  | [] => Ok cs
  | item :: rest => cs' <- extract_item cs item ;; extract_items cs' rest
  end.

Definition extract_swarm_content (json_data : list value) : result sections :=
  extract_items content_sections json_data.

(** ** Summary formatter *)

(** [sep.join(parts)]; a part that is not a string is a [TypeError]. *)
Fixpoint join (sep : str) (parts : list value) : result str :=
  match parts with
  | [] => Ok []
  | [VStr s] => Ok s
  | VStr s :: rest => r <- join sep rest ;; Ok (s ++ sep ++ r)
  | _ :: _ => Raise TypeError
  end.

Definition ELLIPSIS : str := lit "...".

(** What the loop over the responses appends for one response text. *)
Definition shown_response (max_response_length : Z) (response_text : str) : str :=
  if (len response_text >? max_response_length)%Z
  then slice_to response_text max_response_length ++ ELLIPSIS
  else response_text.

Definition agent_heading (agent_id : str) : value :=
  VStr ([LF] ++ agent_id ++ lit ":").

(** The list [summary] before it is joined. *)
Definition summary_lines (extracted_content : sections)
                         (max_response_length : Z) : list value :=
  let summary :=
    [VStr (lit "SWARM ANALYSIS SUMMARY"); VStr (repeat (chr "=") 60)] in
  let summary :=
    if truthy (swarm_status extracted_content) then
      summary ++ [VStr ([LF] ++ lit "SWARM STATUS:");
                  VStr (repeat (chr "-") 40);
                  swarm_status extracted_content]
    else summary in
  let summary :=
    match agent_responses extracted_content with
    | [] => summary
    | responses =>
        summary ++ [VStr ([LF] ++ lit "AGENT RESPONSES:");
                    VStr (repeat (chr "-") 40)]
                ++ flat_map (fun response =>
                     [agent_heading (fst response);
                      VStr (shown_response max_response_length (snd response))])
                   responses
    end in
  match metrics extracted_content with
  | [] => summary
  | ms =>
      summary ++ [VStr ([LF; LF] ++ lit "PERFORMANCE METRICS:");
                  VStr (repeat (chr "-") 40)]
              ++ flat_map (fun metric =>
                   [agent_heading (fst metric); VStr (snd metric)]) ms
  end.

Definition format_swarm_summary (extracted_content : sections)
                                (max_response_length : Z) : result str :=
  join [LF] (summary_lines extracted_content max_response_length).

(** ** Entry points *)

(** What [display_swarm_analysis] returns, and what it printed.  [print]
    is taken to write the text it is given: an output stream that cannot
    encode the text, or is closed, is not modelled. *)
Record analysis := Analysis {
  cleaned_data : list value;
  extracted_content : sections;
  printed : option str
}.

Definition display_swarm_analysis (swarm_result : dict) (verbose : bool)
  : result analysis :=
  let json_data :=
    match dict_get (lit "content") swarm_result with
    | Some (VList l) => VList l
    | Some (VStr s) =>
        try_except (json_loads s) (VList [VDict [(TEXT, VStr s)]])
    | _ => VList []
    end in
  items <- py_iter json_data ;;
  let cleaned := clean_swarm_output items in
  extracted <- extract_swarm_content cleaned ;;
  out <- (if verbose
          then text <- format_swarm_summary extracted 500 ;; Ok (Some text)
          else Ok None) ;;
  Ok (Analysis cleaned extracted out).

(** [save_cleaned_swarm_output]: the file it writes, as its name and its
    contents. *)
Definition save_cleaned_swarm_output (json_data : value) (output_file : str)
                                     (format_output : bool)
  : result (str * str) :=
  parsed_data <- match json_data with
                 | VStr s => json_loads s
                 | _ => Ok json_data
                 end ;;
  items <- py_iter parsed_data ;;
  Ok (output_file, json_dumps format_output (VList (clean_swarm_output items))).

End WithJson.

End Swarm.

(* ===================================================================== *)
(** * The batch cleaner on a store of objects *)
(* ===================================================================== *)

(** [clean_swarm_output] once more, with the objects it touches kept in a
    store: the caller's list and its elements are objects with an address,
    [item.copy()] allocates, [cleaned_item['text'] = ...] and
    [cleaned_data.append(...)] write to an address.  The values inside a
    dict are never written by the function and stay plain values. *)

Module Heap.

Import Py Val.

Definition addr := nat.

Inductive obj :=
| OList (items : list addr)       (* a list of references *)
| OVal (v : value).               (* any other object *)

Definition heap := list obj.

(** A command on the store; [None] when the loop ran out of fuel. *)
Definition M (A : Type) := heap -> option (A * heap).

Definition ret {A} (a : A) : M A := fun h => Some (a, h).

Definition mbind {A B} (m : M A) (f : A -> M B) : M B :=
  fun h => match m h with
           | Some (a, h') => f a h'
           | None => None
           end.

Notation "x <~ m ;; k" := (mbind m (fun x => k))
  (at level 61, m at next level, right associativity).
Notation "m ;;; k" := (mbind m (fun _ => k))
  (at level 61, right associativity).

Definition out_of_fuel {A} : M A := fun _ => None.

Definition alloc (o : obj) : M addr := fun h => Some (length h, h ++ [o]).

Definition deref (a : addr) : M (option obj) := fun h => Some (nth_error h a, h).

Fixpoint update (a : addr) (o : obj) (h : heap) : heap :=
  match h, a with
  | [], _ => []
  | _ :: t, O => o :: t
  | x :: t, S a' => x :: update a' o t
  end.

Definition assign (a : addr) (o : obj) : M unit := fun h => Some (tt, update a o h).

(** [d.copy()] *)
Definition copy (a : addr) : M addr :=
  o <~ deref a ;;
  match o with
  | Some o' => alloc o'
  | None => ret a
  end.

(** [d[k] = v] *)
Definition setitem (a : addr) (k : str) (v : value) : M unit :=
  o <~ deref a ;;
  match o with
  | Some (OVal (VDict d)) => assign a (OVal (VDict (dict_set k v d)))
  | _ => ret tt
  end.

(** [l.append(x)] *)
Definition append (l x : addr) : M unit :=
  o <~ deref l ;;
  match o with
  | Some (OList items) => assign l (OList (items ++ [x]))
  | _ => ret tt
  end.

(** The body of the loop for the element [item]. *)
Definition clean_step (cleaned_data item : addr) : M unit :=
  o <~ deref item ;;
  match o with
  | Some (OVal (VDict d)) =>
      match dict_get Swarm.TEXT d with
      | Some text =>
          cleaned_item <~ copy item ;;
          setitem cleaned_item Swarm.TEXT (Swarm.clean_swarm_text text) ;;;
          append cleaned_data cleaned_item
      | None => append cleaned_data item
      end
  | _ => append cleaned_data item
  end.

(** [for item in json_data]: the list is read again at every turn, at the
    next index, as the list iterator does. *)
Fixpoint clean_loop (fuel : nat) (json_data cleaned_data : addr) (i : nat)
  : M unit :=
  o <~ deref json_data ;;
  match o with
  | Some (OList items) =>
      match nth_error items i with
      | Some item =>
          match fuel with
          | O => out_of_fuel
          | S fuel' =>
              clean_step cleaned_data item ;;;
              clean_loop fuel' json_data cleaned_data (S i)
          end
      | None => ret tt
      end
  | _ => ret tt
  end.

(** The length of the list at [a], to start the loop with. *)
Definition size_at (a : addr) (h : heap) : nat :=
  match nth_error h a with
  | Some (OList items) => length items
  | _ => 0
  end.

Definition clean_swarm_output (json_data : addr) : M addr :=
  fun h =>
    (cleaned_data <~ alloc (OList []) ;;
     clean_loop (size_at json_data h) json_data cleaned_data 0 ;;;
     ret cleaned_data) h.

End Heap.

(* ===================================================================== *)
(** * Vocabulary of the specification *)
(* ===================================================================== *)

Module Spec.

Import Py Re Val Swarm.

(** ** Text cleaner *)

(** What the chain of [replace] calls does to one character. *)
Definition box_ascii (c : char) : char :=
  fold_left (fun c kv => if (c =? fst kv)%N then snd kv else c) box_chars c.

(** The keys of [box_chars]. *)
Definition in_table (c : char) : bool :=
  existsb (fun kv => (c =? fst kv)%N) box_chars.

(** The block Box Drawing, U+2500..U+257F. *)
Definition box_drawing (c : char) : bool :=
  ((0x2500 <=? c) && (c <=? 0x257F))%N.

(** The four characters that replace the glyphs. *)
Definition ascii_line (c : char) : bool :=
  ((c =? chr "+") || (c =? chr "-") || (c =? chr "|") || (c =? chr "="))%N.

(** A sequence [ESC [ ... m], raw or escaped, somewhere in the text. *)
Definition has_ansi (s : str) : bool :=
  found ansi_re s || found ansi_escaped_re s.

Definition entry_ok (kv : char * char) : bool :=
  ascii_line (snd kv) && box_drawing (fst kv).

(** [strips re s o]: [o] is [s] with some matches of [re] cut out. *)
Inductive strips (re : regex) : str -> str -> Prop :=
| strips_nil : strips re [] []
| strips_keep c s o : strips re s o -> strips re (c :: s) (c :: o)
| strips_cut n s o :
    match_here re s = Some (S n) -> strips re (skipn (S n) s) o -> strips re s o.

(** The pattern has no empty match. *)
Definition nonempty_matches (re : regex) : Prop :=
  forall s, match_here re s <> Some 0.

(** A match that is not empty starts the text. *)
Definition starts_match (re : regex) (s : str) : bool :=
  match match_here re s with
  | Some (S _) => true
  | _ => false
  end.

(** Every [c0] of the text starts a match. *)
Fixpoint every_start (re : regex) (c0 : char) (s : str) : bool :=
  match s with
  | [] => true
  | x :: t => (negb (x =? c0)%N || starts_match re s) && every_start re c0 t
  end.

(** ** Batch cleaner *)

(** What the specification says of one element: a mapping with a [text] key has
    that value cleaned and nothing else changed; anything else is passed
    on as it is. *)
Definition cleaned_element (item item' : value) : Prop :=
  match item with
  | VDict d =>
      match dict_get TEXT d with
      | Some text =>
          exists d', item' = VDict d' /\
            dict_get TEXT d' = Some (clean_swarm_text text) /\
            map fst d' = map fst d /\
            forall k, k <> TEXT -> dict_get k d' = dict_get k d
      | None => item' = item
      end
  | _ => item' = item
  end.

(** ** Content extractor *)

Definition fragment (text : str) : value := VDict [(TEXT, VStr text)].

Definition end_to_end_input : list value :=
  [ fragment (lit "Swarm Status: active");
    fragment (lit "Agent agent_1 Response: Hello" ++ [LF; LF] ++
              lit "Metrics: latency=5ms") ].

(** A fragment whose [text], if it has one, is a string. *)
Definition text_is_str (item : value) : bool :=
  match item with
  | VDict d =>
      match dict_get TEXT d with
      | Some (VStr _) | None => true
      | Some _ => false
      end
  | _ => true
  end.

Definition is_str (v : value) : bool :=
  match v with VStr _ => true | _ => false end.

(** [agent_] and one or more decimal digits. *)
Definition agent_id_form (a : str) : Prop :=
  exists d ds, digit d = true /\ forallb digit ds = true /\
               a = lit "agent_" ++ d :: ds.

Definition AGENT_WORD : str := lit "Agent agent_".

Definition ids_formed (cs : sections) : Prop :=
  Forall (fun e => agent_id_form (fst e)) (agent_responses cs) /\
  Forall (fun e => agent_id_form (fst e)) (metrics cs).

Definition MARKER : str := lit "Collective Knowledge:".
Definition OPEN : char := chr "[".

(** The reading of the specification: the first [[] at or after the
    marker, [-1] when there is none. *)
Definition bracket_after_marker (text : str) : Z :=
  let m := find MARKER text in
  let k := find [OPEN] (slice_from text m) in
  if (k =? -1)%Z then (-1)%Z else (m + k)%Z.

(** ** Summary formatter *)

(** An extracted record with one response and nothing else. *)
Definition one_response (agent_id body : str) : sections :=
  Sections VNone [(agent_id, body)] [] (VList []).

(** The summary of such a record, up to the response text. *)
Definition summary_head (agent_id : str) : str :=
  lit "SWARM ANALYSIS SUMMARY" ++ [LF] ++ repeat (chr "=") 60 ++ [LF] ++
  [LF] ++ lit "AGENT RESPONSES:" ++ [LF] ++ repeat (chr "-") 40 ++ [LF] ++
  [LF] ++ agent_id ++ lit ":" ++ [LF].

(** Size of a code point in UTF-8. *)
Definition utf8_size (c : char) : nat :=
  if (c <? 0x80)%N then 1 else if (c <? 0x800)%N then 2
  else if (c <? 0x10000)%N then 3 else 4.

Definition utf8_len (s : str) : nat := list_sum (map utf8_size s).

(** The text ends here or goes on with a new line. *)
Definition ends_line (after : str) : Prop :=
  after = [] \/ exists rest, after = 10%N :: rest.

(** The text ends with the heading of an agent: an empty line, the
    identifier, a colon and a line feed. *)
Definition under_heading (agent_id head : str) : Prop :=
  exists before, head = before ++ [10; 10]%N ++ agent_id ++ lit ":" ++ [10%N].

(** ** The store of the batch cleaner *)

Import Heap.

(** The objects that were there before the call are as they were. *)
Definition frame (h g : heap) : Prop :=
  forall a, a < length h -> nth_error g a = nth_error h a.

(** The reference appended for the element [item]: a new object that holds
    the cleaned copy when the element is a mapping with a [text] key, the
    element itself otherwise. *)
Definition cleaned_ref (h g : heap) (item item' : addr) : Prop :=
  match nth_error h item with
  | Some (OVal (VDict d)) =>
      match dict_get TEXT d with
      | Some text =>
          length h < item' /\
          nth_error g item' =
            Some (OVal (VDict (dict_set TEXT (clean_swarm_text text) d)))
      | None => item' = item
      end
  | _ => item' = item
  end.

(** The value of the object at an address. *)
Definition value_at (h : heap) (a : addr) : value :=
  match nth_error h a with
  | Some (OVal v) => v
  | _ => VNone
  end.

(** From [g] to [g1] only the list at [cd] and new objects were written. *)
Definition stable (cd : addr) (g g1 : heap) : Prop :=
  length g <= length g1 /\
  forall a, a <> cd -> a < length g -> nth_error g1 a = nth_error g a.

End Spec.

(* ===================================================================== *)
(** * Further vocabulary *)
(* ===================================================================== *)

Module Terms.

Import Py Re Val Swarm Spec.

(** ** Text cleaner *)

(** The value a dict display gives a key: where the key is written more
    than once, the later entry. *)
Fixpoint lookup_last (c : char) (display : list (char * char)) : option char :=
  match display with
  | [] => None
  | (k, v) :: rest =>
      match lookup_last c rest with
      | Some v' => Some v'
      | None => if (c =? k)%N then Some v else None
      end
  end.

(** The value of a key in the items of a dict. *)
Fixpoint lookup_item (c : char) (items : list (char * char)) : option char :=
  match items with
  | [] => None
  | (k, v) :: rest => if (c =? k)%N then Some v else lookup_item c rest
  end.

(** A sequence at the start of a text: the introducer [w], [[], a run of
    digits and semicolons, [m]; [n] is its length. *)
Definition sequence_at (w s : str) (n : nat) : Prop :=
  exists params rest,
    s = w ++ chr "[" :: params ++ chr "m" :: rest /\
    forallb ansi_param params = true /\
    n = length w + length params + 2.

(** ** Content extractor *)

(** The text holds [Agent agent_], a digit and, further on in the same
    line, the word [tok]. *)
Definition agent_line (tok text : str) : Prop :=
  exists pre d mid post,
    text = pre ++ lit "Agent agent_" ++ d :: mid ++ tok ++ post /\
    digit d = true /\ forallb dot mid = true.

(** No match of [re] starts in the first [n] positions of the text. *)
Definition no_match_before (re : regex) (n : nat) (text : str) : Prop :=
  forall i, i < n -> match_here re (skipn i text) = None.

(** A number, a boolean or [None]: a value that is no container. *)
Definition scalar (v : value) : bool :=
  match v with
  | VNone | VBool _ | VInt _ | VFloat _ => true
  | _ => false
  end.

(** What the loop over [knowledge_data] does to one element that it
    accepts. *)
Definition knowledge_cleaned (item item' : value) : Prop :=
  match item with
  | VDict d =>
      match dict_get CONTENT d with
      | Some c =>
          exists d', item' = VDict d' /\
            dict_get CONTENT d' = Some (clean_swarm_text c) /\
            map fst d' = map fst d /\
            forall k, k <> CONTENT -> dict_get k d' = dict_get k d
      | None => item' = item
      end
  | _ => item' = item
  end.

(** An element on which the loop over [knowledge_data] raises: a value
    that is no container, or a string or a list in which [content] is
    found and which cannot be indexed by it. *)
Definition knowledge_rejects (item : value) : bool :=
  match item with
  | VStr t => contains CONTENT t
  | VList l => existsb (eq_str CONTENT) l
  | VDict _ => false
  | _ => true
  end.

(** An element that none of the branches of the extractor takes: not a
    mapping, a mapping without [text], or a string text that is no status,
    no response, no metrics and has no payload to parse. *)
Definition passes_by (item : value) : bool :=
  match item with
  | VDict d =>
      match dict_get TEXT d with
      | None => true
      | Some (VStr s) =>
          negb (contains (lit "Swarm Status") s) &&
          negb (found response_re s) && negb (found metrics_re s) &&
          (negb (contains MARKER s) || negb (contains [OPEN] s))
      | Some _ => false
      end
  | _ => true
  end.

(** A fragment reduced to its [text]. *)
Definition text_only (item : value) : value :=
  match item with
  | VDict d =>
      match dict_get TEXT d with
      | Some text => VDict [(TEXT, text)]
      | None => VDict []
      end
  | _ => item
  end.

(** From [cs] to [c] and from [cs2] to [c2] the same entries were added to
    the responses and to the metrics, at most [n] in all. *)
Definition grows_alike (n : nat) (cs cs2 c c2 : sections) : Prop :=
  exists dr dm,
    agent_responses c = agent_responses cs ++ dr /\
    agent_responses c2 = agent_responses cs2 ++ dr /\
    metrics c = metrics cs ++ dm /\
    metrics c2 = metrics cs2 ++ dm /\
    length dr + length dm <= n.

(** Two runs both return, having added the same entries, or both raise the
    same exception. *)
Definition runs_alike (n : nat) (cs cs2 : sections)
                      (r r2 : result sections) : Prop :=
  match r, r2 with
  | Ok c, Ok c2 => grows_alike n cs cs2 c c2
  | Raise e, Raise e2 => e = e2
  | _, _ => False
  end.

(** The status of a record is absent or a string. *)
Definition status_plain (c : sections) : Prop :=
  swarm_status c = VNone \/ exists s, swarm_status c = VStr s.

(** What the extractor can store as the status: nothing, a cleaned string,
    or a list or a mapping in which [Swarm Status] was found. *)
Definition status_taken (v : value) : Prop :=
  match v with
  | VNone | VStr _ => True
  | VList l => existsb (eq_str (lit "Swarm Status")) l = true
  | VDict d => dict_has (lit "Swarm Status") d = true
  | _ => False
  end.

(** ** Batch cleaner on the store *)



(** ** Summary formatter *)

(** The two lines every summary starts with. *)
Definition BANNER : str :=
  lit "SWARM ANALYSIS SUMMARY" ++ [LF] ++ repeat (chr "=") 60.

End Terms.

(* ===================================================================== *)
(** * Sequences and glyphs *)
(* ===================================================================== *)

(** What the specification calls an ANSI sequence, [ESC [ params m] with
    the escape character written raw or as its JSON escape, and the glyphs
    it has replaced, written out apart from the patterns and the table of
    the code. *)

Module Sequences.

Import Py Spec.

(** A parameter character of a sequence: a decimal digit or a semicolon. *)
Definition sgr_param (c : char) : bool :=
  ((48 <=? c) && (c <=? 57) || (c =? 59))%N.

(** The introducer of a raw sequence, the escape character, and of an
    escaped one, the six characters of its JSON escape. *)
Definition RAW : str := [27]%N.
Definition ESCAPED : str := [92; 117; 48; 48; 49; 98]%N.

(** Reading a sequence from the start of a text ends in a whole sequence,
    of [n] characters, or stops after [k] characters of one, at a
    character that cannot go on or at the end of the text. *)
Inductive reading :=
| Sequence (n : nat)
| Stuck (k : nat).

Fixpoint read_params (k : nat) (t : str) : reading :=
  match t with
  | c :: t' =>
      if sgr_param c then read_params (S k) t'
      else if (c =? 109)%N then Sequence (S k) else Stuck k
  | [] => Stuck k
  end.

Definition read_bracket (k : nat) (t : str) : reading :=
  match t with
  | c :: t' => if (c =? 91)%N then read_params (S k) t' else Stuck k
  | [] => Stuck k
  end.

Fixpoint read_intro (intro : str) (k : nat) (t : str) : reading :=
  match intro with
  | [] => read_bracket k t
  | x :: intro' =>
      match t with
      | y :: t' => if (y =? x)%N then read_intro intro' (S k) t' else Stuck k
      | [] => Stuck k
      end
  end.

(** The introducer, [[], parameters, [m]. *)
Definition read (intro t : str) : reading := read_intro intro 0 t.

(** The length of a whole sequence. *)
Definition whole (r : reading) : option nat :=
  match r with
  | Sequence n => Some n
  | Stuck _ => None
  end.

(** The length of the sequence that starts the text, if one does. *)
Definition sequence_len (intro t : str) : option nat := whole (read intro t).

(** A reading that started [k] characters earlier. *)
Definition lift (k : nat) (r : reading) : reading :=
  match r with
  | Sequence n => Sequence (k + n)
  | Stuck j => Stuck (k + j)
  end.

(** The characters that go on an unfinished sequence: the characters of
    the introducer, [[] and the parameters. *)
Definition goes_on (intro : str) (c : char) : Prop :=
  In c intro \/ c = 91%N \/ sgr_param c = true.

(** A sequence starts somewhere in the text. *)
Fixpoint has_sequence (intro t : str) : bool :=
  match t with
  | [] => false
  | _ :: t' =>
      match sequence_len intro t with
      | Some _ => true
      | None => has_sequence intro t'
      end
  end.

(** [cut_all intro t o]: [o] is [t] without its sequences.  From left to
    right, a character at which no sequence starts is kept, and a sequence
    is left out whole. *)
Inductive cut_all (intro : str) : str -> str -> Prop :=
| cut_all_nil : cut_all intro [] []
| cut_all_keep c t o :
    sequence_len intro (c :: t) = None ->
    cut_all intro t o -> cut_all intro (c :: t) (c :: o)
| cut_all_cut n t o :
    sequence_len intro t = Some n ->
    cut_all intro (skipn n t) o -> cut_all intro t o.

(** An unfinished sequence starts the text, and a sequence that a pass
    cuts comes directly after it. *)
Definition joins_here (intro cut t : str) : bool :=
  match read intro t with
  | Stuck (S k) =>
      match sequence_len cut (skipn (S k) t) with
      | Some _ => true
      | None => false
      end
  | _ => false
  end.

(** The same somewhere in the text. *)
Fixpoint joins (intro cut t : str) : bool :=
  match t with
  | [] => false
  | _ :: t' => joins_here intro cut t || joins intro cut t'
  end.

(** The glyphs that the cleaner replaces. *)
Definition listed_glyph (c : char) : bool :=
  (existsb (N.eqb c)
     [0x2500; 0x2502; 0x2514; 0x251C; 0x2524; 0x252C; 0x2534; 0x253C] ||
   (0x2550 <=? c) && (c <=? 0x2570))%N.

(** Horizontal lines become [-] and [=], vertical lines [|], corners and
    junctions [+]. *)
Definition ascii_for (c : char) : char :=
  if (c =? 0x2500)%N then chr "-"
  else if (c =? 0x2550)%N then chr "="
  else if ((c =? 0x2502) || (c =? 0x2551))%N then chr "|"
  else chr "+".

(** What the output holds for a character that is kept: the replacement
    of a listed glyph, and the character itself when it is outside the
    block Box Drawing. *)
Definition glyph_rule (c c' : char) : Prop :=
  (listed_glyph c = true -> c' = ascii_for c) /\
  (box_drawing c = false -> c' = c).

(** The block Box Drawing, code point by code point. *)
Definition block : list N :=
  map (fun i => (0x2500 + N.of_nat i)%N) (seq 0 128).

End Sequences.

(* ===================================================================== *)
(** * Properties *)
(* ===================================================================== *)

Import Py Re Val Swarm Spec.

(** ** Strings *)

Section StringFacts.

Lemma str_eqb_refl (a : str) : str_eqb a a = true.
Proof.
  induction a as [|x a IH]; simpl; [reflexivity|].
  now rewrite N.eqb_refl, IH.
Qed.

Lemma str_eqb_eq (a b : str) : str_eqb a b = true <-> a = b.
Proof.
  split; [|intros ->; apply str_eqb_refl].
  revert b; induction a as [|x a IH]; intros [|y b]; simpl; try easy.
  intros H. apply andb_true_iff in H as [Hx Hab].
  apply N.eqb_eq in Hx. apply IH in Hab. now subst.
Qed.

Lemma startswith_app (p s : str) : startswith p (p ++ s) = true.
Proof.
  induction p as [|x p IH]; simpl; [reflexivity|].
  now rewrite N.eqb_refl, IH.
Qed.

Lemma startswith_split (p s : str) :
  startswith p s = true -> s = p ++ skipn (length p) s.
Proof.
  revert s; induction p as [|x p IH]; intros [|y s]; simpl; try easy.
  intros H. apply andb_true_iff in H as [Hx Hp].
  apply N.eqb_eq in Hx. subst. f_equal. now apply IH.
Qed.

End StringFacts.

(** ** Batch cleaner *)

Section BatchCleaner.

Lemma append_loop_map {A B} (f : A -> B) (l : list A) (acc : list B) :
  fold_left (fun cleaned item => cleaned ++ [f item]) l acc = acc ++ map f l.
Proof.
  revert acc; induction l as [|x l IH]; intros acc; simpl.
  - now rewrite app_nil_r.
  - rewrite IH, <- app_assoc. reflexivity.
Qed.

Lemma clean_swarm_output_map (F : list value) :
  clean_swarm_output F = map clean_item F.
Proof. unfold clean_swarm_output. now rewrite append_loop_map. Qed.

Lemma dict_get_set_same (k : str) (v : value) (d : dict) :
  dict_get k (dict_set k v d) = Some v.
Proof.
  induction d as [|[k' v'] d IH]; simpl.
  - now rewrite str_eqb_refl.
  - destruct (str_eqb k' k) eqn:E; simpl; now rewrite E.
Qed.

Lemma dict_get_set_other (k k' : str) (v : value) (d : dict) :
  k' <> k -> dict_get k' (dict_set k v d) = dict_get k' d.
Proof.
  intros Hk. induction d as [|[k0 v0] d IH]; simpl.
  - destruct (str_eqb k k') eqn:E; [|reflexivity].
    apply str_eqb_eq in E. congruence.
  - destruct (str_eqb k0 k) eqn:E; simpl.
    + destruct (str_eqb k0 k') eqn:E'; [|reflexivity].
      apply str_eqb_eq in E, E'. congruence.
    + now rewrite IH.
Qed.

Lemma dict_set_keys (k : str) (v v0 : value) (d : dict) :
  dict_get k d = Some v0 -> map fst (dict_set k v d) = map fst d.
Proof.
  induction d as [|[k' v'] d IH]; simpl; [discriminate|].
  destruct (str_eqb k' k); simpl; [reflexivity|].
  intros H. now rewrite IH.
Qed.

Lemma clean_item_cleaned (item : value) : cleaned_element item (clean_item item).
Proof.
  unfold cleaned_element, clean_item.
  destruct item as [| | | | |l|d]; try reflexivity.
  destruct (dict_get TEXT d) as [text|] eqn:E; [|reflexivity].
  eexists; split; [reflexivity|]. split; [apply dict_get_set_same|].
  split; [now apply dict_set_keys with (v0 := text)|].
  intros k Hk. now apply dict_get_set_other.
Qed.

(** C7: the batch cleaner returns a sequence of the same length and in the
    same order; the element at each index is the input element with its
    [text] cleaned when it is a mapping with a [text] key, and the input
    element itself otherwise. *)
Theorem batch_cleaner_elementwise (F : list value) :
  length (clean_swarm_output F) = length F /\
  Forall2 cleaned_element F (clean_swarm_output F).
Proof.
  rewrite clean_swarm_output_map. split; [apply length_map|].
  induction F as [|item F IH]; simpl; constructor;
    [apply clean_item_cleaned|exact IH].
Qed.

End BatchCleaner.

(** ** Summary formatter *)

Section Formatter.

Lemma len_nonneg (s : str) : (0 <= len s)%Z.
Proof. unfold len. lia. Qed.

Lemma slice_to_firstn (s : str) (n : Z) :
  (0 <= n <= len s)%Z -> slice_to s n = firstn (Z.to_nat n) s.
Proof.
  intros H. unfold slice_to, clamp.
  destruct (n <? 0)%Z eqn:E; [apply Z.ltb_lt in E; lia|].
  now rewrite Z.min_r, Z.max_r by lia.
Qed.

Lemma shown_response_over (max_len : Z) (body : str) :
  (0 <= max_len < len body)%Z ->
  shown_response max_len body = firstn (Z.to_nat max_len) body ++ ELLIPSIS.
Proof.
  intros H. unfold shown_response.
  destruct (len body >? max_len)%Z eqn:E.
  - rewrite slice_to_firstn by lia. reflexivity.
  - rewrite Z.gtb_ltb in E. apply Z.ltb_ge in E. lia.
Qed.

Lemma shown_response_within (max_len : Z) (body : str) :
  (len body <= max_len)%Z -> shown_response max_len body = body.
Proof.
  intros H. unfold shown_response.
  destruct (len body >? max_len)%Z eqn:E; [|reflexivity].
  rewrite Z.gtb_ltb in E. apply Z.ltb_lt in E. lia.
Qed.

Lemma format_one_response (agent_id body : str) (max_len : Z) :
  format_swarm_summary (one_response agent_id body) max_len =
  Ok (summary_head agent_id ++ shown_response max_len body).
Proof.
  unfold format_swarm_summary, summary_lines, one_response, summary_head,
    agent_heading.
  cbn [swarm_status agent_responses metrics truthy app flat_map fst snd join bind].
  repeat (rewrite <- app_assoc; cbn [app]).
  reflexivity.
Qed.

(** In the summary of any record, each response is there as
    [shown_response] gives it. *)
Lemma summary_lines_response (c : sections) (max_len : Z) (agent_id body : str) :
  In (agent_id, body) (agent_responses c) ->
  In (VStr (shown_response max_len body)) (summary_lines c max_len).
Proof.
  intros Hin. unfold summary_lines. cbv zeta.
  assert (Hflat : In (VStr (shown_response max_len body))
            (flat_map (fun response =>
               [agent_heading (fst response);
                VStr (shown_response max_len (snd response))])
               (agent_responses c))).
  { apply in_flat_map. exists (agent_id, body). split; [exact Hin|].
    right. now left. }
  destruct (agent_responses c) as [|r rs]; [contradiction|].
  destruct (metrics c); [|apply in_or_app; left];
    apply in_or_app; right; apply in_or_app; right; exact Hflat.
Qed.

End Formatter.

(** ** Content extractor: the end-to-end example *)

Section EndToEnd.

(** The second fragment is a response: the test for metrics is in an
    [elif] that is not reached, so the record has no metrics entry. *)
Lemma end_to_end_metrics_missing :
  ~ exists c,
      extract_swarm_content Json.loads end_to_end_input = Ok c /\
      swarm_status c = VStr (lit "Swarm Status: active") /\
      agent_responses c = [(lit "agent_1", lit "Hello")] /\
      metrics c = [(lit "agent_1", lit "latency=5ms")].
Proof.
  intros (c & Hc & _ & _ & Hm).
  vm_compute in Hc. injection Hc as <-. discriminate Hm.
Qed.

(** C1 (amended): on the example input the extractor returns the status
    [Swarm Status: active], the single response [(agent_1, Hello)] and no
    metrics: the text after the metrics delimiter is cut from the
    response and recorded nowhere. *)
Theorem end_to_end_example (json_loads : str -> result value) :
  extract_swarm_content json_loads end_to_end_input =
  Ok (Sections (VStr (lit "Swarm Status: active"))
               [(lit "agent_1", lit "Hello")]
               []
               (VList [])).
Proof. vm_compute. reflexivity. Qed.

End EndToEnd.

(** ** Content extractor: exceptions *)

Section ExtractorExceptions.

Variable json_loads : str -> result value.

Lemma extract_item_total (cs : sections) (item : value) :
  text_is_str item = true ->
  exists cs', extract_item json_loads cs item = Ok cs'.
Proof.
  unfold text_is_str, extract_item.
  destruct item as [| | | | |l|d]; try (intros _; eexists; reflexivity).
  destruct (dict_get TEXT d) as [[| | | |s|l|d']|]; try discriminate;
    intros _; cbn [py_in bind]; [|eexists; reflexivity].
  destruct (contains (lit "Swarm Status") s); eexists; reflexivity.
Qed.

(** On fragments whose texts are strings the extractor returns a record,
    whatever [json.loads] does with an embedded payload. *)
Lemma extract_total_on_strings (json_data : list value) :
  forallb text_is_str json_data = true ->
  exists c, extract_swarm_content json_loads json_data = Ok c.
Proof.
  unfold extract_swarm_content. generalize content_sections.
  induction json_data as [|item rest IH]; intros cs H; simpl.
  - eexists; reflexivity.
  - simpl in H. apply andb_true_iff in H as [Hi Hr].
    destruct (extract_item_total cs item Hi) as [cs' E]. rewrite E. cbn [bind].
    now apply IH.
Qed.

(** A payload that [json.loads] rejects leaves the record as it was. *)
Lemma knowledge_failure_swallowed (cs : sections) (text body : str) (e : exn) :
  found response_re text = false ->
  found metrics_re text = false ->
  knowledge_body text = Some body ->
  json_loads body = Raise e ->
  extract_text json_loads cs text = cs.
Proof.
  intros Hr Hm Hb Hl. unfold extract_text. rewrite Hr, Hm, Hb, Hl.
  cbn [bind try_except]. now destruct (contains _ text).
Qed.

(** C4: a fragment whose [text] is not a string makes the extractor raise
    [TypeError]: the membership test or [re.search] is applied to the
    number.  The text cleaner and the batch cleaner let such a value
    through, so the entry point raises on a payload that decodes to it. *)
Theorem extractor_raises_on_non_string_text :
  extract_swarm_content json_loads [VDict [(TEXT, VInt 5)]] = Raise TypeError /\
  extract_swarm_content json_loads [VDict [(TEXT, VList [])]] = Raise TypeError /\
  clean_swarm_output [VDict [(TEXT, VInt 5)]] = [VDict [(TEXT, VInt 5)]].
Proof. repeat split. Qed.

End ExtractorExceptions.

(** The same through the entry point, on the payload
    [[{"text": null}]]. *)
Lemma display_raises_on_null_text (verbose : bool) :
  let payload :=
    lit "[{" ++ [DQUOTE] ++ lit "text" ++ [DQUOTE] ++ lit ": null}]" in
  Json.loads payload = Ok (VList [VDict [(TEXT, VNone)]]) /\
  display_swarm_analysis Json.loads [(lit "content", VStr payload)] verbose =
    Raise TypeError.
Proof. split; vm_compute; reflexivity. Qed.

(** ** Entry points: a payload that is not JSON *)

Section RawPayload.

Variable json_loads : str -> result value.
Variable json_dumps : bool -> value -> str.

Lemma join_strings (sep : str) (parts : list value) :
  forallb is_str parts = true -> exists s, join sep parts = Ok s.
Proof.
  induction parts as [|[| | | |s|l|d] rest IH]; simpl; try discriminate.
  - intros _. eexists; reflexivity.
  - intros H. destruct (IH H) as [r Hr].
    destruct rest as [|p rest']; [eexists; reflexivity|].
    rewrite Hr. eexists; reflexivity.
Qed.

Lemma format_total (c : sections) (max_len : Z) :
  (swarm_status c = VNone \/ exists s, swarm_status c = VStr s) ->
  exists s, format_swarm_summary c max_len = Ok s.
Proof.
  intros Hs. apply join_strings. unfold summary_lines. cbv zeta.
  assert (Hflat : forall (A : Type) (f : A -> list value) (l : list A),
             (forall a, forallb is_str (f a) = true) ->
             forallb is_str (flat_map f l) = true).
  { intros A f l Hf. induction l as [|a l IH]; simpl; [reflexivity|].
    now rewrite forallb_app, Hf, IH. }
  assert (Hst : truthy (swarm_status c) = true -> is_str (swarm_status c) = true).
  { destruct Hs as [-> | [s ->]]; [discriminate|reflexivity]. }
  destruct (truthy (swarm_status c)); [specialize (Hst eq_refl)|];
    destruct (agent_responses c) as [|r rs];
    destruct (metrics c) as [|m ms];
    rewrite ?forallb_app, ?Hflat by (intros; reflexivity);
    cbn [forallb is_str andb]; rewrite ?Hst; reflexivity.
Qed.

Lemma extract_fragment_status (text : str) :
  exists c, extract_swarm_content json_loads [fragment text] = Ok c /\
            (swarm_status c = VNone \/ exists s, swarm_status c = VStr s).
Proof.
  unfold extract_swarm_content, fragment. cbn [extract_items extract_item].
  change (dict_get TEXT [(TEXT, VStr text)]) with (Some (VStr text)).
  cbn [py_in bind].
  destruct (contains (lit "Swarm Status") text).
  - eexists; split; [reflexivity|]. right. eexists; reflexivity.
  - eexists; split; [reflexivity|]. left.
    unfold extract_text.
    destruct (found response_re text); [reflexivity|].
    destruct (found metrics_re text); [reflexivity|].
    destruct (contains _ text); [|reflexivity].
    destruct (knowledge_body text) as [body|]; [|reflexivity].
    destruct (json_loads body) as [kd|]; [|reflexivity]. cbn [bind].
    destruct (clean_knowledge kd); reflexivity.
Qed.

(** The entry point wraps a payload that does not parse into one fragment
    and returns normally. *)
Lemma display_wraps_unparsable (swarm_result : dict) (raw : str) (e : exn)
                               (verbose : bool) :
  dict_get (lit "content") swarm_result = Some (VStr raw) ->
  json_loads raw = Raise e ->
  exists a, display_swarm_analysis json_loads swarm_result verbose = Ok a /\
            cleaned_data a = [fragment (clean_str raw)].
Proof.
  intros Hc Hl. unfold display_swarm_analysis. rewrite Hc, Hl.
  cbn [try_except py_iter bind].
  change (clean_swarm_output [VDict [(TEXT, VStr raw)]])
    with [fragment (clean_str raw)].
  destruct (extract_fragment_status (clean_str raw)) as (c & Ec & Hs).
  rewrite Ec. cbn [bind]. destruct verbose; cbn [bind].
  - destruct (format_total c 500 Hs) as [s Es]. rewrite Es. cbn [bind].
    eexists; split; reflexivity.
  - eexists; split; reflexivity.
Qed.

(** C6: the persistence variant has no handler around [json.loads]: when
    the payload string does not parse, the exception reaches the caller
    and nothing is written. *)
Theorem save_propagates_parse_failure (raw output_file : str) (e : exn)
                                      (format_output : bool) :
  json_loads raw = Raise e ->
  save_cleaned_swarm_output json_loads json_dumps (VStr raw) output_file
                            format_output = Raise e.
Proof. intros H. unfold save_cleaned_swarm_output. now rewrite H. Qed.

End RawPayload.

Lemma save_propagates_parse_failure_witness :
  Json.loads (lit "not json") = Raise JSONDecodeError /\
  save_cleaned_swarm_output Json.loads (fun _ _ => []) (VStr (lit "not json"))
    (lit "cleaned_swarm_output.json") true = Raise JSONDecodeError.
Proof.
  split; [reflexivity|].
  exact (@save_propagates_parse_failure Json.loads (fun _ _ => [])
           (lit "not json") (lit "cleaned_swarm_output.json") JSONDecodeError
           true eq_refl).
Defined.

(** ** Summary formatter: the truncation boundary *)

Section Boundary.

Lemma join_app (sep : str) (a b : list value) (sa sb : str) :
  a <> [] -> b <> [] ->
  join sep a = Ok sa -> join sep b = Ok sb ->
  join sep (a ++ b) = Ok (sa ++ sep ++ sb).
Proof.
  intros Ha Hb. revert sa. induction a as [|x a IH]; intros sa; [contradiction|].
  destruct b as [|y b]; [contradiction|].
  destruct x as [| | | |s|l|d]; try discriminate.
  destruct a as [|x' a].
  - cbn [app]. intros [= <-] Eb.
    change (join sep (VStr s :: y :: b))
      with (r <- join sep (y :: b) ;; Ok (s ++ sep ++ r)).
    rewrite Eb. reflexivity.
  - change (join sep (VStr s :: x' :: a))
      with (r <- join sep (x' :: a) ;; Ok (s ++ sep ++ r)).
    change (join sep ((VStr s :: x' :: a) ++ y :: b))
      with (r <- join sep ((x' :: a) ++ y :: b) ;; Ok (s ++ sep ++ r)).
    destruct (join sep (x' :: a)) as [r|] eqn:Er; [|discriminate].
    cbn [bind]. intros [= <-] Eb.
    rewrite (IH ltac:(discriminate) r eq_refl Eb). cbn [bind].
    now rewrite <- !app_assoc.
Qed.

Lemma flat_map_strings {A} (f : A -> list value) (l : list A) :
  (forall a, forallb is_str (f a) = true) ->
  forallb is_str (flat_map f l) = true.
Proof.
  intros Hf. induction l as [|a l IH]; cbn [flat_map]; [reflexivity|].
  now rewrite forallb_app, Hf, IH.
Qed.

(** The lines of a summary around the two lines of one response: the
    lines before depend on the status and on the earlier responses, the
    lines after on the later responses and on the metrics. *)
Lemma summary_lines_around (status knowledge : value)
                           (earlier : list (str * str)) (max_len : Z) :
  status = VNone \/ (exists s, status = VStr s) ->
  exists pre,
    pre <> [] /\ forallb is_str pre = true /\
    forall later ms : list (str * str),
    exists post,
      forallb is_str post = true /\
      (later = [] -> ms = [] -> post = []) /\
      forall e,
        summary_lines (Sections status (earlier ++ e :: later) ms knowledge)
                      max_len =
        pre ++ [agent_heading (fst e); VStr (shown_response max_len (snd e))] ++
        post.
Proof.
  intros Hs.
  set (f := fun response : str * str =>
              [agent_heading (fst response);
               VStr (shown_response max_len (snd response))]).
  set (g := fun metric : str * str =>
              [agent_heading (fst metric); VStr (snd metric)]).
  set (top := [VStr (lit "SWARM ANALYSIS SUMMARY"); VStr (repeat (chr "=") 60)]).
  set (st := if truthy status
             then top ++ [VStr ([LF] ++ lit "SWARM STATUS:");
                          VStr (repeat (chr "-") 40); status]
             else top).
  assert (Hst : forallb is_str st = true).
  { unfold st. destruct Hs as [-> | [s ->]]; cbn [truthy]; [reflexivity|].
    destruct (negb (str_eqb s [])); reflexivity. }
  exists (st ++ [VStr ([LF] ++ lit "AGENT RESPONSES:");
                 VStr (repeat (chr "-") 40)] ++ flat_map f earlier).
  split; [|split].
  - unfold st, top. destruct (truthy status); discriminate.
  - rewrite forallb_app, Hst. cbn [app forallb is_str andb].
    apply flat_map_strings. reflexivity.
  - intros later ms.
    set (tail := match ms with
                 | [] => []
                 | _ => [VStr ([LF; LF] ++ lit "PERFORMANCE METRICS:");
                         VStr (repeat (chr "-") 40)] ++ flat_map g ms
                 end).
    exists (flat_map f later ++ tail). split; [|split].
    + rewrite forallb_app, (@flat_map_strings _ f) by reflexivity.
      unfold tail. destruct ms; [reflexivity|].
      cbn [app forallb is_str andb]. apply (@flat_map_strings _ g). reflexivity.
    + intros -> ->. reflexivity.
    + intros e. unfold summary_lines. cbv zeta.
      cbn [swarm_status agent_responses metrics].
      fold top. fold st.
      assert (Hr : match earlier ++ e :: later with
                   | [] => st
                   | x :: l =>
                       st ++ [VStr ([LF] ++ lit "AGENT RESPONSES:");
                              VStr (repeat (chr "-") 40)] ++
                       flat_map f (x :: l)
                   end =
                   (st ++ [VStr ([LF] ++ lit "AGENT RESPONSES:");
                           VStr (repeat (chr "-") 40)] ++ flat_map f earlier) ++
                   f e ++ flat_map f later).
      { destruct (earlier ++ e :: later) as [|x l] eqn:E.
        - destruct earlier; discriminate.
        - rewrite <- E, flat_map_app. cbn [flat_map].
          now rewrite <- !app_assoc. }
      fold f. fold g. rewrite Hr. unfold tail.
      destruct ms as [|m ms'].
      * now rewrite app_nil_r, <- !app_assoc.
      * now rewrite <- !app_assoc.
Qed.

(** The text of lines of which the two lines of a response are the
    last, or are followed by more. *)
Lemma join_around (pre post : list value) (p agent_id : str) :
  pre <> [] -> join [LF] pre = Ok p -> forallb is_str post = true ->
  exists after,
    ends_line after /\ (post = [] -> after = []) /\
    forall shown : str,
      join [LF] (pre ++ [agent_heading agent_id; VStr shown] ++ post) =
      Ok ((p ++ [10; 10]%N ++ agent_id ++ lit ":" ++ [10%N]) ++ shown ++ after).
Proof.
  intros Hpre Ep Spost. destruct post as [|q post'].
  - exists []. split; [now left|]. split; [reflexivity|]. intros shown.
    rewrite app_nil_r.
    rewrite (@join_app [LF] pre [agent_heading agent_id; VStr shown] p
               (([LF] ++ agent_id ++ lit ":") ++ [LF] ++ shown) Hpre
               ltac:(discriminate) Ep eq_refl).
    f_equal. rewrite app_nil_r, <- !app_assoc. reflexivity.
  - destruct (@join_strings [LF] (q :: post') Spost) as [r Er].
    exists (10%N :: r). split; [right; now eexists|].
    split; [discriminate|]. intros shown.
    assert (Emid : join [LF] ([agent_heading agent_id; VStr shown] ++ q :: post')
                   = Ok ((([LF] ++ agent_id ++ lit ":") ++ [LF] ++ shown) ++
                         [LF] ++ r)).
    { apply (@join_app [LF] [agent_heading agent_id; VStr shown] (q :: post'));
        [discriminate|discriminate|reflexivity|exact Er]. }
    rewrite (@join_app [LF] pre
               ([agent_heading agent_id; VStr shown] ++ q :: post') p _ Hpre
               ltac:(discriminate) Ep Emid).
    f_equal. rewrite <- !app_assoc. reflexivity.
Qed.

(** C8: with [max_response_length = 10], in the summary of any record
    whose status is absent or a string, a response of eleven characters is
    shown under the heading of its agent as its first ten characters and
    three full stops, and a response of ten characters as it is, nothing
    added.  The two summaries are the same before the response, where
    they are the summary of the record cut at the heading of this
    response, and after it, where the text ends or goes on with a new
    line.  The count is in characters (code points), whatever their size
    in bytes. *)
Theorem truncation_boundary (status knowledge : value)
    (earlier later ms : list (str * str)) (agent_id body : str) (last : char) :
  status = VNone \/ (exists s, status = VStr s) ->
  length body = 10 ->
  exists head after,
    format_swarm_summary
      (Sections status (earlier ++ [(agent_id, [])]) [] knowledge) 10 =
      Ok head /\
    under_heading agent_id head /\
    ends_line after /\ (later = [] -> ms = [] -> after = []) /\
    format_swarm_summary
      (Sections status (earlier ++ (agent_id, body ++ [last]) :: later) ms
                knowledge) 10 =
      Ok (head ++ body ++ lit "..." ++ after) /\
    format_swarm_summary
      (Sections status (earlier ++ (agent_id, body) :: later) ms knowledge) 10 =
      Ok (head ++ body ++ after).
Proof.
  intros Hs Hl.
  destruct (@summary_lines_around status knowledge earlier 10 Hs)
    as (pre & Hpre & Spre & Hlines).
  destruct (@join_strings [LF] pre Spre) as [p Ep].
  destruct (Hlines later ms) as (post & Spost & Hpost & Hsum).
  destruct (Hlines [] []) as (post0 & _ & Hpost0 & Hsum0).
  specialize (Hpost0 eq_refl eq_refl). subst post0.
  destruct (@join_around pre post p agent_id Hpre Ep Spost)
    as (after & Hafter & Hempty & Hjoin).
  destruct (@join_around pre [] p agent_id Hpre Ep eq_refl)
    as (after0 & _ & Hempty0 & Hjoin0).
  specialize (Hempty0 eq_refl). subst after0.
  assert (Hover : shown_response 10 (body ++ [last]) = body ++ lit "...").
  { rewrite shown_response_over
      by (unfold len; rewrite length_app; cbn [length]; lia).
    change (Z.to_nat 10) with 10. rewrite <- Hl at 1.
    rewrite firstn_app, firstn_all, Nat.sub_diag. cbn [firstn].
    now rewrite app_nil_r. }
  assert (Hin : shown_response 10 body = body).
  { apply shown_response_within. unfold len. lia. }
  exists (p ++ [10; 10]%N ++ agent_id ++ lit ":" ++ [10%N]), after.
  unfold format_swarm_summary. rewrite Hsum0, !Hsum. cbn [fst snd].
  rewrite Hover, Hin, Hjoin0, !Hjoin.
  split; [now rewrite !app_nil_r|]. split; [now exists p|].
  split; [exact Hafter|]. split; [intros -> ->; now apply Hempty, Hpost|].
  split; [|reflexivity]. now rewrite <- !app_assoc.
Qed.

End Boundary.

(** Ten characters of thirty bytes are shown whole; an eleventh character
    is cut.  The record has a status, an earlier response and metrics. *)
Lemma truncation_boundary_witness :
  let body := repeat 0x4E2D%N 10 in
  length body = 10 /\ utf8_len body = 30 /\
  exists head after,
    under_heading (lit "agent_2") head /\ ends_line after /\
    format_swarm_summary
      (Sections (VStr (lit "Swarm Status: up"))
                ([(lit "agent_1", lit "hi")] ++
                 (lit "agent_2", body ++ [0x4E2D%N]) :: [])
                [(lit "agent_1", lit "t=1")] (VList [])) 10 =
      Ok (head ++ body ++ lit "..." ++ after) /\
    format_swarm_summary
      (Sections (VStr (lit "Swarm Status: up"))
                ([(lit "agent_1", lit "hi")] ++ (lit "agent_2", body) :: [])
                [(lit "agent_1", lit "t=1")] (VList [])) 10 =
      Ok (head ++ body ++ after).
Proof.
  split; [reflexivity|]. split; [reflexivity|].
  destruct (@truncation_boundary (VStr (lit "Swarm Status: up")) (VList [])
              [(lit "agent_1", lit "hi")] [] [(lit "agent_1", lit "t=1")]
              (lit "agent_2") (repeat 0x4E2D%N 10) 0x4E2D%N
              (or_intror (ex_intro _ (lit "Swarm Status: up") eq_refl)) eq_refl)
    as (head & after & _ & Hh & Ha & _ & H11 & H10).
  exists head, after. repeat split; assumption.
Defined.


(** ** The matcher *)

Section Matcher.

Lemma option_map_S_add (n : nat) (o : option nat) :
  option_map S (option_map (Nat.add n) o) = option_map (Nat.add (S n)) o.
Proof. now destruct o. Qed.

(** A pattern that starts with a literal word. *)
Lemma match_here_word (w : str) (re : regex) (s : str) :
  match_here (map Chr w ++ re) s =
  if startswith w s
  then option_map (Nat.add (length w)) (match_here re (skipn (length w) s))
  else None.
Proof.
  revert s; induction w as [|x w IH]; intros s; simpl.
  - now destruct (match_here re s).
  - destruct s as [|y s]; [reflexivity|].
    rewrite (N.eqb_sym x y). destruct (y =? x)%N; simpl; [|reflexivity].
    rewrite IH. destruct (startswith w s); [|reflexivity].
    apply option_map_S_add.
Qed.

(** A repetition with nothing after it takes the longest run. *)
Lemma star_alone (p : char -> bool) (s : str) :
  exists n, star p (fun _ => Some 0) s = Some n /\
            forallb p (firstn n s) = true.
Proof.
  induction s as [|c t [n [E F]]]; simpl.
  - exists 0. split; reflexivity.
  - destruct (p c) eqn:Pc.
    + rewrite E. exists (S n). split; [reflexivity|]. simpl. now rewrite Pc.
    + exists 0. split; reflexivity.
Qed.

(** A match is not longer than the text. *)
Lemma star_bound (p : char -> bool) (k : str -> option nat) :
  (forall s n, k s = Some n -> n <= length s) ->
  forall s n, star p k s = Some n -> n <= length s.
Proof.
  intros Hk s. induction s as [|c t IH]; intros n; simpl.
  - apply Hk.
  - destruct (p c); [|apply (Hk (c :: t))].
    destruct (star p k t) as [j|] eqn:Ej; [|apply (Hk (c :: t))].
    intros [= <-]. specialize (IH j eq_refl). lia.
Qed.

Lemma match_here_bound (re : regex) (s : str) (n : nat) :
  match_here re s = Some n -> n <= length s.
Proof.
  revert s n; induction re as [|a re IH]; intros s n; simpl.
  - intros [= <-]. lia.
  - destruct a as [c|p|p|p].
    + destruct s as [|x t]; [discriminate|].
      destruct (x =? c)%N; [|discriminate].
      destruct (match_here re t) as [j|] eqn:Ej; [|discriminate].
      intros [= <-]. apply IH in Ej. simpl. lia.
    + destruct s as [|x t]; [discriminate|].
      destruct (p x); [|discriminate].
      destruct (match_here re t) as [j|] eqn:Ej; [|discriminate].
      intros [= <-]. apply IH in Ej. simpl. lia.
    + apply star_bound. exact IH.
    + destruct s as [|x t]; [discriminate|].
      destruct (p x); [|discriminate].
      destruct (star p (match_here re) t) as [j|] eqn:Ej; [|discriminate].
      intros [= <-]. apply (@star_bound p (match_here re) IH) in Ej. simpl. lia.
Qed.

Lemma search_some (re : regex) (s pre m post : str) :
  search re s = Some (pre, m, post) ->
  s = pre ++ m ++ post /\
  exists n, match_here re (m ++ post) = Some n /\ m = firstn n (m ++ post).
Proof.
  revert pre; induction s as [|c t IH]; intros pre; simpl.
  - destruct (match_here re []) as [n|] eqn:E; [|discriminate].
    intros [= <- <- <-]. rewrite firstn_skipn. simpl. split; [reflexivity|].
    exists n. now rewrite firstn_nil.
  - destruct (match_here re (c :: t)) as [n|] eqn:E.
    + intros [= <- <- <-]. rewrite firstn_skipn. split; [reflexivity|].
      exists n. split; [exact E|reflexivity].
    + destruct (search re t) as [[[pre' m'] post']|]; [|discriminate].
      intros [= <- <- <-]. destruct (IH pre' eq_refl) as [-> H].
      split; [reflexivity|exact H].
Qed.

Lemma search_none (re : regex) (pre suf : str) :
  search re (pre ++ suf) = None -> match_here re suf = None.
Proof.
  induction pre as [|c pre IH]; simpl.
  - destruct suf as [|c t]; simpl.
    + now destruct (match_here re []).
    + destruct (match_here re (c :: t)); [discriminate|reflexivity].
  - destruct (match_here re (c :: pre ++ suf)); [discriminate|].
    destruct (search re (pre ++ suf)) as [[[? ?] ?]|]; [discriminate|].
    intros _. now apply IH.
Qed.

Lemma found_suffix (re : regex) (s : str) :
  found re s = true ->
  exists pre suf n, s = pre ++ suf /\ match_here re suf = Some n.
Proof.
  unfold found. destruct (search re s) as [[[pre m] post]|] eqn:E; [|discriminate].
  intros _. apply search_some in E as [-> [n [Hn _]]].
  exists pre, (m ++ post), n. split; [reflexivity|exact Hn].
Qed.

Lemma found_of_suffix (re : regex) (pre suf : str) (n : nat) :
  match_here re suf = Some n -> found re (pre ++ suf) = true.
Proof.
  intros H. unfold found.
  destruct (search re (pre ++ suf)) eqn:E; [reflexivity|].
  apply search_none in E. congruence.
Qed.

End Matcher.

(** ** Content extractor: agent identifiers *)

Section AgentIds.

Lemma agent_re_word : agent_re = map Chr AGENT_WORD ++ [Plus digit].
Proof. reflexivity. Qed.

(** Where a pattern [Agent agent_\d+ ...] matches, the literal is followed
    by a digit. *)
Lemma agent_word_digit (rest : regex) (suf : str) (n : nat) :
  match_here (map Chr AGENT_WORD ++ Plus digit :: rest) suf = Some n ->
  exists d t, digit d = true /\ suf = AGENT_WORD ++ d :: t.
Proof.
  rewrite match_here_word.
  destruct (startswith AGENT_WORD suf) eqn:W; [|discriminate].
  apply startswith_split in W. revert W.
  generalize (skipn (length AGENT_WORD) suf). intros [|d t] W; [discriminate|].
  cbn [match_here]. destruct (digit d) eqn:D; [|discriminate].
  intros _. now exists d, t.
Qed.

Lemma agent_re_match (suf : str) (n : nat) :
  match_here agent_re suf = Some n ->
  exists d ds, digit d = true /\ forallb digit ds = true /\
               firstn n suf = AGENT_WORD ++ d :: ds.
Proof.
  intros H. pose proof H as H'. rewrite agent_re_word in H'.
  apply agent_word_digit in H' as (d & t & D & ->).
  rewrite agent_re_word, match_here_word, startswith_app in H.
  rewrite skipn_app, Nat.sub_diag, skipn_all in H. cbn [app skipn] in H.
  cbn [match_here] in H. rewrite D in H.
  destruct (star_alone digit t) as [k [E F]].
  change (match_here []) with (fun _ : str => Some 0) in H. rewrite E in H.
  cbn [option_map] in H. injection H as <-.
  exists d, (firstn k t). split; [exact D|]. split; [exact F|].
  rewrite firstn_app, firstn_all2 by (simpl; lia).
  replace (length AGENT_WORD + S k - length AGENT_WORD) with (S k) by lia.
  reflexivity.
Qed.

(** A text that the response pattern or the metrics pattern matches has an
    agent identifier of the form [agent_<digits>]. *)
Lemma agent_id_of_form (rest : regex) (text : str) :
  found (map Chr AGENT_WORD ++ Plus digit :: rest) text = true ->
  agent_id_form (agent_id_of text).
Proof.
  intros H. apply found_suffix in H as (pre & suf & n & -> & Hm).
  apply agent_word_digit in Hm as (d & t & D & ->).
  assert (Hf : found agent_re (pre ++ AGENT_WORD ++ d :: t) = true).
  { destruct (star_alone digit t) as [k [E _]].
    apply found_of_suffix with (n := length AGENT_WORD + S k).
    rewrite agent_re_word, match_here_word, startswith_app.
    rewrite skipn_app, Nat.sub_diag, skipn_all. cbn [app skipn match_here].
    rewrite D. change (match_here []) with (fun _ : str => Some 0).
    now rewrite E. }
  unfold agent_id_of. unfold found in Hf.
  destruct (search agent_re (pre ++ AGENT_WORD ++ d :: t))
    as [[[pre' m] post]|] eqn:E; [|discriminate].
  apply search_some in E as [_ [k [Hk Hmk]]].
  apply agent_re_match in Hk as (d' & ds & D' & F & Hfirst).
  rewrite <- Hmk in Hfirst. subst m.
  exists d', ds. repeat split; assumption.
Qed.

Lemma agent_id_form_not_unknown (a : str) :
  agent_id_form a -> a <> lit "unknown".
Proof. intros (d & ds & _ & _ & ->). discriminate. Qed.

End AgentIds.

Section AgentIdsExtracted.

Variable json_loads : str -> result value.

Lemma extract_text_ids (cs : sections) (text : str) :
  ids_formed cs -> ids_formed (extract_text json_loads cs text).
Proof.
  intros [Hr Hm]. unfold extract_text.
  destruct (found response_re text) eqn:R.
  { split; [|exact Hm]. cbn [agent_responses]. apply Forall_app. split; [exact Hr|].
    constructor; [|constructor]. cbn [fst].
    exact (@agent_id_of_form (Star dot :: lits "Response:") text R). }
  destruct (found metrics_re text) eqn:M.
  { split; [exact Hr|]. cbn [metrics]. apply Forall_app. split; [exact Hm|].
    constructor; [|constructor]. cbn [fst].
    exact (@agent_id_of_form (Star dot :: lits "Metrics:") text M). }
  destruct (contains _ text); [|now split].
  destruct (knowledge_body text) as [body|]; [|now split].
  destruct (json_loads body) as [kd|]; [|now split]. cbn [bind].
  destruct (clean_knowledge kd); now split.
Qed.

Lemma extract_item_ids (cs cs' : sections) (item : value) :
  ids_formed cs -> extract_item json_loads cs item = Ok cs' -> ids_formed cs'.
Proof.
  intros H. unfold extract_item.
  destruct item as [| | | | |l|d]; try (intros [= <-]; exact H).
  destruct (dict_get TEXT d) as [text|]; [|intros [= <-]; exact H].
  destruct (py_in (lit "Swarm Status") text) as [[|]|]; cbn [bind];
    [intros [= <-]; exact H| |discriminate].
  destruct text; try discriminate.
  intros [= <-]. now apply extract_text_ids.
Qed.

Lemma extract_items_ids (json_data : list value) (cs c : sections) :
  ids_formed cs -> extract_items json_loads cs json_data = Ok c -> ids_formed c.
Proof.
  revert cs; induction json_data as [|item rest IH]; intros cs H; simpl.
  - intros [= <-]. exact H.
  - destruct (extract_item json_loads cs item) as [cs'|] eqn:E; [|discriminate].
    cbn [bind]. apply IH. exact (extract_item_ids _ H E).
Qed.

(** C10: every entry the extractor records as a response or as metrics has
    an agent identifier of the form [agent_<digits>]; the fallback
    [unknown] is never recorded. *)
Theorem agent_ids_well_formed (json_data : list value) (c : sections)
                              (agent_id body : str) :
  extract_swarm_content json_loads json_data = Ok c ->
  In (agent_id, body) (agent_responses c) \/ In (agent_id, body) (metrics c) ->
  agent_id_form agent_id /\ agent_id <> lit "unknown".
Proof.
  intros E Hin.
  assert (Hc : ids_formed c).
  { apply (@extract_items_ids json_data content_sections c); [|exact E].
    split; constructor. }
  assert (Hf : agent_id_form agent_id).
  { destruct Hc as [Hr Hm]. rewrite Forall_forall in Hr, Hm.
    destruct Hin as [Hin|Hin]; [apply (Hr _ Hin)|apply (Hm _ Hin)]. }
  split; [exact Hf|]. now apply agent_id_form_not_unknown.
Qed.

End AgentIdsExtracted.

Lemma agent_ids_well_formed_witness :
  agent_id_form (lit "agent_42") /\ lit "agent_42" <> lit "unknown".
Proof.
  exact (@agent_ids_well_formed Json.loads
           [fragment (lit "Agent agent_42 Metrics: ok")]
           (Sections VNone [] [(lit "agent_42", lit "ok")] (VList []))
           (lit "agent_42") (lit "ok") eq_refl (or_intror (or_introl eq_refl))).
Defined.

(** ** Content extractor: where the knowledge payload begins *)

Section KnowledgeBody.

Lemma find_from_range (i : Z) (sub s : str) :
  find_from i sub s = (-1)%Z \/
  (i <= find_from i sub s <= i + len s)%Z.
Proof.
  revert i; induction s as [|c t IH]; intros i; simpl.
  - destruct (startswith sub []); [right; unfold len; simpl; lia|now left].
  - destruct (startswith sub (c :: t)).
    + right. unfold len. simpl length. lia.
    + destruct (IH (i + 1)%Z) as [H|H]; [now left|right].
      unfold len in *. simpl length. lia.
Qed.

Lemma contains_find_from (i : Z) (sub s : str) :
  (0 <= i)%Z -> contains sub s = true -> find_from i sub s <> (-1)%Z.
Proof.
  revert i; induction s as [|c t IH]; intros i Hi; simpl.
  - rewrite orb_false_r. intros ->. lia.
  - destruct (startswith sub (c :: t)); simpl; [lia|].
    apply IH. lia.
Qed.

(** Searching for one character. *)
Lemma find_from_char (i : Z) (c : char) (s : str) :
  (~ In c s /\ find_from i [c] s = (-1)%Z) \/
  (exists pre post, s = pre ++ c :: post /\ ~ In c pre /\
                    find_from i [c] s = (i + len pre)%Z).
Proof.
  revert i; induction s as [|x t IH]; intros i.
  - left. split; [easy|reflexivity].
  - cbn [find_from startswith]. rewrite andb_true_r.
    destruct (c =? x)%N eqn:E.
    + apply N.eqb_eq in E. subst x. right. exists [], t.
      split; [reflexivity|]. split; [easy|]. unfold len. simpl. lia.
    + apply N.eqb_neq in E.
      destruct (IH (i + 1)%Z) as [[Hn Hf]|(pre & post & -> & Hn & Hf)].
      * left. split; [|exact Hf]. intros [H|H]; [congruence|contradiction].
      * right. exists (x :: pre), post. split; [reflexivity|].
        split; [intros [H|H]; [congruence|contradiction]|].
        rewrite Hf. unfold len. simpl length. lia.
Qed.

Lemma find_from_char_skip (i : Z) (c : char) (a b : str) :
  ~ In c a -> find_from i [c] (a ++ b) = find_from (i + len a) [c] b.
Proof.
  revert i; induction a as [|x a IH]; intros i Hn.
  - unfold len. simpl. now rewrite Z.add_0_r.
  - cbn [app find_from startswith]. rewrite andb_true_r.
    destruct (c =? x)%N eqn:E.
    + apply N.eqb_eq in E. subst. exfalso. apply Hn. now left.
    + rewrite IH by (intros H; apply Hn; now right).
      f_equal. unfold len. simpl length. lia.
Qed.

Lemma find_from_char_rel (c : char) (s : str) (i : Z) :
  (find_from i [c] s = (-1)%Z /\ find [c] s = (-1)%Z) \/
  ((0 <= find [c] s)%Z /\ find_from i [c] s = (i + find [c] s)%Z).
Proof.
  unfold find. revert i; induction s as [|x t IH]; intros i.
  - left. split; reflexivity.
  - cbn [find_from startswith]. rewrite andb_true_r.
    destruct (c =? x)%N; [right; split; lia|].
    destruct (IH (i + 1)%Z) as [[H1 H0]|[H0 H1]];
      destruct (IH (0 + 1)%Z) as [[G1 G0]|[G0 G1]];
      first [ left; split; assumption
            | right; rewrite H1, G1; split; lia
            | exfalso; lia ].
Qed.

Lemma find_from_char_shift (i : Z) (c : char) (s : str) :
  find_from i [c] s =
  if (find [c] s =? -1)%Z then (-1)%Z else (i + find [c] s)%Z.
Proof.
  destruct (find_from_char_rel c s i) as [[H H0]|[H0 H]]; rewrite H.
  - now rewrite H0.
  - destruct (find [c] s =? -1)%Z eqn:E; [|reflexivity].
    apply Z.eqb_eq in E. lia.
Qed.

Lemma slice_from_skipn (s : str) (k : Z) :
  (0 <= k <= len s)%Z -> slice_from s k = skipn (Z.to_nat k) s.
Proof.
  intros H. unfold slice_from, clamp.
  destruct (k <? 0)%Z eqn:E; [apply Z.ltb_lt in E; lia|].
  now rewrite Z.min_r, Z.max_r by lia.
Qed.

(** C5 (amended): the payload that is parsed begins at the first [[] of
    the fragment's text, wherever the marker is: nothing before it is a
    [[].  It is the first [[] at or after the marker when no [[] comes
    before the marker. *)
Theorem knowledge_body_first_bracket (text body : str) :
  knowledge_body text = Some body ->
  (exists pre, text = pre ++ body /\ ~ In OPEN pre /\
               startswith [OPEN] body = true) /\
  (contains MARKER text = true ->
   ~ In OPEN (slice_to text (find MARKER text)) ->
   body = slice_from text (bracket_after_marker text)).
Proof.
  unfold knowledge_body. change (lit "[") with [OPEN].
  destruct (find [OPEN] text =? -1)%Z eqn:E; [discriminate|].
  apply Z.eqb_neq in E. intros [= <-]. split.
  - unfold find in *.
    destruct (find_from_char 0 OPEN text) as [[_ H]|(pre & post & -> & Hn & H)];
      [congruence|].
    exists pre. rewrite H. rewrite slice_from_skipn.
    + rewrite Z.add_0_l. unfold len. rewrite Nat2Z.id.
      rewrite skipn_app, Nat.sub_diag, skipn_all. cbn [app skipn].
      split; [reflexivity|]. split; [exact Hn|].
      cbn [startswith]. now rewrite N.eqb_refl.
    + unfold len. rewrite length_app. lia.
  - intros Hc Hn. f_equal. unfold bracket_after_marker.
    assert (Hm : find MARKER text <> (-1)%Z)
      by (apply contains_find_from; [lia|exact Hc]).
    destruct (find_from_range 0 MARKER text) as [R|R]; [contradiction|].
    fold (find MARKER text) in R.
    rewrite slice_to_firstn in Hn by lia. rewrite slice_from_skipn by lia.
    set (m := Z.to_nat (find MARKER text)) in *.
    rewrite <- (firstn_skipn m text) at 1.
    unfold find at 1. rewrite find_from_char_skip by exact Hn.
    rewrite find_from_char_shift.
    replace (0 + len (firstn m text))%Z with (find MARKER text); [reflexivity|].
    unfold len. rewrite length_firstn, Nat.min_l by (unfold len in R; lia).
    subst m. lia.
Qed.

Lemma knowledge_body_first_bracket_witness :
  let text := lit "Collective Knowledge: [1]" in
  let body := lit "[1]" in
  (exists pre, text = pre ++ body /\ ~ In OPEN pre /\
               startswith [OPEN] body = true) /\
  (contains MARKER text = true ->
   ~ In OPEN (slice_to text (find MARKER text)) ->
   body = slice_from text (bracket_after_marker text)).
Proof.
  exact (@knowledge_body_first_bracket (lit "Collective Knowledge: [1]")
           (lit "[1]") eq_refl).
Defined.

(** A fragment that has a [[] before the marker: it is tested for
    knowledge, and the text handed to [json.loads] is the whole text, not
    the array after the marker; the array is lost. *)
Lemma knowledge_body_before_marker :
  let text := lit "[note] Collective Knowledge: [1]" in
  let after_marker := slice_from text (bracket_after_marker text) in
  contains (lit "Swarm Status") text = false /\
  found response_re text = false /\
  found metrics_re text = false /\
  contains MARKER text = true /\
  after_marker = lit "[1]" /\
  knowledge_body text = Some text /\
  knowledge_body text <> Some after_marker /\
  Json.loads after_marker = Ok (VList [VInt 1]) /\
  extract_swarm_content Json.loads [fragment text] = Ok content_sections.
Proof. vm_compute. repeat split; discriminate. Qed.

End KnowledgeBody.

(** ** Deleting the matches of a pattern *)

Section Deletion.

Variable re : regex.

Lemma sub_nil : sub re [] = [].
Proof. now simp sub. Qed.

Lemma sub_cons (c : char) (t : str) :
  sub re (c :: t) =
  match match_here re (c :: t) with
  | Some (S k) => sub re (skipn k t)
  | _ => c :: sub re t
  end.
Proof.
  simp sub. destruct (match_here re (c :: t)) as [[|k]|]; reflexivity.
Qed.

(** Induction along the scan of [sub]. *)
Lemma sub_scan_ind (P : str -> str -> Prop) :
  P [] [] ->
  (forall c t k, match_here re (c :: t) = Some (S k) ->
                 P (skipn k t) (sub re (skipn k t)) ->
                 P (c :: t) (sub re (skipn k t))) ->
  (forall c t, match_here re (c :: t) = None \/ match_here re (c :: t) = Some 0 ->
               P t (sub re t) -> P (c :: t) (c :: sub re t)) ->
  forall s, P s (sub re s).
Proof.
  intros Hnil Hcut Hkeep s.
  remember (length s) as n eqn:Hn. revert s Hn.
  induction n as [n IH] using lt_wf_ind. intros [|c t] Hn.
  - now rewrite sub_nil.
  - rewrite sub_cons. simpl in Hn.
    destruct (match_here re (c :: t)) as [[|k]|] eqn:E.
    + apply Hkeep; [now right|]. apply (IH (length t)); [lia|reflexivity].
    + apply Hcut; [exact E|].
      apply (IH (length (skipn k t))); [|reflexivity].
      pose proof (length_skipn k t). lia.
    + apply Hkeep; [now left|]. apply (IH (length t)); [lia|reflexivity].
Qed.

Lemma sub_strips (s : str) : strips re s (sub re s).
Proof.
  apply sub_scan_ind with (P := strips re).
  - constructor.
  - intros c t k E H. now apply strips_cut with (n := k).
  - intros c t _ H. now constructor.
Qed.

Lemma sub_length (s : str) : length (sub re s) <= length s.
Proof.
  apply sub_scan_ind with (P := fun s o => length o <= length s); simpl.
  - lia.
  - intros c t k _ H. pose proof (length_skipn k t). lia.
  - intros c t _ H. lia.
Qed.

Lemma found_cons_false (c : char) (t : str) :
  found re (c :: t) = false ->
  match_here re (c :: t) = None /\ found re t = false.
Proof.
  unfold found. simpl. destruct (match_here re (c :: t)); [discriminate|].
  destruct (search re t) as [[[? ?] ?]|]; [discriminate|]. now split.
Qed.

Lemma found_cons_miss (c : char) (t : str) :
  match_here re (c :: t) = None -> found re (c :: t) = found re t.
Proof.
  intros H. unfold found. simpl. rewrite H.
  now destruct (search re t) as [[[? ?] ?]|].
Qed.

(** Without a match, [sub] changes nothing. *)
Lemma sub_noop (s : str) : found re s = false -> sub re s = s.
Proof.
  apply sub_scan_ind with (P := fun s o => found re s = false -> o = s).
  - reflexivity.
  - intros c t k E _ H. apply found_cons_false in H as [H _]. congruence.
  - intros c t _ IH H. apply found_cons_false in H as [_ H]. now rewrite IH.
Qed.

(** With a match, [sub] shortens the text. *)
Lemma sub_shrinks (s : str) :
  nonempty_matches re -> found re s = true -> length (sub re s) < length s.
Proof.
  intros Hne.
  apply sub_scan_ind
    with (P := fun s o => found re s = true -> length o < length s).
  - unfold found. simpl. destruct (match_here re []) as [n|] eqn:E;
      [|discriminate].
    pose proof (match_here_bound _ _ E) as B. simpl in B.
    assert (n = 0) by lia. subst n. now apply Hne in E.
  - intros c t k _ _ _. pose proof (sub_length (skipn k t)).
    pose proof (length_skipn k t). simpl. lia.
  - intros c t [E|E] IH H; [|now apply Hne in E].
    rewrite found_cons_miss in H by exact E. specialize (IH H). simpl. lia.
Qed.

(** ** Texts in which every [c0] starts a match *)

Variable c0 : char.

Lemma every_start_skipn (n : nat) (s : str) :
  every_start re c0 s = true -> every_start re c0 (skipn n s) = true.
Proof.
  revert s; induction n as [|n IH]; intros [|x t]; simpl; try easy.
  intros H. apply andb_true_iff in H as [_ H]. now apply IH.
Qed.

(** Then [sub] leaves no [c0]. *)
Lemma sub_every_start (s : str) :
  every_start re c0 s = true -> ~ In c0 (sub re s).
Proof.
  apply sub_scan_ind
    with (P := fun s o => every_start re c0 s = true -> ~ In c0 o).
  - intros _ [].
  - intros c t k _ IH H. apply IH.
    simpl in H. apply andb_true_iff in H as [_ H]. now apply every_start_skipn.
  - intros c t E IH H. simpl in H. apply andb_true_iff in H as [Hc Ht].
    intros [Hin|Hin]; [|now apply IH].
    subst c. rewrite N.eqb_refl in Hc. simpl in Hc.
    unfold starts_match in Hc. destruct E as [E|E]; rewrite E in Hc; discriminate.
Qed.

End Deletion.

(** ** Text cleaner *)

Section Cleaner.

Lemma box_chars_ok : forallb entry_ok box_chars = true.
Proof. reflexivity. Qed.

Lemma replace_chain (l : list (char * char)) (text : str) :
  fold_left (fun text kv => replace (fst kv) (snd kv) text) l text =
  map (fun c => fold_left (fun c kv => if (c =? fst kv)%N then snd kv else c) l c)
      text.
Proof.
  revert text; induction l as [|kv l IH]; intros text; simpl.
  - now rewrite map_id.
  - rewrite IH. unfold replace. now rewrite map_map.
Qed.

Lemma clean_str_map (s : str) :
  clean_str s = map box_ascii (sub ansi_escaped_re (sub ansi_re s)).
Proof. unfold clean_str. cbv zeta. apply replace_chain. Qed.

Lemma chain_miss (l : list (char * char)) (c : char) :
  existsb (fun kv => (c =? fst kv)%N) l = false ->
  fold_left (fun c kv => if (c =? fst kv)%N then snd kv else c) l c = c.
Proof.
  induction l as [|kv l IH]; cbn [fold_left existsb]; [reflexivity|].
  intros H. apply orb_false_iff in H as [H1 H2]. rewrite H1. now apply IH.
Qed.

Lemma ascii_line_not_key (l : list (char * char)) (v : char) :
  forallb entry_ok l = true -> ascii_line v = true ->
  existsb (fun kv => (v =? fst kv)%N) l = false.
Proof.
  intros Hl Hv. induction l as [|kv l IH]; cbn [existsb]; [reflexivity|].
  cbn [forallb] in Hl. apply andb_true_iff in Hl as [Hkv Hl].
  rewrite (IH Hl), orb_false_r.
  unfold entry_ok in Hkv. apply andb_true_iff in Hkv as [_ Hk].
  apply N.eqb_neq. intros ->. revert Hv Hk. clear.
  unfold ascii_line, box_drawing, chr. simpl N_of_ascii. intros Hv Hk.
  apply andb_true_iff in Hk as [Hk _]. apply N.leb_le in Hk.
  repeat (apply orb_true_iff in Hv as [Hv|Hv]); apply N.eqb_eq in Hv; lia.
Qed.

Lemma chain_cases (l : list (char * char)) (c : char) :
  forallb entry_ok l = true ->
  let r := fold_left (fun c kv => if (c =? fst kv)%N then snd kv else c) l c in
  (existsb (fun kv => (c =? fst kv)%N) l = false /\ r = c) \/
  (existsb (fun kv => (c =? fst kv)%N) l = true /\ ascii_line r = true).
Proof.
  revert c; induction l as [|kv l IH]; intros c Hl; cbn [fold_left existsb].
  - left. split; reflexivity.
  - cbn [forallb] in Hl. apply andb_true_iff in Hl as [Hkv Hl].
    destruct (c =? fst kv)%N eqn:E; cbn [orb].
    + right. split; [reflexivity|].
      unfold entry_ok in Hkv. apply andb_true_iff in Hkv as [Hv _].
      rewrite chain_miss; [exact Hv|]. now apply ascii_line_not_key.
    + apply IH. exact Hl.
Qed.

Lemma box_ascii_outside (c : char) : in_table c = false -> box_ascii c = c.
Proof. apply chain_miss. Qed.

Lemma box_ascii_cases (c : char) :
  (in_table c = false /\ box_ascii c = c) \/
  (in_table c = true /\ ascii_line (box_ascii c) = true).
Proof. apply chain_cases. exact box_chars_ok. Qed.

Lemma box_ascii_not_in_table (c : char) : in_table (box_ascii c) = false.
Proof.
  destruct (box_ascii_cases c) as [[H ->]|[_ H]]; [exact H|].
  apply ascii_line_not_key; [exact box_chars_ok|exact H].
Qed.

Lemma clean_str_no_table_glyph (s : str) :
  Forall (fun c => in_table c = false) (clean_str s).
Proof.
  rewrite clean_str_map. apply Forall_forall. intros c Hc.
  apply in_map_iff in Hc as (x & <- & _). apply box_ascii_not_in_table.
Qed.

Lemma map_box_ascii_fixed (t : str) :
  Forall (fun c => in_table c = false) t -> map box_ascii t = t.
Proof.
  induction 1 as [|c t Hc _ IH]; simpl; [reflexivity|].
  now rewrite IH, box_ascii_outside.
Qed.

Lemma head_no_empty_match (c : char) (re : regex) :
  nonempty_matches (Chr c :: re).
Proof.
  intros [|x t]; simpl; [discriminate|].
  destruct (x =? c)%N; [|discriminate]. now destruct (match_here re t).
Qed.

Lemma ansi_re_nonempty : nonempty_matches ansi_re.
Proof. apply head_no_empty_match. Qed.

Lemma ansi_escaped_re_nonempty : nonempty_matches ansi_escaped_re.
Proof. apply head_no_empty_match. Qed.

(** Cleaning a text a second time changes it exactly when the first pass
    left a sequence in it. *)
Lemma clean_str_fixed (t : str) :
  Forall (fun c => in_table c = false) t ->
  clean_str t = t <-> has_ansi t = false.
Proof.
  intros Ht. rewrite clean_str_map. unfold has_ansi. split.
  - intros H. apply (f_equal (@length char)) in H. rewrite length_map in H.
    pose proof (sub_length ansi_escaped_re (sub ansi_re t)) as L2.
    pose proof (sub_length ansi_re t) as L1.
    destruct (found ansi_re t) eqn:F1.
    { pose proof (sub_shrinks t ansi_re_nonempty F1). lia. }
    rewrite (sub_noop _ _ F1) in H.
    destruct (found ansi_escaped_re t) eqn:F2; [|reflexivity].
    pose proof (sub_shrinks t ansi_escaped_re_nonempty F2). lia.
  - intros H. apply orb_false_iff in H as [F1 F2].
    rewrite (sub_noop _ _ F1), (sub_noop _ _ F2).
    now apply map_box_ascii_fixed.
Qed.

(** One pass can leave a sequence behind: cutting the inner sequence joins
    [ESC [] and [m]; the second pass cuts the sequence so formed. *)
Lemma cleaning_twice_differs :
  let s := [ESC; chr "["; ESC; chr "["; chr "m"; chr "m"] in
  clean_str s = [ESC; chr "["; chr "m"] /\
  clean_str (clean_str s) = [] /\
  clean_str (clean_str s) <> clean_str s.
Proof. vm_compute. repeat split; discriminate. Qed.

(** C2 (amended): cleaning a cleaned string gives the same string exactly
    when the cleaned string holds no sequence [ESC [ ... m], raw or
    escaped; the box-drawing stage never changes a cleaned string. *)
Theorem clean_idempotent_iff (s : str) :
  clean_str (clean_str s) = clean_str s <-> has_ansi (clean_str s) = false.
Proof. apply clean_str_fixed, clean_str_no_table_glyph. Qed.

End Cleaner.

Import Sequences.

Section CleanerGuarantee.

Lemma sub_In (re : regex) (c : char) (s : str) : In c (sub re s) -> In c s.
Proof.
  apply sub_scan_ind with (P := fun s o => In c o -> In c s).
  - easy.
  - intros x t k _ IH H. right. apply IH in H.
    rewrite <- (firstn_skipn k t). apply in_or_app. now right.
  - intros x t _ IH [H|H]; [now left|right; now apply IH].
Qed.

(** A pattern that starts with a literal character is only found in a text
    that holds the character. *)
Lemma found_head (c : char) (re : regex) (s : str) :
  found (Chr c :: re) s = true -> In c s.
Proof.
  intros H. apply found_suffix in H as (pre & suf & n & -> & Hm).
  apply in_or_app. right. destruct suf as [|x t]; [discriminate|].
  simpl in Hm. destruct (x =? c)%N eqn:E; [|discriminate].
  apply N.eqb_eq in E. now left.
Qed.

Lemma map_box_ascii_In (c : char) (t : str) :
  ascii_line c = false -> In c (map box_ascii t) -> In c t.
Proof.
  intros Hc H. apply in_map_iff in H as (x & Hx & Hin).
  destruct (box_ascii_cases x) as [[_ E]|[_ E]]; congruence.
Qed.

Lemma clean_str_no_head (c : char) (re : regex) (mid : str) (s : str) :
  ascii_line c = false ->
  clean_str s = map box_ascii mid ->
  ~ In c mid ->
  found (Chr c :: re) (clean_str s) = false.
Proof.
  intros Hc E Hn. destruct (found (Chr c :: re) (clean_str s)) eqn:F; [|reflexivity].
  exfalso. apply found_head in F. rewrite E in F.
  apply Hn. now apply map_box_ascii_In.
Qed.

(** The cleaner leaves a sequence formed by its own cut, and the corner
    U+250C, which its table does not list. *)
Lemma cleaner_leaves_sequence_and_glyph :
  let s := [ESC; chr "["; ESC; chr "["; chr "m"; chr "m"; 0x250C%N] in
  clean_str s = [ESC; chr "["; chr "m"; 0x250C%N] /\
  found ansi_re (clean_str s) = true /\
  existsb box_drawing (clean_str s) = true /\
  has_sequence RAW (clean_str s) = true.
Proof. vm_compute. repeat split. Qed.

(** A text in which every [ESC] starts a sequence, and every backslash
    left by the first pass starts an escaped one, is cleaned for good by
    one pass. *)
Lemma clean_idempotent_well_formed (s : str) :
  every_start ansi_re ESC s = true ->
  every_start ansi_escaped_re Json.BACKSLASH (sub ansi_re s) = true ->
  clean_str (clean_str s) = clean_str s.
Proof.
  intros H1 H2. apply clean_str_fixed; [apply clean_str_no_table_glyph|].
  unfold has_ansi. apply orb_false_iff. split.
  - apply clean_str_no_head with (mid := sub ansi_escaped_re (sub ansi_re s));
      [reflexivity|apply clean_str_map|].
    intros Hin. apply sub_In in Hin. revert Hin. now apply sub_every_start.
  - apply (@clean_str_no_head Json.BACKSLASH _
             (sub ansi_escaped_re (sub ansi_re s)));
      [reflexivity|apply clean_str_map|].
    now apply sub_every_start.
Qed.

End CleanerGuarantee.

(** ** Text cleaner: sequences and glyphs *)

Section Reading.

Lemma read_params_lift (k : nat) (t : str) :
  read_params k t = lift k (read_params 0 t).
Proof.
  revert k; induction t as [|c t IH]; intros k; cbn [read_params].
  - cbn. f_equal. lia.
  - destruct (sgr_param c).
    + rewrite (IH (S k)), (IH 1). destruct (read_params 0 t); cbn; f_equal; lia.
    + destruct (c =? 109)%N; cbn; f_equal; lia.
Qed.

Lemma read_bracket_lift (k : nat) (t : str) :
  read_bracket k t = lift k (read_bracket 0 t).
Proof.
  destruct t as [|c t]; cbn [read_bracket].
  - cbn. f_equal. lia.
  - destruct (c =? 91)%N.
    + rewrite (read_params_lift (S k)), (read_params_lift 1).
      destruct (read_params 0 t); cbn; f_equal; lia.
    + cbn. f_equal. lia.
Qed.

Lemma read_intro_lift (intro : str) (k : nat) (t : str) :
  read_intro intro k t = lift k (read_intro intro 0 t).
Proof.
  revert k t; induction intro as [|x intro IH]; intros k t; cbn [read_intro].
  - apply read_bracket_lift.
  - destruct t as [|y t]; [cbn; f_equal; lia|].
    destruct (y =? x)%N; [|cbn; f_equal; lia].
    rewrite (IH (S k)), (IH 1). destruct (read_intro intro 0 t); cbn; f_equal; lia.
Qed.

Lemma read_cons (x : char) (intro : str) (y : char) (t : str) :
  read (x :: intro) (y :: t) =
  if (y =? x)%N then lift 1 (read intro t) else Stuck 0.
Proof.
  unfold read. cbn [read_intro]. destruct (y =? x)%N; [|reflexivity].
  apply read_intro_lift.
Qed.

Lemma read_nil_text (x : char) (intro : str) : read (x :: intro) [] = Stuck 0.
Proof. reflexivity. Qed.

(** A reading is within the text, and a sequence is not empty. *)
Lemma read_params_bound (t : str) :
  match read_params 0 t with
  | Sequence n => 0 < n <= length t
  | Stuck j => j <= length t
  end.
Proof.
  induction t as [|c t IH]; cbn [read_params length]; [lia|].
  destruct (sgr_param c).
  - rewrite (read_params_lift 1). destruct (read_params 0 t); cbn; lia.
  - destruct (c =? 109)%N; lia.
Qed.

Lemma read_bracket_bound (t : str) :
  match read_bracket 0 t with
  | Sequence n => 0 < n <= length t
  | Stuck j => j <= length t
  end.
Proof.
  destruct t as [|c t]; cbn [read_bracket length]; [lia|].
  destruct (c =? 91)%N; [|lia].
  rewrite (read_params_lift 1). pose proof (read_params_bound t) as H.
  destruct (read_params 0 t); cbn; lia.
Qed.

Lemma read_bound (intro t : str) :
  match read intro t with
  | Sequence n => 0 < n <= length t
  | Stuck j => j <= length t
  end.
Proof.
  revert t; induction intro as [|x intro IH]; intros t.
  - apply read_bracket_bound.
  - destruct t as [|y t]; [cbn; lia|]. rewrite read_cons.
    destruct (y =? x)%N; [|cbn; lia].
    specialize (IH t). destruct (read intro t); cbn in *; lia.
Qed.

Lemma sequence_len_pos (intro t : str) (n : nat) :
  sequence_len intro t = Some n -> 0 < n <= length t.
Proof.
  unfold sequence_len. pose proof (read_bound intro t) as H.
  destruct (read intro t); [|discriminate]. intros [= <-]. exact H.
Qed.

(** What stops a reading is its last character: the reading of a text
    that starts with the same characters, one more than were read, stops
    at the same place. *)
Lemma read_params_prefix (t : str) (j : nat) (z : str) :
  read_params 0 t = Stuck j -> j < length t ->
  read_params 0 (firstn (S j) t ++ z) = Stuck j.
Proof.
  revert j; induction t as [|c t IH]; intros j; cbn [length]; [lia|].
  cbn [read_params firstn app]. destruct (sgr_param c) eqn:Ep.
  - rewrite (read_params_lift 1).
    destruct (read_params 0 t) as [n|j'] eqn:E; cbn [lift]; [discriminate|].
    intros [= <-] Hl. cbn [Nat.add].
    rewrite (read_params_lift 1), (IH j' eq_refl) by lia. reflexivity.
  - destruct (c =? 109)%N; [discriminate|]. intros [= <-] _. reflexivity.
Qed.

Lemma read_bracket_prefix (t : str) (j : nat) (z : str) :
  read_bracket 0 t = Stuck j -> j < length t ->
  read_bracket 0 (firstn (S j) t ++ z) = Stuck j.
Proof.
  destruct t as [|c t]; cbn [length]; [lia|].
  cbn [read_bracket firstn app]. destruct (c =? 91)%N.
  - rewrite (read_params_lift 1).
    destruct (read_params 0 t) as [n|j'] eqn:E; cbn [lift]; [discriminate|].
    intros [= <-] Hl. cbn [Nat.add].
    rewrite (read_params_lift 1), (@read_params_prefix _ _ _ E) by lia. reflexivity.
  - intros [= <-] _. reflexivity.
Qed.

Lemma read_prefix (intro t : str) (j : nat) (z : str) :
  read intro t = Stuck j -> j < length t ->
  read intro (firstn (S j) t ++ z) = Stuck j.
Proof.
  revert t j; induction intro as [|x intro IH]; intros t j.
  - apply read_bracket_prefix.
  - destruct t as [|y t]; cbn [length]; [lia|].
    cbn [firstn app]. rewrite !read_cons. destruct (y =? x)%N.
    + destruct (read intro t) as [n|j'] eqn:E; cbn [lift]; [discriminate|].
      intros [= <-] Hl. cbn [Nat.add]. rewrite (@IH _ _ E) by lia. reflexivity.
    + intros [= <-] _. reflexivity.
Qed.

Lemma read_params_read (t : str) (j : nat) :
  read_params 0 t = Stuck j -> Forall (fun c => sgr_param c = true) (firstn j t).
Proof.
  revert j; induction t as [|c t IH]; intros j; cbn [read_params].
  - intros [= <-]. constructor.
  - destruct (sgr_param c) eqn:Ep.
    + rewrite (read_params_lift 1).
      destruct (read_params 0 t) as [n|j'] eqn:E; cbn [lift]; [discriminate|].
      intros [= <-]. cbn [Nat.add firstn]. constructor; [exact Ep|now apply IH].
    + destruct (c =? 109)%N; [discriminate|]. intros [= <-]. constructor.
Qed.

Lemma read_bracket_read (t : str) (j : nat) :
  read_bracket 0 t = Stuck j -> Forall (goes_on []) (firstn j t).
Proof.
  destruct t as [|c t]; cbn [read_bracket].
  - intros [= <-]. constructor.
  - destruct (c =? 91)%N eqn:Ec.
    + rewrite (read_params_lift 1).
      destruct (read_params 0 t) as [n|j'] eqn:E; cbn [lift]; [discriminate|].
      intros [= <-]. cbn [Nat.add firstn]. constructor.
      * right; left. now apply N.eqb_eq.
      * eapply Forall_impl; [|exact (read_params_read _ E)].
        intros a Ha. right; right. exact Ha.
    + intros [= <-]. constructor.
Qed.

Lemma read_read (intro t : str) (j : nat) :
  read intro t = Stuck j -> Forall (goes_on intro) (firstn j t).
Proof.
  revert t j; induction intro as [|x intro IH]; intros t j.
  - apply read_bracket_read.
  - destruct t as [|y t]; [intros [= <-]; constructor|].
    rewrite read_cons. destruct (y =? x)%N eqn:Ey.
    + destruct (read intro t) as [n|j'] eqn:E; cbn [lift]; [discriminate|].
      intros [= <-]. cbn [Nat.add firstn]. constructor.
      * left. left. symmetry. now apply N.eqb_eq.
      * eapply Forall_impl; [|exact (IH _ _ E)].
        intros a [Ha|Ha]; [left; now right|right; exact Ha].
    + intros [= <-]. constructor.
Qed.

End Reading.

Section Bridge.

Lemma ansi_param_sgr (c : char) : ansi_param c = sgr_param c.
Proof. reflexivity. Qed.

Lemma whole_lift1 (r : reading) : whole (lift 1 r) = option_map S (whole r).
Proof. destruct r; reflexivity. Qed.

Lemma star_params (t : str) :
  star ansi_param (match_here [Chr 109%N]) t = whole (read_params 0 t).
Proof.
  induction t as [|c t IH]; [reflexivity|].
  cbn [star read_params]. rewrite ansi_param_sgr.
  destruct (sgr_param c) eqn:Ep.
  - rewrite IH, (read_params_lift 1), whole_lift1.
    destruct (whole (read_params 0 t)); [reflexivity|].
    cbn [option_map match_here].
    destruct (c =? 109)%N eqn:Ec; [|reflexivity].
    apply N.eqb_eq in Ec. subst c. discriminate.
  - cbn [match_here]. destruct (c =? 109)%N; reflexivity.
Qed.

Lemma pattern_reads (intro t : str) :
  match_here (map Chr intro ++ [Chr 91%N; Star ansi_param; Chr 109%N]) t =
  sequence_len intro t.
Proof.
  unfold sequence_len.
  revert t; induction intro as [|x intro IH]; intros [|y t]; try reflexivity.
  - cbn [map app]. unfold read. cbn [read_intro read_bracket].
    change (match_here [Chr 91%N; Star ansi_param; Chr 109%N] (y :: t))
      with (if (y =? 91)%N
            then option_map S (star ansi_param (match_here [Chr 109%N]) t)
            else None).
    destruct (y =? 91)%N; [|reflexivity].
    now rewrite star_params, (read_params_lift 1), whole_lift1.
  - rewrite read_cons. cbn [map app].
    change (match_here (Chr x :: map Chr intro ++
                        [Chr 91%N; Star ansi_param; Chr 109%N]) (y :: t))
      with (if (y =? x)%N
            then option_map S
                   (match_here (map Chr intro ++
                                [Chr 91%N; Star ansi_param; Chr 109%N]) t)
            else None).
    destruct (y =? x)%N; [|reflexivity].
    now rewrite IH, whole_lift1.
Qed.

Lemma ansi_re_reads (t : str) : match_here ansi_re t = sequence_len RAW t.
Proof. exact (pattern_reads RAW t). Qed.

Lemma ansi_escaped_re_reads (t : str) :
  match_here ansi_escaped_re t = sequence_len ESCAPED t.
Proof. exact (pattern_reads ESCAPED t). Qed.

End Bridge.

Section Cutting.

Variable intro : str.
Variable re : regex.
Hypothesis re_reads : forall t, match_here re t = sequence_len intro t.

(** One pass of [re.sub] leaves out every sequence of its text. *)
Lemma sub_cut_all (t : str) : cut_all intro t (sub re t).
Proof.
  apply sub_scan_ind with (P := cut_all intro).
  - constructor.
  - intros c u k Hm IH. rewrite re_reads in Hm.
    apply cut_all_cut with (n := S k); [exact Hm|exact IH].
  - intros c u Hm IH. rewrite re_reads in Hm.
    destruct Hm as [Hm|Hm]; [now constructor|].
    apply sequence_len_pos in Hm. lia.
Qed.

Lemma sub_keeps (c : char) (t : str) :
  sequence_len intro (c :: t) = None -> sub re (c :: t) = c :: sub re t.
Proof. intros H. rewrite sub_cons, re_reads, H. reflexivity. Qed.

End Cutting.

Lemma firstn_next {A} (j : nat) (t : list A) (y : A) (u : list A) :
  skipn j t = y :: u -> firstn (S j) t = firstn j t ++ [y].
Proof.
  revert t; induction j as [|j IH]; intros [|x t] H; try discriminate.
  - cbn in H. injection H as -> ->. reflexivity.
  - cbn [skipn] in H. cbn [firstn app]. f_equal. now apply IH.
Qed.

Section Joining.

(** The sequences that are looked for have the introducer [hw :: w]; the
    pass cuts the sequences with the introducer [hc :: cut], and [hc]
    does not go on a sequence of the first kind. *)
Variables (hw : char) (w : str) (hc : char) (cut : str).
Variable re : regex.
Hypothesis re_reads : forall t, match_here re t = sequence_len (hc :: cut) t.
Hypothesis apart : forall c, goes_on w c -> c <> hc.

Lemma sequence_len_miss (c : char) (t : str) :
  c <> hc -> sequence_len (hc :: cut) (c :: t) = None.
Proof.
  intros H. unfold sequence_len. rewrite read_cons.
  destruct (c =? hc)%N eqn:E; [|reflexivity].
  apply N.eqb_eq in E. contradiction.
Qed.

Lemma sub_passes (x rest : str) :
  Forall (fun c => c <> hc) x -> sub re (x ++ rest) = x ++ sub re rest.
Proof.
  induction 1 as [|c x Hc _ IH]; [reflexivity|]. cbn [app].
  rewrite (@sub_keeps _ _ re_reads) by (now apply sequence_len_miss).
  now rewrite IH.
Qed.

(** Where the pass keeps a character at which no sequence starts, and no
    sequence that it cuts comes directly after the unfinished sequence
    there, no sequence starts at that character in the result. *)
Lemma kept_start (c : char) (t : str) :
  sequence_len (hc :: cut) (c :: t) = None ->
  sequence_len (hw :: w) (c :: t) = None ->
  joins_here (hw :: w) (hc :: cut) (c :: t) = false ->
  sequence_len (hw :: w) (c :: sub re t) = None.
Proof.
  intros Hkeep Hnone Hjoin. unfold sequence_len in Hnone.
  destruct (read (hw :: w) (c :: t)) as [n|j] eqn:Er; [discriminate|]. clear Hnone.
  destruct j as [|j].
  - (* the first character is not the introducer's *)
    rewrite read_cons in Er. unfold sequence_len. rewrite read_cons.
    destruct (c =? hw)%N; [|reflexivity].
    destruct (read w t); discriminate.
  - unfold joins_here in Hjoin. rewrite Er in Hjoin.
    assert (Hcut : sequence_len (hc :: cut) (skipn (S j) (c :: t)) = None).
    { destruct (sequence_len (hc :: cut) (skipn (S j) (c :: t)));
        [discriminate|reflexivity]. }
    clear Hjoin. cbn [skipn] in Hcut.
    pose proof (read_read _ _ Er) as Hread. cbn [firstn] in Hread.
    assert (Hrest : Forall (fun a => a <> hc) (firstn j t)).
    { rewrite read_cons in Er. destruct (c =? hw)%N; [|discriminate].
      destruct (read w t) as [n|j'] eqn:Ew; cbn [lift] in Er; [discriminate|].
      injection Er as Ej. cbn [Nat.add] in Ej. subst j'.
      eapply Forall_impl; [|exact (read_read _ _ Ew)].
      intros a Ha. now apply apart. }
    assert (Hsub : sub re t = firstn j t ++ sub re (skipn j t)).
    { rewrite <- (firstn_skipn j t) at 1. now apply sub_passes. }
    destruct (skipn j t) as [|y u] eqn:Es.
    + (* the text ends with the unfinished sequence *)
      rewrite Hsub, sub_nil, app_nil_r.
      assert (Hall : firstn j t = t).
      { rewrite <- (firstn_skipn j t) at 2. now rewrite Es, app_nil_r. }
      rewrite Hall. unfold sequence_len. now rewrite Er.
    + rewrite (@sub_keeps _ _ re_reads) in Hsub by exact Hcut.
      assert (Hfirst : c :: sub re t = firstn (S (S j)) (c :: t) ++ sub re u).
      { rewrite Hsub.
        change (firstn (S (S j)) (c :: t)) with (c :: firstn (S j) t).
        rewrite (firstn_next _ _ Es). cbn [app]. f_equal.
        rewrite <- app_assoc. reflexivity. }
      rewrite Hfirst. unfold sequence_len.
      rewrite (@read_prefix (hw :: w) (c :: t) (S j) (sub re u) Er); [reflexivity|].
      cbn [length].
      assert (length (skipn j t) = length t - j) by apply length_skipn.
      rewrite Es in H. cbn [length] in H. lia.
Qed.

Lemma joins_skipn (a b t : str) (n : nat) :
  joins a b t = false -> joins a b (skipn n t) = false.
Proof.
  revert t; induction n as [|n IH]; intros t H; [exact H|].
  destruct t as [|c t]; [reflexivity|]. cbn [skipn]. apply IH.
  cbn [joins] in H. now apply orb_false_iff in H.
Qed.

(** After the pass no sequence is left, when every sequence of the text
    was one that the pass cuts and none of those came directly after an
    unfinished sequence. *)
Lemma sub_no_join (t : str) :
  joins (hw :: w) (hc :: cut) t = false ->
  (forall n, sequence_len (hw :: w) (skipn n t) <> None ->
             sequence_len (hc :: cut) (skipn n t) <> None) ->
  has_sequence (hw :: w) (sub re t) = false.
Proof.
  apply sub_scan_ind with
    (re := re)
    (P := fun t o =>
       joins (hw :: w) (hc :: cut) t = false ->
       (forall n, sequence_len (hw :: w) (skipn n t) <> None ->
                  sequence_len (hc :: cut) (skipn n t) <> None) ->
       has_sequence (hw :: w) o = false).
  - reflexivity.
  - intros c u k Hm IH Hj Hcov. apply IH.
    + exact (@joins_skipn _ _ (c :: u) (S k) Hj).
    + intros n. rewrite skipn_skipn. exact (Hcov (S (n + k))).
  - intros c u Hm IH Hj Hcov. rewrite re_reads in Hm.
    assert (Hkeep : sequence_len (hc :: cut) (c :: u) = None).
    { destruct Hm as [Hm|Hm]; [exact Hm|]. apply sequence_len_pos in Hm. lia. }
    cbn [joins] in Hj. apply orb_false_iff in Hj as [Hj0 Hj].
    assert (Hnone : sequence_len (hw :: w) (c :: u) = None).
    { destruct (sequence_len (hw :: w) (c :: u)) eqn:E; [|reflexivity].
      exfalso. apply (Hcov 0); cbn [skipn]; [now rewrite E|exact Hkeep]. }
    cbn [has_sequence]. rewrite (@kept_start c u Hkeep Hnone Hj0).
    apply IH; [exact Hj|]. intros n. apply (Hcov (S n)).
Qed.

End Joining.

Section Glyphs.

Lemma key_in_block (c : char) : in_table c = true -> box_drawing c = true.
Proof.
  unfold in_table. intros H. apply existsb_exists in H as (kv & Hin & Hc).
  apply N.eqb_eq in Hc. subst c.
  pose proof box_chars_ok as Hok. rewrite forallb_forall in Hok.
  specialize (Hok _ Hin). unfold entry_ok in Hok.
  now apply andb_true_iff in Hok.
Qed.

Lemma listed_in_block (c : char) : listed_glyph c = true -> box_drawing c = true.
Proof.
  unfold listed_glyph, box_drawing. cbn [existsb]. intros H.
  apply andb_true_iff. rewrite N.leb_le, N.leb_le.
  repeat (apply orb_true_iff in H as [H|H]); try discriminate;
    try (apply N.eqb_eq in H; subst c; lia).
  apply andb_true_iff in H. rewrite !N.leb_le in H. lia.
Qed.

Lemma block_table :
  forallb (fun c => (box_ascii c =? (if listed_glyph c then ascii_for c else c))%N)
          block = true.
Proof. vm_compute. reflexivity. Qed.

(** The chain of replacements is the rule of the table. *)
Lemma box_ascii_listed (c : char) :
  box_ascii c = if listed_glyph c then ascii_for c else c.
Proof.
  destruct (box_drawing c) eqn:Eb.
  - assert (Hin : In c block).
    { unfold box_drawing in Eb. apply andb_true_iff in Eb.
      rewrite !N.leb_le in Eb. unfold block.
      apply in_map_iff. exists (N.to_nat (c - 0x2500)). split; [lia|].
      apply in_seq. lia. }
    pose proof block_table as H. rewrite forallb_forall in H.
    apply N.eqb_eq. exact (H _ Hin).
  - assert (Hl : listed_glyph c = false).
    { destruct (listed_glyph c) eqn:E; [|reflexivity].
      apply listed_in_block in E. congruence. }
    rewrite Hl. apply box_ascii_outside.
    destruct (in_table c) eqn:E; [|reflexivity].
    apply key_in_block in E. congruence.
Qed.

Lemma ascii_for_cases (c : char) :
  ascii_for c = 45%N \/ ascii_for c = 61%N \/ ascii_for c = 124%N \/
  ascii_for c = 43%N.
Proof.
  unfold ascii_for.
  destruct (c =? 0x2500)%N; [now left|].
  destruct (c =? 0x2550)%N; [right; now left|].
  destruct ((c =? 0x2502) || (c =? 0x2551))%N; [right; right; now left|].
  right; right; now right.
Qed.

Lemma box_ascii_rule (c : char) : glyph_rule c (box_ascii c).
Proof.
  rewrite box_ascii_listed. split.
  - now intros ->.
  - intros Hb. destruct (listed_glyph c) eqn:E; [|reflexivity].
    apply listed_in_block in E. congruence.
Qed.

Lemma box_ascii_not_listed (c : char) : listed_glyph (box_ascii c) = false.
Proof.
  rewrite box_ascii_listed. destruct (listed_glyph c) eqn:E; [|exact E].
  destruct (ascii_for_cases c) as [-> | [-> | [-> | ->]]]; reflexivity.
Qed.

(** The replacements neither make nor unmake a character of a sequence. *)
Lemma box_ascii_plain (x c : char) :
  (c <? 0x2500)%N = true -> ascii_line c = false ->
  (box_ascii x =? c)%N = (x =? c)%N.
Proof.
  intros Hc Hl. rewrite box_ascii_listed.
  destruct (listed_glyph x) eqn:E; [|reflexivity].
  apply listed_in_block in E. unfold box_drawing in E.
  apply andb_true_iff in E as [E _]. apply N.leb_le in E. apply N.ltb_lt in Hc.
  replace (x =? c)%N with false by (symmetry; apply N.eqb_neq; lia).
  apply N.eqb_neq. intros H. rewrite <- H in Hl.
  destruct (ascii_for_cases x) as [Ha | [Ha | [Ha | Ha]]]; rewrite Ha in Hl;
    discriminate.
Qed.

Lemma box_ascii_param (x : char) : sgr_param (box_ascii x) = sgr_param x.
Proof.
  rewrite box_ascii_listed.
  destruct (listed_glyph x) eqn:E; [|reflexivity].
  apply listed_in_block in E. unfold box_drawing in E.
  apply andb_true_iff in E as [E _]. apply N.leb_le in E.
  assert (Hx : sgr_param x = false).
  { unfold sgr_param. apply orb_false_iff. split.
    - apply andb_false_iff. right. apply N.leb_gt. lia.
    - apply N.eqb_neq. lia. }
  rewrite Hx.
  destruct (ascii_for_cases x) as [-> | [-> | [-> | ->]]]; reflexivity.
Qed.

Lemma read_params_map (k : nat) (t : str) :
  read_params k (map box_ascii t) = read_params k t.
Proof.
  revert k; induction t as [|c t IH]; intros k; [reflexivity|].
  cbn [map read_params]. rewrite box_ascii_param, IH.
  now rewrite (@box_ascii_plain c 109%N) by reflexivity.
Qed.

Lemma read_intro_map (intro : str) (k : nat) (t : str) :
  Forall (fun c => (c <? 0x2500)%N = true /\ ascii_line c = false) intro ->
  read_intro intro k (map box_ascii t) = read_intro intro k t.
Proof.
  intros Hi. revert k t; induction Hi as [|x intro [Hx Hl] _ IH]; intros k t.
  - destruct t as [|c t]; [reflexivity|]. cbn [map read_intro read_bracket].
    rewrite (@box_ascii_plain c 91%N) by reflexivity.
    now rewrite read_params_map.
  - destruct t as [|y t]; [reflexivity|]. cbn [map read_intro].
    rewrite (@box_ascii_plain y x Hx Hl). now rewrite IH.
Qed.

Lemma has_sequence_map (intro t : str) :
  Forall (fun c => (c <? 0x2500)%N = true /\ ascii_line c = false) intro ->
  has_sequence intro (map box_ascii t) = has_sequence intro t.
Proof.
  intros Hi. induction t as [|c t IH]; [reflexivity|].
  assert (E : sequence_len intro (map box_ascii (c :: t)) =
              sequence_len intro (c :: t)).
  { unfold sequence_len, read. now rewrite read_intro_map. }
  cbn [map] in E. cbn [map has_sequence]. now rewrite E, IH.
Qed.

Lemma has_sequence_skipn (intro t : str) (n : nat) :
  has_sequence intro t = false -> sequence_len intro (skipn n t) = None.
Proof.
  assert (Hnil : sequence_len intro [] = None) by (now destruct intro).
  revert t; induction n as [|n IH]; intros [|c t] H; try exact Hnil.
  - cbn [skipn]. cbn [has_sequence] in H.
    now destruct (sequence_len intro (c :: t)).
  - cbn [skipn]. apply IH. cbn [has_sequence] in H.
    now destruct (sequence_len intro (c :: t)).
Qed.

End Glyphs.

Section Guarantee.

Lemma raw_apart_raw (c : char) : goes_on [] c -> c <> 27%N.
Proof.
  intros [[]|[->| H]]; [discriminate|]. intros ->. discriminate.
Qed.

Lemma raw_apart_escaped (c : char) : goes_on [] c -> c <> 92%N.
Proof.
  intros [[]|[->| H]]; [discriminate|]. intros ->. discriminate.
Qed.

Lemma escaped_apart_escaped (c : char) :
  goes_on [117; 48; 48; 49; 98]%N c -> c <> 92%N.
Proof.
  intros [H|[->| H]]; [|discriminate|intros ->; discriminate].
  cbn [In] in H. intros ->. repeat (destruct H as [H|H]; [discriminate|]).
  exact H.
Qed.

Lemma plain_raw :
  Forall (fun c => (c <? 0x2500)%N = true /\ ascii_line c = false) RAW.
Proof. repeat constructor. Qed.

Lemma plain_escaped :
  Forall (fun c => (c <? 0x2500)%N = true /\ ascii_line c = false) ESCAPED.
Proof. repeat constructor. Qed.

(** C3 (amended): each pass of the cleaner leaves out every sequence of
    its text and keeps the other characters in order, the first pass the
    raw sequences [ESC [ params m] of the input, the second the escaped
    sequences of what the first pass leaves.  Of the characters that are
    kept, a listed glyph is replaced by its ASCII equivalent and a
    character outside the block Box Drawing is kept as it is, so the
    output holds no listed glyph.  The output holds no raw sequence when
    no sequence that a pass cuts comes directly after an unfinished raw
    sequence, and no escaped sequence when no escaped sequence comes
    directly after an unfinished escaped one: a sequence is left only
    where a cut joins its parts. *)
Theorem cleaner_guarantee (s : str) :
  cut_all RAW s (sub ansi_re s) /\
  cut_all ESCAPED (sub ansi_re s) (sub ansi_escaped_re (sub ansi_re s)) /\
  Forall2 glyph_rule (sub ansi_escaped_re (sub ansi_re s)) (clean_str s) /\
  Forall (fun c => listed_glyph c = false) (clean_str s) /\
  (joins RAW RAW s = false ->
   joins RAW ESCAPED (sub ansi_re s) = false ->
   has_sequence RAW (clean_str s) = false) /\
  (joins ESCAPED ESCAPED (sub ansi_re s) = false ->
   has_sequence ESCAPED (clean_str s) = false).
Proof.
  rewrite clean_str_map.
  split; [exact (@sub_cut_all _ _ ansi_re_reads s)|].
  split; [exact (@sub_cut_all _ _ ansi_escaped_re_reads (sub ansi_re s))|].
  split.
  { induction (sub ansi_escaped_re (sub ansi_re s)) as [|c t IH];
      cbn [map]; constructor; [apply box_ascii_rule|exact IH]. }
  split.
  { apply Forall_forall. intros c Hc. apply in_map_iff in Hc as (x & <- & _).
    apply box_ascii_not_listed. }
  split.
  - intros H1 H2. rewrite (@has_sequence_map _ _ plain_raw).
    assert (Hmid : has_sequence RAW (sub ansi_re s) = false).
    { apply (@sub_no_join 27%N [] 27%N [] ansi_re ansi_re_reads raw_apart_raw);
        [exact H1|]. intros n H. exact H. }
    apply (@sub_no_join 27%N [] 92%N [117; 48; 48; 49; 98]%N ansi_escaped_re
             ansi_escaped_re_reads raw_apart_escaped); [exact H2|].
    intros n H. exfalso. apply H. now apply has_sequence_skipn.
  - intros H3. rewrite (@has_sequence_map _ _ plain_escaped).
    apply (@sub_no_join 92%N [117; 48; 48; 49; 98]%N 92%N
             [117; 48; 48; 49; 98]%N ansi_escaped_re ansi_escaped_re_reads
             escaped_apart_escaped); [exact H3|].
    intros n H. exact H.
Qed.

End Guarantee.

(** A text with a sequence that is none ([ESC [ 2 J]), two raw sequences
    around three glyphs and a number, a Windows path and an escaped
    sequence. *)
Lemma cleaner_guarantee_witness :
  let s := [27%N] ++ lit "[2J" ++ [27%N] ++ lit "[31m" ++
           [0x256D; 0x2500; 0x256E]%N ++ lit "100" ++ [27%N] ++
           lit "[0m C:\tmp \u001b[1mok" in
  joins RAW RAW s = false /\
  joins RAW ESCAPED (sub ansi_re s) = false /\
  joins ESCAPED ESCAPED (sub ansi_re s) = false /\
  clean_str s = [27%N] ++ lit "[2J+-+100 C:\tmp ok" /\
  has_sequence RAW (clean_str s) = false /\
  has_sequence ESCAPED (clean_str s) = false.
Proof.
  intros s.
  destruct (cleaner_guarantee s) as (_ & _ & _ & _ & H1 & H2).
  do 4 (split; [reflexivity|]).
  split; [apply H1|apply H2]; reflexivity.
Defined.

(** ** Batch cleaner: what it writes *)

Module HeapFacts.

Import Heap.

Lemma update_length (a : addr) (o : obj) (h : heap) :
  length (update a o h) = length h.
Proof.
  revert a; induction h as [|x h IH]; intros [|a]; simpl; auto.
Qed.

Lemma update_same (a : addr) (o : obj) (h : heap) :
  a < length h -> nth_error (update a o h) a = Some o.
Proof.
  revert a; induction h as [|x h IH]; intros [|a]; simpl; try lia; auto.
  intros H. apply IH. lia.
Qed.

Lemma update_other (a b : addr) (o : obj) (h : heap) :
  a <> b -> nth_error (update a o h) b = nth_error h b.
Proof.
  revert a b; induction h as [|x h IH]; intros [|a] [|b] H; simpl; auto;
    first [congruence | apply IH; congruence].
Qed.

Lemma alloc_old (o : obj) (h : heap) (a : addr) :
  a < length h -> nth_error (h ++ [o]) a = nth_error h a.
Proof. intros H. now rewrite nth_error_app1. Qed.

Lemma alloc_new (o : obj) (h : heap) : nth_error (h ++ [o]) (length h) = Some o.
Proof. now rewrite nth_error_app2, Nat.sub_diag. Qed.

Lemma cleaned_ref_stable (h g g1 : heap) (item item' : addr) :
  stable (length h) g g1 -> length h < length g ->
  cleaned_ref h g item item' -> cleaned_ref h g1 item item'.
Proof.
  intros [_ Hs] Hl. unfold cleaned_ref.
  destruct (nth_error h item) as [[l|[| | | | |l|d]]|]; auto.
  destruct (dict_get TEXT d); auto.
  intros [Hn Hg]. split; [exact Hn|].
  rewrite Hs; [exact Hg|lia|]. apply nth_error_Some. congruence.
Qed.

Lemma append_run (cd x : addr) (g : heap) (out : list addr) :
  nth_error g cd = Some (OList out) ->
  append cd x g = Some (tt, update cd (OList (out ++ [x])) g).
Proof. intros H. unfold append, mbind, deref, assign. now rewrite H. Qed.

(** One turn of the loop. *)
Lemma clean_step_run (h g : heap) (item : addr) (out : list addr) :
  frame h g -> length h < length g ->
  nth_error g (length h) = Some (OList out) ->
  item < length h ->
  exists g1 item',
    clean_step (length h) item g = Some (tt, g1) /\
    stable (length h) g g1 /\
    nth_error g1 (length h) = Some (OList (out ++ [item'])) /\
    cleaned_ref h g1 item item'.
Proof.
  intros Hf Hl Hcd Hi.
  assert (Hsame : forall x,
            exists g1, append (length h) x g = Some (tt, g1) /\
              stable (length h) g g1 /\
              nth_error g1 (length h) = Some (OList (out ++ [x]))).
  { intros x. eexists. split; [exact (@append_run _ x _ _ Hcd)|]. split.
    - split; [rewrite update_length; lia|].
      intros a Ha _. now apply update_other.
    - apply update_same. lia. }
  unfold clean_step, mbind, deref. rewrite (Hf item Hi).
  unfold cleaned_ref.
  destruct (nth_error h item) as [o|] eqn:Eo.
  2:{ destruct (Hsame item) as (g1 & E & S & N). exists g1, item. auto. }
  destruct o as [l|v].
  { destruct (Hsame item) as (g1 & E & S & N). exists g1, item. auto. }
  destruct v as [| | | | |l|d];
    try (destruct (Hsame item) as (g1 & E & S & N); exists g1, item; now auto).
  destruct (dict_get TEXT d) as [text|] eqn:Et.
  2:{ destruct (Hsame item) as (g1 & E & S & N). exists g1, item. auto. }
  unfold copy, mbind, deref, alloc. rewrite (Hf item Hi), Eo.
  unfold setitem, mbind, deref, assign. rewrite alloc_new.
  set (copied := OVal (VDict (dict_set TEXT (clean_swarm_text text) d))).
  set (g2 := update (length g) copied (g ++ [OVal (VDict d)])).
  assert (Hcd2 : nth_error g2 (length h) = Some (OList out)).
  { unfold g2. rewrite update_other by lia. rewrite alloc_old by lia. exact Hcd. }
  rewrite (@append_run _ (length g) _ _ Hcd2).
  eexists. exists (length g). split; [reflexivity|].
  assert (Hlen2 : length g2 = S (length g)).
  { unfold g2. rewrite update_length, length_app. simpl. lia. }
  split; [split|split].
  - rewrite update_length. lia.
  - intros a Ha Hag. rewrite update_other by congruence.
    unfold g2. rewrite update_other by lia. now apply alloc_old.
  - apply update_same. lia.
  - split; [exact Hl|]. rewrite update_other by lia.
    unfold g2. apply update_same. rewrite length_app. simpl. lia.
Qed.

Lemma frame_stable (h g g1 : heap) :
  frame h g -> length h < length g -> stable (length h) g g1 -> frame h g1.
Proof.
  intros Hf Hl [_ Hs] a Ha. rewrite Hs by lia. now apply Hf.
Qed.

(** The loop, from index [i] on. *)
Lemma clean_loop_run (h : heap) (json_data : addr) (items : list addr) :
  nth_error h json_data = Some (OList items) ->
  Forall (fun a => a < length h) items ->
  forall fuel i g out,
    fuel + i = length items ->
    frame h g -> length h < length g ->
    nth_error g (length h) = Some (OList out) ->
    Forall2 (cleaned_ref h g) (firstn i items) out ->
    exists g' out',
      clean_loop fuel json_data (length h) i g = Some (tt, g') /\
      frame h g' /\
      nth_error g' (length h) = Some (OList out') /\
      Forall2 (cleaned_ref h g') items out'.
Proof.
  intros Hj Hitems.
  assert (Hjl : json_data < length h) by (apply nth_error_Some; congruence).
  induction fuel as [|fuel IH]; intros i g out Hfi Hf Hl Hcd Hout.
  - simpl in Hfi. subst i.
    exists g, out. unfold clean_loop, mbind, deref.
    rewrite (Hf _ Hjl), Hj.
    assert (E : nth_error items (length items) = None)
      by (apply nth_error_None; lia).
    rewrite E. rewrite firstn_all in Hout. repeat split; assumption.
  - cbn [clean_loop]. unfold mbind at 1. unfold deref at 1.
    rewrite (Hf _ Hjl), Hj.
    destruct (nth_error items i) as [item|] eqn:Ei.
    2:{ apply nth_error_None in Ei. lia. }
    assert (Hi : item < length h).
    { rewrite Forall_forall in Hitems. apply Hitems.
      now apply nth_error_In with (n := i). }
    destruct (clean_step_run Hf Hl Hcd Hi) as (g1 & item' & E & S & N & C).
    unfold mbind. rewrite E.
    destruct S as [Sl Ss].
    apply (IH (Datatypes.S i) g1 (out ++ [item'])).
    + lia.
    + apply frame_stable with (g := g); [assumption|assumption|now split].
    + lia.
    + exact N.
    + rewrite (firstn_S_nth_error _ _ Ei) || idtac.
      assert (Hfirst : firstn (Datatypes.S i) items = firstn i items ++ [item]).
      { clear -Ei. revert i Ei. induction items as [|x l IHl]; intros [|i] Ei;
          simpl in *; try discriminate.
        - now injection Ei as ->.
        - f_equal. now apply IHl. }
      rewrite Hfirst. apply Forall2_app.
      * eapply Forall2_impl; [|exact Hout].
        intros a b Hab. apply cleaned_ref_stable with (g := g);
          [now split|assumption|assumption].
      * constructor; [exact C|constructor].
Qed.

(** C9: the batch cleaner writes to no object that existed before the
    call: the caller's list and every element of it are as they were.  The
    result is a new list; an element whose [text] is rewritten is in it as
    a new object that holds the cleaned copy, and every other element is
    in it as the object itself. *)
Theorem batch_cleaner_frame (h : heap) (json_data : addr) (items : list addr) :
  nth_error h json_data = Some (OList items) ->
  Forall (fun a => a < length h) items ->
  exists h' out,
    clean_swarm_output json_data h = Some (length h, h') /\
    (forall a, a < length h -> nth_error h' a = nth_error h a) /\
    nth_error h' (length h) = Some (OList out) /\
    Forall2 (cleaned_ref h h') items out.
Proof.
  intros Hj Hitems. unfold clean_swarm_output, mbind, alloc, size_at.
  rewrite Hj.
  destruct (@clean_loop_run h json_data items Hj Hitems (length items) 0
              (h ++ [OList []]) [])
    as (g' & out' & E & F & N & C).
  - lia.
  - intros a Ha. now apply alloc_old.
  - rewrite length_app. simpl. lia.
  - apply alloc_new.
  - constructor.
  - rewrite E. exists g', out'. repeat split; assumption.
Qed.

(** The list that the store version returns holds the values that the
    function on values returns. *)
Lemma batch_cleaner_refines (h : heap) (json_data : addr) (items : list addr) :
  nth_error h json_data = Some (OList items) ->
  Forall (fun a => exists v, nth_error h a = Some (OVal v)) items ->
  exists h' out,
    clean_swarm_output json_data h = Some (length h, h') /\
    nth_error h' (length h) = Some (OList out) /\
    map (value_at h') out = Swarm.clean_swarm_output (map (value_at h) items).
Proof.
  intros Hj Hvals.
  assert (Hitems : Forall (fun a => a < length h) items).
  { eapply Forall_impl; [|exact Hvals].
    intros a [v Hv]. apply nth_error_Some. congruence. }
  unfold clean_swarm_output, mbind, alloc, size_at. rewrite Hj.
  destruct (@clean_loop_run h json_data items Hj Hitems (length items) 0
              (h ++ [OList []]) [])
    as (g' & out' & E & F & N & C);
    [lia | intros a Ha; now apply alloc_old | rewrite length_app; simpl; lia
    | apply alloc_new | constructor |].
  rewrite E. exists g', out'. split; [reflexivity|]. split; [exact N|].
  rewrite clean_swarm_output_map, map_map.
  clear -Hvals F C. induction C as [|item item' items out Hc _ IH]; simpl;
    [reflexivity|].
  inversion Hvals as [|? ? [v Hv] Hrest]; subst. f_equal; [|now apply IH].
  assert (Hi : item < length h) by (apply nth_error_Some; congruence).
  unfold cleaned_ref in Hc. unfold value_at at 2. rewrite Hv in *.
  unfold clean_item.
  destruct v as [| | | | |l|d];
    try (subst item'; unfold value_at; now rewrite (F _ Hi), Hv).
  destruct (dict_get TEXT d) as [text|].
  - destruct Hc as [_ Hc]. unfold value_at. now rewrite Hc.
  - subst item'. unfold value_at. now rewrite (F _ Hi), Hv.
Qed.

Lemma batch_cleaner_frame_witness :
  let h := [OVal (VDict [(TEXT, VStr [0x2500%N])]); OVal (VInt 3);
            OList [0; 1; 0]] in
  exists h' out,
    clean_swarm_output 2 h = Some (3, h') /\
    (forall a, a < 3 -> nth_error h' a = nth_error h a) /\
    nth_error h' 3 = Some (OList out) /\
    Forall2 (cleaned_ref h h') [0; 1; 0] out.
Proof.
  exact (@batch_cleaner_frame
           [OVal (VDict [(TEXT, VStr [0x2500%N])]); OVal (VInt 3);
            OList [0; 1; 0]] 2 [0; 1; 0] eq_refl
           (Forall_cons 0 (Nat.lt_0_succ 2)
              (Forall_cons 1 (proj1 (Nat.succ_lt_mono 0 2) (Nat.lt_0_succ 1))
                 (Forall_cons 0 (Nat.lt_0_succ 2) (Forall_nil _))))).
Defined.

End HeapFacts.

(* ===================================================================== *)
(** * Further properties *)
(* ===================================================================== *)

Import Terms.

(** ** Text cleaner: lengths, fixed points, the table *)

Section CleanerMore.

(** The cleaner never lengthens a text, and keeps its length exactly when
    the text holds no sequence [ESC [ ... m], raw or escaped. *)
Theorem clean_str_length (s : str) :
  length (clean_str s) <= length s /\
  (length (clean_str s) = length s <-> has_ansi s = false).
Proof.
  rewrite clean_str_map, length_map.
  pose proof (sub_length ansi_escaped_re (sub ansi_re s)) as L2.
  pose proof (sub_length ansi_re s) as L1.
  split; [lia|]. unfold has_ansi. split.
  - intros H. destruct (found ansi_re s) eqn:F1.
    { pose proof (sub_shrinks s ansi_re_nonempty F1). lia. }
    rewrite (sub_noop _ _ F1) in H.
    destruct (found ansi_escaped_re s) eqn:F2; [|reflexivity].
    pose proof (sub_shrinks s ansi_escaped_re_nonempty F2). lia.
  - intros H. apply orb_false_iff in H as [F1 F2].
    now rewrite (sub_noop _ _ F1), (sub_noop _ _ F2).
Qed.

(** The texts the cleaner leaves as they are: those without a sequence
    and without a glyph of the table. *)
Theorem clean_str_fixed_points (s : str) :
  clean_str s = s <->
  has_ansi s = false /\ Forall (fun c => in_table c = false) s.
Proof.
  split.
  - intros H.
    assert (Ht : Forall (fun c => in_table c = false) s)
      by (rewrite <- H; apply clean_str_no_table_glyph).
    split; [|exact Ht]. now apply clean_str_fixed.
  - intros [Ha Ht]. now apply clean_str_fixed.
Qed.

Lemma lookup_item_store (c k v : char) (d : list (char * char)) :
  lookup_item c (store k v d) = if (c =? k)%N then Some v else lookup_item c d.
Proof.
  induction d as [|[k' v'] d IH]; cbn [store lookup_item]; [reflexivity|].
  destruct (k' =? k)%N eqn:E; cbn [lookup_item].
  - apply N.eqb_eq in E. subst k'. now destruct (c =? k)%N.
  - rewrite IH. destruct (c =? k')%N eqn:E'; [|reflexivity].
    apply N.eqb_eq in E'. subst k'. now rewrite E.
Qed.

Lemma lookup_item_display (c : char) (display d : list (char * char)) :
  lookup_item c (fold_left (fun d kv => store (fst kv) (snd kv) d) display d) =
  match lookup_last c display with
  | Some v => Some v
  | None => lookup_item c d
  end.
Proof.
  revert d; induction display as [|[k v] rest IH]; intros d;
    cbn [fold_left lookup_last fst snd]; [reflexivity|].
  rewrite IH, lookup_item_store.
  destruct (lookup_last c rest); [reflexivity|]. now destruct (c =? k)%N.
Qed.

Lemma chain_lookup (l : list (char * char)) (c : char) :
  forallb entry_ok l = true ->
  fold_left (fun c kv => if (c =? fst kv)%N then snd kv else c) l c =
  match lookup_item c l with Some v => v | None => c end.
Proof.
  revert c; induction l as [|[k v] l IH]; intros c Hl;
    cbn [fold_left lookup_item fst snd]; [reflexivity|].
  cbn [forallb] in Hl. apply andb_true_iff in Hl as [Hkv Hl].
  destruct (c =? k)%N; [|now apply IH].
  unfold entry_ok in Hkv. apply andb_true_iff in Hkv as [Hv _].
  apply chain_miss. now apply ascii_line_not_key.
Qed.

(** The chain of [replace] calls is one substitution, character by
    character: a character becomes what the dict display lists for it
    (the later entry, where a glyph is written twice) and is kept when the
    display does not list it; what a call put in is not replaced by a
    later call. *)
Theorem clean_str_substitution (s : str) :
  clean_str s =
  map (fun c => match lookup_last c box_chars_display with
                | Some v => v
                | None => c
                end)
      (sub ansi_escaped_re (sub ansi_re s)).
Proof.
  rewrite clean_str_map. apply map_ext. intros c.
  unfold box_ascii. rewrite chain_lookup by exact box_chars_ok.
  change box_chars
    with (fold_left (fun d kv => store (fst kv) (snd kv) d) box_chars_display []).
  rewrite lookup_item_display. cbn [lookup_item].
  now destruct (lookup_last c box_chars_display).
Qed.

End CleanerMore.

(** ** Batch cleaner: concatenation *)

Section BatchMore.

(** Cleaning a concatenation is cleaning its parts: no element is cleaned
    in the light of another. *)
Theorem clean_swarm_output_app (a b : list value) :
  clean_swarm_output (a ++ b) = clean_swarm_output a ++ clean_swarm_output b.
Proof. rewrite !clean_swarm_output_map. apply map_app. Qed.

Lemma clean_item_text_is_str (item : value) :
  text_is_str item = true -> text_is_str (clean_item item) = true.
Proof.
  unfold text_is_str, clean_item.
  destruct item as [| | | | |l|d]; try reflexivity.
  destruct (dict_get TEXT d) as [text|] eqn:E; [|now rewrite E].
  rewrite dict_get_set_same. now destruct text.
Qed.

Lemma clean_swarm_output_text_is_str (l : list value) :
  forallb text_is_str l = true ->
  forallb text_is_str (clean_swarm_output l) = true.
Proof.
  rewrite clean_swarm_output_map.
  induction l as [|item l IH]; simpl; [reflexivity|].
  intros H. apply andb_true_iff in H as [Hi Hl].
  now rewrite clean_item_text_is_str, IH.
Qed.

End BatchMore.

(** ** Content extractor: how fragments add up *)

Section ExtractorMore.

Variable json_loads : str -> result value.

Lemma extract_items_app (cs : sections) (a b : list value) :
  extract_items json_loads cs (a ++ b) =
  bind (extract_items json_loads cs a)
       (fun c => extract_items json_loads c b).
Proof.
  revert cs; induction a as [|item a IH]; intros cs; simpl; [reflexivity|].
  destruct (extract_item json_loads cs item) as [cs'|e]; cbn [bind];
    [apply IH|reflexivity].
Qed.

Lemma grows_alike_refl (cs cs2 : sections) : grows_alike 0 cs cs2 cs cs2.
Proof. exists [], []. rewrite !app_nil_r. repeat split. simpl. lia. Qed.

Lemma extract_text_alike (cs cs2 : sections) (text : str) :
  grows_alike 1 cs cs2 (extract_text json_loads cs text)
                       (extract_text json_loads cs2 text).
Proof.
  assert (Hsame : forall k k2,
            grows_alike 1 cs cs2
              (Sections (swarm_status cs) (agent_responses cs) (metrics cs) k)
              (Sections (swarm_status cs2) (agent_responses cs2) (metrics cs2) k2)).
  { intros k k2. exists [], []. cbn [agent_responses metrics].
    rewrite !app_nil_r. repeat split. simpl. lia. }
  assert (Hid : grows_alike 1 cs cs2 cs cs2).
  { exists [], []. rewrite !app_nil_r. repeat split. simpl. lia. }
  unfold extract_text.
  destruct (found response_re text).
  { eexists [_], []. cbn [agent_responses metrics]. rewrite !app_nil_r.
    repeat split. simpl. lia. }
  destruct (found metrics_re text).
  { eexists [], [_]. cbn [agent_responses metrics]. rewrite !app_nil_r.
    repeat split. simpl. lia. }
  destruct (contains _ text); [|exact Hid].
  destruct (knowledge_body text) as [body|]; [|exact Hid].
  destruct (json_loads body) as [kd|]; cbn [bind try_except]; [|exact Hid].
  destruct (clean_knowledge kd); cbn [bind try_except]; [apply Hsame|exact Hid].
Qed.

Lemma extract_item_alike (cs cs2 : sections) (item : value) :
  runs_alike 1 cs cs2 (extract_item json_loads cs item)
                      (extract_item json_loads cs2 item).
Proof.
  assert (Hid : grows_alike 1 cs cs2 cs cs2).
  { exists [], []. rewrite !app_nil_r. repeat split. simpl. lia. }
  unfold extract_item.
  destruct item as [| | | | |l|d]; try exact Hid.
  destruct (dict_get TEXT d) as [text|]; [|exact Hid].
  destruct (py_in (lit "Swarm Status") text) as [[|]|e]; cbn [bind runs_alike].
  - exists [], []. cbn [agent_responses metrics]. rewrite !app_nil_r.
    repeat split. simpl. lia.
  - destruct text; cbn [runs_alike]; try reflexivity.
    apply extract_text_alike.
  - reflexivity.
Qed.

Lemma grows_alike_trans (n m : nat) (cs cs2 c c2 c' c2' : sections) :
  grows_alike n cs cs2 c c2 -> grows_alike m c c2 c' c2' ->
  grows_alike (n + m) cs cs2 c' c2'.
Proof.
  intros (dr & dm & R & R2 & M & M2 & L) (dr' & dm' & R' & R2' & M' & M2' & L').
  exists (dr ++ dr'), (dm ++ dm').
  rewrite R', R2', M', M2', R, R2, M, M2, !app_assoc, !length_app.
  repeat split. lia.
Qed.

Lemma extract_items_alike (l : list value) (cs cs2 : sections) :
  runs_alike (length l) cs cs2 (extract_items json_loads cs l)
                               (extract_items json_loads cs2 l).
Proof.
  revert cs cs2; induction l as [|item l IH]; intros cs cs2;
    cbn [extract_items length].
  - apply grows_alike_refl.
  - pose proof (extract_item_alike cs cs2 item) as H.
    destruct (extract_item json_loads cs item) as [c|e];
      destruct (extract_item json_loads cs2 item) as [c2|e2];
      cbn [runs_alike bind] in *; try contradiction; [|exact H].
    specialize (IH c c2).
    destruct (extract_items json_loads c l) as [c'|e'];
      destruct (extract_items json_loads c2 l) as [c2'|e2'];
      cbn [runs_alike] in *; try contradiction; [|exact IH].
    exact (grows_alike_trans H IH).
Qed.

(** The entries of a concatenation are the entries of its parts, in
    order: the same agent twice is recorded twice. *)
Theorem extract_app_entries (a b : list value) (ca cb : sections) :
  extract_swarm_content json_loads a = Ok ca ->
  extract_swarm_content json_loads b = Ok cb ->
  exists c,
    extract_swarm_content json_loads (a ++ b) = Ok c /\
    agent_responses c = agent_responses ca ++ agent_responses cb /\
    metrics c = metrics ca ++ metrics cb.
Proof.
  unfold extract_swarm_content. intros Ha Hb.
  rewrite extract_items_app, Ha. cbn [bind].
  pose proof (extract_items_alike b ca content_sections) as H.
  rewrite Hb in H.
  destruct (extract_items json_loads ca b) as [c|e]; cbn [runs_alike] in H;
    [|contradiction].
  destruct H as (dr & dm & R & R2 & M & M2 & _).
  cbn [content_sections agent_responses metrics app] in R2, M2.
  exists c. split; [reflexivity|]. now rewrite R, M, R2, M2.
Qed.

(** The extractor raises on a concatenation exactly when it raises on the
    first part, or returns on the first part and raises on the second,
    with that exception: what was extracted before the failing fragment
    is not returned. *)
Theorem extract_app_raises (a b : list value) (e : exn) :
  extract_swarm_content json_loads (a ++ b) = Raise e <->
  extract_swarm_content json_loads a = Raise e \/
  (exists ca, extract_swarm_content json_loads a = Ok ca /\
              extract_swarm_content json_loads b = Raise e).
Proof.
  unfold extract_swarm_content. rewrite extract_items_app.
  destruct (extract_items json_loads content_sections a) as [ca|ea];
    cbn [bind].
  - pose proof (extract_items_alike b ca content_sections) as H.
    destruct (extract_items json_loads ca b) as [c|e1];
      destruct (extract_items json_loads content_sections b) as [c2|e2];
      cbn [runs_alike] in H; try contradiction.
    + split; [discriminate|]. intros [H1|(x & _ & H1)]; discriminate.
    + subst e2. split.
      * intros [= ->]. right. now exists ca.
      * intros [H1|(x & _ & H1)]; [discriminate|exact H1].
  - split; [now left|]. intros [H1|(x & H1 & _)]; [exact H1|discriminate].
Qed.

(** A fragment adds at most one entry, to the responses or to the
    metrics. *)
Theorem extract_entries_bound (json_data : list value) (c : sections) :
  extract_swarm_content json_loads json_data = Ok c ->
  length (agent_responses c) + length (metrics c) <= length json_data.
Proof.
  unfold extract_swarm_content. intros H.
  pose proof (extract_items_alike json_data content_sections content_sections)
    as A.
  rewrite H in A. cbn [runs_alike] in A.
  destruct A as (dr & dm & R & _ & M & _ & L).
  cbn [content_sections agent_responses metrics app] in R, M.
  now rewrite R, M.
Qed.

End ExtractorMore.

Lemma extract_app_entries_witness :
  let a := [fragment (lit "Agent agent_1 Response: one")] in
  let b := [fragment (lit "Agent agent_1 Response: two");
            fragment (lit "Agent agent_2 Metrics: fast")] in
  exists c,
    extract_swarm_content Json.loads (a ++ b) = Ok c /\
    agent_responses c = [(lit "agent_1", lit "one")] ++ [(lit "agent_1", lit "two")] /\
    metrics c = [] ++ [(lit "agent_2", lit "fast")].
Proof.
  exact (@extract_app_entries Json.loads
           [fragment (lit "Agent agent_1 Response: one")]
           [fragment (lit "Agent agent_1 Response: two");
            fragment (lit "Agent agent_2 Metrics: fast")]
           (Sections VNone [(lit "agent_1", lit "one")] [] (VList []))
           (Sections VNone [(lit "agent_1", lit "two")]
                     [(lit "agent_2", lit "fast")] (VList []))
           eq_refl eq_refl).
Defined.

Lemma extract_entries_bound_witness :
  length [(lit "agent_1", lit "Hello")] + length (@nil (list N * list N)) <=
  length end_to_end_input.
Proof.
  exact (@extract_entries_bound Json.loads end_to_end_input
           (Sections (VStr (lit "Swarm Status: active"))
                     [(lit "agent_1", lit "Hello")] [] (VList []))
           eq_refl).
Defined.

(** ** Content extractor: status, fragments that pass by, other fields *)

Section ExtractorFragments.

Variable json_loads : str -> result value.

(** A fragment whose text holds [Swarm Status] sets the status to its
    cleaned text and does nothing else, whatever the status was and
    whatever else the text matches: the last such fragment wins. *)
Theorem extract_status_last (l : list value) (c : sections) (d : dict) (s : str) :
  extract_swarm_content json_loads l = Ok c ->
  dict_get TEXT d = Some (VStr s) ->
  contains (lit "Swarm Status") s = true ->
  extract_swarm_content json_loads (l ++ [VDict d]) =
  Ok (Sections (VStr (clean_str s)) (agent_responses c) (metrics c)
               (collective_knowledge c)).
Proof.
  unfold extract_swarm_content. intros Hl Hd Hs.
  rewrite extract_items_app, Hl. cbn [bind extract_items extract_item].
  rewrite Hd. cbn [py_in bind]. rewrite Hs. reflexivity.
Qed.

Lemma contains_char_In (c : char) (s : str) :
  contains [c] s = false -> ~ In c s.
Proof.
  induction s as [|x t IH]; [easy|].
  cbn [contains startswith]. rewrite andb_true_r.
  intros H. apply orb_false_iff in H as [Hx Ht].
  apply N.eqb_neq in Hx. intros [E|E]; [congruence|now apply IH].
Qed.

Lemma knowledge_body_none (text : str) :
  contains [OPEN] text = false -> knowledge_body text = None.
Proof.
  intros H. apply contains_char_In in H.
  unfold knowledge_body. change (lit "[") with [OPEN]. unfold find.
  destruct (find_from_char 0 OPEN text) as [[_ E]|(pre & post & -> & _ & _)].
  - now rewrite E.
  - exfalso. apply H. apply in_or_app. right. now left.
Qed.

Lemma extract_item_passes_by (cs : sections) (x : value) :
  passes_by x = true -> extract_item json_loads cs x = Ok cs.
Proof.
  unfold passes_by, extract_item.
  destruct x as [| | | | |l|d]; try reflexivity.
  destruct (dict_get TEXT d) as [[| | | |s|l|d']|]; try discriminate;
    [|reflexivity].
  intros H. apply andb_true_iff in H as [H Hk].
  apply andb_true_iff in H as [H Hm]. apply andb_true_iff in H as [Hs Hr].
  apply negb_true_iff in Hs, Hr, Hm.
  cbn [py_in bind]. rewrite Hs. unfold extract_text. rewrite Hr, Hm.
  change (lit "Collective Knowledge:") with MARKER.
  destruct (contains MARKER s); [|reflexivity].
  cbn [negb orb] in Hk. apply negb_true_iff in Hk.
  now rewrite knowledge_body_none.
Qed.

(** An element that is no mapping, has no [text], or has a string text
    that no branch takes can be left out of the sequence: the extractor
    returns the same with or without it. *)
Theorem extract_passes_by (a b : list value) (x : value) :
  passes_by x = true ->
  extract_swarm_content json_loads (a ++ x :: b) =
  extract_swarm_content json_loads (a ++ b).
Proof.
  intros H. unfold extract_swarm_content. rewrite !extract_items_app.
  destruct (extract_items json_loads content_sections a) as [c|e];
    cbn [bind extract_items]; [|reflexivity].
  now rewrite extract_item_passes_by.
Qed.

Lemma extract_item_text_only (cs : sections) (item : value) :
  extract_item json_loads cs (text_only item) = extract_item json_loads cs item.
Proof.
  unfold text_only, extract_item.
  destruct item as [| | | | |l|d]; try reflexivity.
  destruct (dict_get TEXT d) as [text|]; reflexivity.
Qed.

(** The extractor reads nothing of a fragment but its [text]: the other
    fields do not change what it returns. *)
Theorem extract_text_only (json_data : list value) :
  extract_swarm_content json_loads (map text_only json_data) =
  extract_swarm_content json_loads json_data.
Proof.
  unfold extract_swarm_content. generalize content_sections.
  induction json_data as [|item rest IH]; intros cs; cbn [map extract_items];
    [reflexivity|].
  rewrite extract_item_text_only.
  destruct (extract_item json_loads cs item); cbn [bind]; [apply IH|reflexivity].
Qed.

Lemma clamp_mono (n a b : Z) :
  (0 <= n)%Z -> (0 <= b <= a)%Z -> (clamp n b <= clamp n a)%Z.
Proof.
  intros Hn H. unfold clamp.
  destruct (b <? 0)%Z eqn:Eb; [apply Z.ltb_lt in Eb; lia|].
  destruct (a <? 0)%Z eqn:Ea; [apply Z.ltb_lt in Ea; lia|]. lia.
Qed.

(** When the delimiter of the metrics comes before the end of the first
    [Response:], the slice is empty: the fragment is recorded as a
    response with an empty text, and the text after [Response:] is
    lost. *)
Theorem response_empty_when_cut_first (cs : sections) (text : str) :
  found response_re text = true ->
  contains METRICS_DELIM text = true ->
  (find METRICS_DELIM text <= find (lit "Response:") text + 9)%Z ->
  extract_text json_loads cs text =
  Sections (swarm_status cs)
           (agent_responses cs ++ [(agent_id_of text, [])])
           (metrics cs) (collective_knowledge cs).
Proof.
  intros Hr Hc Hle. unfold extract_text. rewrite Hr, Hc.
  assert (H0 : (0 <= find METRICS_DELIM text)%Z).
  { pose proof (@contains_find_from 0 METRICS_DELIM text (Z.le_refl 0) Hc) as N.
    destruct (find_from_range 0 METRICS_DELIM text) as [R|R];
      [contradiction|unfold find; lia]. }
  replace (slice text (find (lit "Response:") text + 9)
             (find METRICS_DELIM text)) with (@nil N); [reflexivity|].
  unfold slice.
  pose proof (@clamp_mono (len text) _ _ (len_nonneg text) (conj H0 Hle)) as M.
  replace (Z.to_nat _) with 0 by lia. reflexivity.
Qed.

End ExtractorFragments.

Lemma extract_status_last_witness :
  extract_swarm_content Json.loads
    ([fragment (lit "Swarm Status: starting")] ++
     [VDict [(lit "id", VInt 2);
             (TEXT, VStr (lit "Swarm Status: Agent agent_1 Response: done"))]]) =
  Ok (Sections (VStr (lit "Swarm Status: Agent agent_1 Response: done"))
               [] [] (VList [])).
Proof.
  exact (@extract_status_last Json.loads
           [fragment (lit "Swarm Status: starting")]
           (Sections (VStr (lit "Swarm Status: starting")) [] [] (VList []))
           [(lit "id", VInt 2);
            (TEXT, VStr (lit "Swarm Status: Agent agent_1 Response: done"))]
           (lit "Swarm Status: Agent agent_1 Response: done")
           eq_refl eq_refl eq_refl).
Defined.

Lemma extract_passes_by_witness :
  extract_swarm_content Json.loads
    ([fragment (lit "Agent agent_1 Metrics: ok")] ++
     fragment (lit "Collective Knowledge: none yet") ::
     [VInt 3]) =
  extract_swarm_content Json.loads
    ([fragment (lit "Agent agent_1 Metrics: ok")] ++ [VInt 3]).
Proof.
  exact (@extract_passes_by Json.loads
           [fragment (lit "Agent agent_1 Metrics: ok")] [VInt 3]
           (fragment (lit "Collective Knowledge: none yet")) eq_refl).
Defined.

Lemma response_empty_when_cut_first_witness :
  let text := lit "log" ++ [LF; LF] ++
              lit "Metrics: Agent agent_2 Response: hello" in
  extract_text Json.loads content_sections text =
  Sections VNone ([] ++ [(agent_id_of text, [])]) [] (VList []) /\
  agent_id_of text = lit "agent_2".
Proof.
  split; [|reflexivity].
  apply (@response_empty_when_cut_first Json.loads content_sections
           (lit "log" ++ [LF; LF] ++
            lit "Metrics: Agent agent_2 Response: hello"));
    [reflexivity | reflexivity | vm_compute; discriminate].
Defined.

(** ** Content extractor: the knowledge payload *)

Section KnowledgePayload.

Variable json_loads : str -> result value.

Lemma dict_has_get (k : str) (d : dict) :
  dict_has k d = false -> dict_get k d = None.
Proof.
  induction d as [|[k' v] d IH]; cbn [dict_has dict_get]; [reflexivity|].
  intros H. apply orb_false_iff in H as [H1 H2]. rewrite H1. now apply IH.
Qed.

Lemma dict_has_get_some (k : str) (d : dict) :
  dict_has k d = true -> exists v, dict_get k d = Some v.
Proof.
  induction d as [|[k' v] d IH]; cbn [dict_has dict_get]; [discriminate|].
  destruct (str_eqb k' k); [intros _; now exists v|exact IH].
Qed.

Lemma clean_knowledge_item_ok (item : value) :
  knowledge_rejects item = false ->
  exists item', clean_knowledge_item item = Ok item' /\
                knowledge_cleaned item item'.
Proof.
  unfold knowledge_rejects, clean_knowledge_item, knowledge_cleaned.
  destruct item as [| | | |t|l|d]; try discriminate; cbn [py_in bind].
  - intros ->. now exists (VStr t).
  - intros ->. now exists (VList l).
  - intros _. destruct (dict_has CONTENT d) eqn:E.
    + destruct (dict_has_get_some _ _ E) as [c Hc]. rewrite Hc.
      eexists. split; [reflexivity|].
      eexists. split; [reflexivity|]. split; [apply dict_get_set_same|].
      split; [now apply dict_set_keys with (v0 := c)|].
      intros k Hk. now apply dict_get_set_other.
    + rewrite (dict_has_get _ _ E). now exists (VDict d).
Qed.

Lemma clean_knowledge_item_raises (item : value) :
  knowledge_rejects item = true -> clean_knowledge_item item = Raise TypeError.
Proof.
  unfold knowledge_rejects, clean_knowledge_item.
  destruct item as [| | | |t|l|d]; try discriminate; cbn [py_in bind];
    try reflexivity; now intros ->.
Qed.

Lemma clean_knowledge_items_ok (items : list value) :
  existsb knowledge_rejects items = false ->
  exists items', clean_knowledge_items items = Ok items' /\
                 Forall2 knowledge_cleaned items items'.
Proof.
  induction items as [|item rest IH]; cbn [existsb clean_knowledge_items].
  - intros _. exists []. split; [reflexivity|constructor].
  - intros H. apply orb_false_iff in H as [Hi Hr].
    destruct (clean_knowledge_item_ok _ Hi) as (item' & E & C).
    destruct (IH Hr) as (rest' & E' & C').
    rewrite E. cbn [bind]. rewrite E'. cbn [bind].
    exists (item' :: rest'). split; [reflexivity|now constructor].
Qed.

Lemma clean_knowledge_items_raises (items : list value) :
  existsb knowledge_rejects items = true ->
  clean_knowledge_items items = Raise TypeError.
Proof.
  induction items as [|item rest IH]; cbn [existsb clean_knowledge_items];
    [discriminate|].
  destruct (knowledge_rejects item) eqn:Hi.
  - intros _. now rewrite clean_knowledge_item_raises.
  - cbn [orb]. intros Hr.
    destruct (clean_knowledge_item_ok _ Hi) as (item' & E & _).
    rewrite E. cbn [bind]. now rewrite IH.
Qed.

(** A parsed array whose elements the loop accepts replaces the knowledge
    of the record, element for element: a mapping with [content] has it
    cleaned and its other fields kept, any other element is kept as it
    is. *)
Theorem knowledge_accepted (cs : sections) (text body : str)
                           (items : list value) :
  found response_re text = false ->
  found metrics_re text = false ->
  contains MARKER text = true ->
  knowledge_body text = Some body ->
  json_loads body = Ok (VList items) ->
  existsb knowledge_rejects items = false ->
  exists items',
    extract_text json_loads cs text =
      Sections (swarm_status cs) (agent_responses cs) (metrics cs)
               (VList items') /\
    Forall2 knowledge_cleaned items items'.
Proof.
  intros Hr Hm Hc Hb Hl Hk.
  destruct (clean_knowledge_items_ok items Hk) as (items' & E & C).
  exists items'. split; [|exact C].
  unfold extract_text. rewrite Hr, Hm.
  change (lit "Collective Knowledge:") with MARKER. rewrite Hc, Hb, Hl.
  cbn [bind]. unfold clean_knowledge. cbn [py_iter bind]. rewrite E.
  reflexivity.
Qed.

(** A parsed array with one element that the loop rejects (a number, a
    boolean, [null], a string that holds [content], a list that holds the
    string [content]) is dropped whole: the record stays as it was,
    though the payload was valid JSON. *)
Theorem knowledge_rejected (cs : sections) (text body : str)
                           (items : list value) :
  found response_re text = false ->
  found metrics_re text = false ->
  knowledge_body text = Some body ->
  json_loads body = Ok (VList items) ->
  existsb knowledge_rejects items = true ->
  extract_text json_loads cs text = cs.
Proof.
  intros Hr Hm Hb Hl Hk. unfold extract_text. rewrite Hr, Hm, Hb, Hl.
  cbn [bind]. unfold clean_knowledge. cbn [py_iter bind].
  rewrite (clean_knowledge_items_raises _ Hk). cbn [bind try_except].
  now destruct (contains _ text).
Qed.

End KnowledgePayload.

Lemma knowledge_accepted_witness :
  let text := lit "Collective Knowledge: [{" ++ [DQUOTE] ++ lit "content" ++
              [DQUOTE] ++ lit ": " ++ [DQUOTE; 0x2500%N; DQUOTE] ++
              lit "}, []]" in
  exists items',
    extract_text Json.loads content_sections text =
      Sections VNone [] [] (VList items') /\
    Forall2 knowledge_cleaned [VDict [(CONTENT, VStr [0x2500%N])]; VList []]
            items'.
Proof.
  exact (@knowledge_accepted Json.loads content_sections
           (lit "Collective Knowledge: [{" ++ [DQUOTE] ++ lit "content" ++
            [DQUOTE] ++ lit ": " ++ [DQUOTE; 0x2500%N; DQUOTE] ++ lit "}, []]")
           (lit "[{" ++ [DQUOTE] ++ lit "content" ++
            [DQUOTE] ++ lit ": " ++ [DQUOTE; 0x2500%N; DQUOTE] ++ lit "}, []]")
           [VDict [(CONTENT, VStr [0x2500%N])]; VList []]
           eq_refl eq_refl eq_refl eq_refl eq_refl eq_refl).
Defined.

Lemma knowledge_rejected_witness :
  let text := lit "Collective Knowledge: [{}, 1]" in
  Json.loads (lit "[{}, 1]") = Ok (VList [VDict []; VInt 1]) /\
  extract_text Json.loads content_sections text = content_sections.
Proof.
  split; [reflexivity|].
  exact (@knowledge_rejected Json.loads content_sections
           (lit "Collective Knowledge: [{}, 1]") (lit "[{}, 1]")
           [VDict []; VInt 1] eq_refl eq_refl eq_refl eq_refl eq_refl).
Defined.

(** ** Summary formatter: lengths and errors *)

Section FormatterMore.

(** With a maximum that is not negative, what is shown of a response is
    at most three characters longer than the maximum, and starts as the
    response does. *)
Theorem shown_response_bound (max_len : Z) (body : str) :
  (0 <= max_len)%Z ->
  (len (shown_response max_len body) <= max_len + 3)%Z /\
  firstn (Z.to_nat max_len) (shown_response max_len body) =
  firstn (Z.to_nat max_len) body.
Proof.
  intros H0. destruct (Z_lt_le_dec max_len (len body)) as [Hlt|Hle].
  - rewrite shown_response_over by lia.
    assert (Hl : length (firstn (Z.to_nat max_len) body) = Z.to_nat max_len).
    { rewrite length_firstn. unfold len in Hlt. lia. }
    split.
    + unfold len. rewrite length_app, Hl. change (length ELLIPSIS) with 3. lia.
    + rewrite firstn_app, Hl, Nat.sub_diag. cbn [firstn].
      rewrite app_nil_r. rewrite <- Hl at 1. apply firstn_all.
  - rewrite shown_response_within by lia. split; [lia|reflexivity].
Qed.

(** With a negative maximum every response counts as too long: the last
    characters are cut, as many as the maximum says, and the ellipsis is
    added, also to an empty response. *)
Theorem shown_response_negative (max_len : Z) (body : str) :
  (max_len < 0)%Z ->
  shown_response max_len body =
  firstn (length body - Z.to_nat (- max_len)) body ++ ELLIPSIS.
Proof.
  intros H. unfold shown_response.
  pose proof (len_nonneg body) as Hn.
  destruct (len body >? max_len)%Z eqn:E.
  2:{ rewrite Z.gtb_ltb in E. apply Z.ltb_ge in E. lia. }
  f_equal. unfold slice_to, clamp.
  destruct (max_len <? 0)%Z eqn:E'; [|apply Z.ltb_ge in E'; lia].
  f_equal. unfold len in *. lia.
Qed.

Lemma join_raises (sep : str) (parts : list value) :
  existsb (fun p => negb (is_str p)) parts = true ->
  join sep parts = Raise TypeError.
Proof.
  induction parts as [|p rest IH]; cbn [existsb]; [discriminate|].
  destruct p as [| | | |s|l|d]; cbn [is_str negb orb]; try reflexivity.
  intros H. specialize (IH H).
  destruct rest as [|q rest']; [discriminate|].
  cbn [join]. cbn [join] in IH. rewrite IH. reflexivity.
Qed.

(** A status that is a list or a mapping and is not empty makes the
    formatter raise [TypeError]: it is appended to the lines, and [join]
    refuses it. *)
Lemma format_raises_on_container (c : sections) (max_len : Z) :
  match swarm_status c with
  | VList (_ :: _) | VDict (_ :: _) => True
  | _ => False
  end ->
  format_swarm_summary c max_len = Raise TypeError.
Proof.
  intros H. apply join_raises. unfold summary_lines. cbv zeta.
  destruct (swarm_status c) as [| | | | |[|x l]|[|kv d]]; try contradiction;
    cbn [truthy];
    destruct (agent_responses c) as [|r rs]; destruct (metrics c) as [|m ms];
    rewrite ?existsb_app; cbn [existsb is_str negb orb];
    rewrite ?orb_true_r; reflexivity.
Qed.

End FormatterMore.

Lemma shown_response_bound_witness :
  (len (shown_response 0 (lit "abc")) <= 0 + 3)%Z /\
  firstn (Z.to_nat 0) (shown_response 0 (lit "abc")) =
  firstn (Z.to_nat 0) (lit "abc").
Proof.
  exact (@shown_response_bound 0 (lit "abc") (Z.le_refl 0)).
Defined.

Lemma shown_response_negative_witness :
  shown_response (-1) (lit "ok") = lit "o" ++ ELLIPSIS /\
  shown_response (-1) [] = ELLIPSIS.
Proof.
  split.
  - exact (@shown_response_negative (-1) (lit "ok") eq_refl).
  - exact (@shown_response_negative (-1) [] eq_refl).
Defined.

(** ** Entry points: the shapes of a payload *)

Section Payloads.

Variable json_loads : str -> result value.
Variable json_dumps : bool -> value -> str.

Lemma extract_text_status (cs : sections) (text : str) :
  swarm_status (extract_text json_loads cs text) = swarm_status cs.
Proof.
  unfold extract_text.
  destruct (found response_re text); [reflexivity|].
  destruct (found metrics_re text); [reflexivity|].
  destruct (contains _ text); [|reflexivity].
  destruct (knowledge_body text) as [body|]; [|reflexivity].
  destruct (json_loads body) as [kd|]; [|reflexivity]. cbn [bind].
  destruct (clean_knowledge kd); reflexivity.
Qed.

Lemma extract_item_status_plain (cs cs' : sections) (item : value) :
  text_is_str item = true -> status_plain cs ->
  extract_item json_loads cs item = Ok cs' -> status_plain cs'.
Proof.
  unfold text_is_str, extract_item. intros Ht Hs.
  destruct item as [| | | | |l|d]; try (intros [= <-]; exact Hs).
  destruct (dict_get TEXT d) as [[| | | |s|l|d']|]; try discriminate;
    [|intros [= <-]; exact Hs].
  cbn [py_in bind]. destruct (contains (lit "Swarm Status") s); intros [= <-].
  - right. eexists. reflexivity.
  - unfold status_plain. now rewrite extract_text_status.
Qed.

Lemma extract_items_status_plain (l : list value) (cs c : sections) :
  forallb text_is_str l = true -> status_plain cs ->
  extract_items json_loads cs l = Ok c -> status_plain c.
Proof.
  revert cs; induction l as [|item rest IH]; intros cs Hl Hs; cbn [extract_items].
  - intros [= <-]. exact Hs.
  - cbn [forallb] in Hl. apply andb_true_iff in Hl as [Hi Hr].
    destruct (extract_item json_loads cs item) as [cs'|] eqn:E; [|discriminate].
    cbn [bind]. apply IH; [exact Hr|].
    exact (extract_item_status_plain _ Hi Hs E).
Qed.

Lemma extract_item_status_taken (cs cs' : sections) (item : value) :
  status_taken (swarm_status cs) ->
  extract_item json_loads cs item = Ok cs' -> status_taken (swarm_status cs').
Proof.
  unfold extract_item. intros Hs.
  destruct item as [| | | | |l|d]; try (intros [= <-]; exact Hs).
  destruct (dict_get TEXT d) as [text|]; [|intros [= <-]; exact Hs].
  destruct text as [|b|n|f|s|l'|d']; cbn [py_in bind]; try discriminate.
  - destruct (contains (lit "Swarm Status") s); intros [= <-].
    + exact I.
    + now rewrite extract_text_status.
  - destruct (existsb (eq_str (lit "Swarm Status")) l') eqn:E;
      [|discriminate]. intros [= <-]. exact E.
  - destruct (dict_has (lit "Swarm Status") d') eqn:E;
      [|discriminate]. intros [= <-]. exact E.
Qed.

Lemma extract_items_status_taken (l : list value) (cs c : sections) :
  status_taken (swarm_status cs) ->
  extract_items json_loads cs l = Ok c -> status_taken (swarm_status c).
Proof.
  revert cs; induction l as [|item rest IH]; intros cs Hs; cbn [extract_items].
  - intros [= <-]. exact Hs.
  - destruct (extract_item json_loads cs item) as [cs'|] eqn:E; [|discriminate].
    cbn [bind]. apply IH. exact (@extract_item_status_taken cs cs' item Hs E).
Qed.

(** For every record that the extractor returns, the formatter returns
    a text when the status is absent or a string, and raises [TypeError]
    otherwise: the status is then a list or a mapping text in which
    [Swarm Status] was found, stored as it is. *)
Theorem format_after_extract (json_data : list value) (c : sections)
                             (max_len : Z) :
  extract_swarm_content json_loads json_data = Ok c ->
  match swarm_status c with
  | VNone | VStr _ => exists text, format_swarm_summary c max_len = Ok text
  | _ => format_swarm_summary c max_len = Raise TypeError
  end.
Proof.
  intros E.
  assert (Hs : status_taken (swarm_status c)).
  { exact (@extract_items_status_taken json_data content_sections c I E). }
  destruct (swarm_status c) as [|b|n|f|s|l|d] eqn:Es; try contradiction.
  - apply format_total. now left.
  - apply format_total. right. now exists s.
  - apply format_raises_on_container. rewrite Es.
    destruct l; [discriminate|exact I].
  - apply format_raises_on_container. rewrite Es.
    destruct d; [discriminate|exact I].
Qed.

(** On a payload that is a list of fragments whose texts are strings the
    entry point, when it is not asked to print, returns the cleaned list
    and what the extractor finds in the cleaned list; when it is asked to
    print, it returns nothing else if it returns. *)
Theorem display_list_payload (swarm_result : dict) (l : list value) :
  dict_get (lit "content") swarm_result = Some (VList l) ->
  forallb text_is_str l = true ->
  exists c,
    extract_swarm_content json_loads (clean_swarm_output l) = Ok c /\
    display_swarm_analysis json_loads swarm_result false =
      Ok (Analysis (clean_swarm_output l) c None) /\
    forall verbose a,
      display_swarm_analysis json_loads swarm_result verbose = Ok a ->
      cleaned_data a = clean_swarm_output l /\ extracted_content a = c.
Proof.
  intros Hc Hl. apply clean_swarm_output_text_is_str in Hl.
  destruct (extract_total_on_strings json_loads _ Hl) as [c Ec].
  exists c. split; [exact Ec|].
  unfold display_swarm_analysis. rewrite Hc. cbn [py_iter bind].
  rewrite Ec. cbn [bind]. split; [reflexivity|].
  intros verbose a. destruct verbose; cbn [bind].
  - destruct (format_swarm_summary c 500); cbn [bind]; [|discriminate].
    intros [= <-]. split; reflexivity.
  - intros [= <-]. split; reflexivity.
Qed.

(** Without [content], or with a [content] that is neither a list nor a
    string, the entry point returns the empty analysis, and prints the
    bare banner when it is asked to print. *)
Theorem display_without_payload (swarm_result : dict) (verbose : bool) :
  match dict_get (lit "content") swarm_result with
  | Some (VList _) | Some (VStr _) => False
  | _ => True
  end ->
  display_swarm_analysis json_loads swarm_result verbose =
  Ok (Analysis [] content_sections (if verbose then Some BANNER else None)).
Proof.
  unfold display_swarm_analysis.
  destruct (dict_get (lit "content") swarm_result) as [[| | | |s|l|d]|];
    try contradiction; intros _; destruct verbose; reflexivity.
Qed.

(** The handler of the entry point covers [json.loads] only: a payload
    string that is valid JSON for a number, a boolean or [null] makes the
    entry point raise [TypeError], from the loop of the batch cleaner. *)
Theorem display_scalar_payload (swarm_result : dict) (s : str) (v : value)
                               (verbose : bool) :
  dict_get (lit "content") swarm_result = Some (VStr s) ->
  json_loads s = Ok v ->
  scalar v = true ->
  display_swarm_analysis json_loads swarm_result verbose = Raise TypeError.
Proof.
  intros Hc Hl Hv. unfold display_swarm_analysis. rewrite Hc, Hl.
  cbn [try_except]. destruct v; try discriminate; reflexivity.
Qed.

Lemma clean_swarm_output_strings (keys : list str) :
  clean_swarm_output (map VStr keys) = map VStr keys.
Proof.
  rewrite clean_swarm_output_map, map_map. reflexivity.
Qed.

Lemma extract_items_strings (cs : sections) (keys : list str) :
  extract_items json_loads cs (map VStr keys) = Ok cs.
Proof.
  induction keys as [|k keys IH]; cbn [map extract_items extract_item bind];
    [reflexivity|exact IH].
Qed.

(** A payload string that is JSON for one object, not for a list of
    objects, is read as the list of its keys: the keys come back as the
    cleaned data, uncleaned, and nothing is extracted, whatever the
    object holds. *)
Theorem display_object_payload (swarm_result : dict) (s : str) (d : dict)
                               (verbose : bool) :
  dict_get (lit "content") swarm_result = Some (VStr s) ->
  json_loads s = Ok (VDict d) ->
  display_swarm_analysis json_loads swarm_result verbose =
  Ok (Analysis (map VStr (map fst d)) content_sections
               (if verbose then Some BANNER else None)).
Proof.
  intros Hc Hl. unfold display_swarm_analysis. rewrite Hc, Hl.
  cbn [try_except py_iter bind].
  replace (map (fun kv : list N * value => VStr (fst kv)) d)
    with (map VStr (map fst d)) by now rewrite map_map.
  rewrite clean_swarm_output_strings. unfold extract_swarm_content.
  rewrite extract_items_strings. cbn [bind].
  destruct verbose; reflexivity.
Qed.

(** The persistence variant writes the same file for a payload string
    and for the value the string decodes to. *)
Theorem save_forms_agree (s output_file : str) (v : value)
                         (format_output : bool) :
  json_loads s = Ok v ->
  is_str v = false ->
  save_cleaned_swarm_output json_loads json_dumps (VStr s) output_file
                            format_output =
  save_cleaned_swarm_output json_loads json_dumps v output_file format_output.
Proof.
  intros Hl Hv. unfold save_cleaned_swarm_output. rewrite Hl.
  destruct v; try discriminate; reflexivity.
Qed.

(** The persistence variant raises [TypeError], and writes nothing, for a
    payload that is a number, a boolean or [None], or a string that
    decodes to one. *)
Theorem save_scalar_payload (json_data : value) (output_file : str)
                            (format_output : bool) :
  match json_data with
  | VStr s => exists v, json_loads s = Ok v /\ scalar v = true
  | _ => scalar json_data = true
  end ->
  save_cleaned_swarm_output json_loads json_dumps json_data output_file
                            format_output = Raise TypeError.
Proof.
  unfold save_cleaned_swarm_output.
  destruct json_data as [| | | |s|l|d]; try discriminate; try reflexivity.
  intros (v & Hl & Hv). rewrite Hl. cbn [bind].
  destruct v; try discriminate; reflexivity.
Qed.

End Payloads.

(** A text that is a list holding the string [Swarm Status] is taken as
    the status; the summary of the record then cannot be formatted. *)
Lemma format_after_extract_witness :
  let c := Sections (VList [VStr (lit "Swarm Status")]) [] [] (VList []) in
  extract_swarm_content Json.loads
    [VDict [(TEXT, VList [VStr (lit "Swarm Status")])]] = Ok c /\
  format_swarm_summary c 500 = Raise TypeError.
Proof.
  split; [reflexivity|].
  exact (@format_after_extract Json.loads
           [VDict [(TEXT, VList [VStr (lit "Swarm Status")])]]
           (Sections (VList [VStr (lit "Swarm Status")]) [] [] (VList []))
           500 eq_refl).
Defined.

Lemma display_list_payload_witness :
  exists c,
    extract_swarm_content Json.loads
      (clean_swarm_output [fragment [0x2500%N]; VInt 1]) = Ok c /\
    display_swarm_analysis Json.loads
      [(lit "content", VList [fragment [0x2500%N]; VInt 1])] false =
      Ok (Analysis (clean_swarm_output [fragment [0x2500%N]; VInt 1]) c None) /\
    forall verbose a,
      display_swarm_analysis Json.loads
        [(lit "content", VList [fragment [0x2500%N]; VInt 1])] verbose = Ok a ->
      cleaned_data a = clean_swarm_output [fragment [0x2500%N]; VInt 1] /\
      extracted_content a = c.
Proof.
  exact (@display_list_payload Json.loads
           [(lit "content", VList [fragment [0x2500%N]; VInt 1])]
           [fragment [0x2500%N]; VInt 1] eq_refl eq_refl).
Defined.

Lemma display_without_payload_witness :
  display_swarm_analysis Json.loads [(lit "status", VStr (lit "done"))] true =
  Ok (Analysis [] content_sections (if true then Some BANNER else None)).
Proof.
  exact (@display_without_payload Json.loads
           [(lit "status", VStr (lit "done"))] true I).
Defined.

Lemma display_scalar_payload_witness :
  display_swarm_analysis Json.loads [(lit "content", VStr (lit "42"))] false =
  Raise TypeError.
Proof.
  exact (@display_scalar_payload Json.loads
           [(lit "content", VStr (lit "42"))] (lit "42") (VInt 42) false
           eq_refl eq_refl eq_refl).
Defined.

Lemma display_object_payload_witness :
  let s := lit "{" ++ [DQUOTE] ++ lit "text" ++ [DQUOTE] ++ lit ": " ++
           [DQUOTE] ++ lit "Swarm Status: up" ++ [DQUOTE] ++ lit "}" in
  display_swarm_analysis Json.loads [(lit "content", VStr s)] false =
  Ok (Analysis (map VStr (map fst [(TEXT, VStr (lit "Swarm Status: up"))]))
               content_sections (if false then Some BANNER else None)).
Proof.
  exact (@display_object_payload Json.loads
           [(lit "content",
             VStr (lit "{" ++ [DQUOTE] ++ lit "text" ++ [DQUOTE] ++ lit ": " ++
                   [DQUOTE] ++ lit "Swarm Status: up" ++ [DQUOTE] ++ lit "}"))]
           (lit "{" ++ [DQUOTE] ++ lit "text" ++ [DQUOTE] ++ lit ": " ++
            [DQUOTE] ++ lit "Swarm Status: up" ++ [DQUOTE] ++ lit "}")
           [(TEXT, VStr (lit "Swarm Status: up"))] false eq_refl eq_refl).
Defined.

Lemma save_forms_agree_witness :
  save_cleaned_swarm_output Json.loads (fun _ _ => []) (VStr (lit "[1, []]"))
    (lit "out.json") true =
  save_cleaned_swarm_output Json.loads (fun _ _ => [])
    (VList [VInt 1; VList []]) (lit "out.json") true.
Proof.
  exact (@save_forms_agree Json.loads (fun _ _ => []) (lit "[1, []]")
           (lit "out.json") (VList [VInt 1; VList []]) true eq_refl eq_refl).
Defined.

Lemma save_scalar_payload_witness :
  save_cleaned_swarm_output Json.loads (fun _ _ => []) (VStr (lit "null"))
    (lit "out.json") true = Raise TypeError.
Proof.
  exact (@save_scalar_payload Json.loads (fun _ _ => []) (VStr (lit "null"))
           (lit "out.json") true
           (ex_intro _ VNone (conj eq_refl eq_refl))).
Defined.

(** ** What the patterns match *)

Section Patterns.

Lemma star_sound (p : char -> bool) (k : str -> option nat) (s : str) (n : nat) :
  star p k s = Some n ->
  exists i m, i <= length s /\ forallb p (firstn i s) = true /\
              k (skipn i s) = Some m /\ n = i + m.
Proof.
  revert n; induction s as [|c t IH]; intros n; cbn [star].
  - intros H. exists 0, n. repeat split; [lia|exact H].
  - assert (Hk : k (c :: t) = Some n ->
                 exists i m, i <= length (c :: t) /\
                   forallb p (firstn i (c :: t)) = true /\
                   k (skipn i (c :: t)) = Some m /\ n = i + m).
    { intros H. exists 0, n. repeat split; [simpl; lia|exact H]. }
    destruct (p c) eqn:Pc; [|exact Hk].
    destruct (star p k t) as [j|] eqn:Ej; [|exact Hk].
    intros [= <-]. destruct (IH j eq_refl) as (i & m & Hi & Hf & Hm & ->).
    exists (S i), m. repeat split; [simpl; lia| |exact Hm].
    cbn [firstn forallb]. now rewrite Pc.
Qed.

Lemma star_complete (p : char -> bool) (k : str -> option nat) (s : str)
                    (i m : nat) :
  i <= length s -> forallb p (firstn i s) = true -> k (skipn i s) = Some m ->
  exists n, star p k s = Some n.
Proof.
  revert i; induction s as [|c t IH]; intros i Hi Hf Hk.
  - destruct i; [|simpl in Hi; lia]. cbn [star]. now exists m.
  - cbn [star]. destruct i as [|i].
    + cbn [skipn] in Hk. destruct (p c); [|now exists m].
      destruct (star p k t) as [j|]; [now exists (S j)|now exists m].
    + cbn [firstn forallb] in Hf. apply andb_true_iff in Hf as [Pc Hf].
      rewrite Pc. cbn [skipn] in Hk. simpl in Hi.
      destruct (IH i ltac:(lia) Hf Hk) as [j Ej]. rewrite Ej. now exists (S j).
Qed.

(** A repetition followed by a character that is not of the class takes
    the whole run and nothing else. *)
Lemma star_run (p : char -> bool) (k : str -> option nat) (run rest : str)
               (m : nat) :
  forallb p run = true ->
  match rest with c :: _ => p c = false | [] => True end ->
  k rest = Some m ->
  star p k (run ++ rest) = Some (length run + m).
Proof.
  intros Hr Hc Hk. induction run as [|c run IH]; cbn [app length].
  - destruct rest as [|c t]; cbn [star]; [exact Hk|]. now rewrite Hc.
  - cbn [forallb] in Hr. apply andb_true_iff in Hr as [Pc Hr].
    cbn [star]. rewrite Pc, (IH Hr). reflexivity.
Qed.

Lemma match_here_word_only (w s : str) :
  match_here (map Chr w) s =
  if startswith w s then Some (length w) else None.
Proof.
  rewrite <- (app_nil_r (map Chr w)), match_here_word.
  destruct (startswith w s); [|reflexivity].
  cbn [match_here option_map]. now rewrite Nat.add_0_r.
Qed.

(** What the two patterns of the cleaner match at the start of a text:
    the introducer ([ESC], or a backslash and [u001b]), [[], digits and
    semicolons, and [m].  A sequence that ends in another letter is no
    match. *)
Theorem ansi_patterns_match (s : str) (n : nat) :
  (match_here ansi_re s = Some n <-> sequence_at [ESC] s n) /\
  (match_here ansi_escaped_re s = Some n <-> sequence_at (lit "\u001b") s n).
Proof.
  assert (G : forall w,
    match_here (map Chr w ++ [Chr (chr "["); Star ansi_param; Chr (chr "m")]) s
      = Some n <-> sequence_at w s n).
  { intros w. rewrite match_here_word. split.
    - destruct (startswith w s) eqn:W; [|discriminate].
      apply startswith_split in W. revert W.
      generalize (skipn (length w) s). intros t W.
      destruct t as [|x t]; [discriminate|].
      change (match_here [Chr (chr "["); Star ansi_param; Chr (chr "m")] (x :: t))
        with (if (x =? chr "[")%N
              then option_map S (star ansi_param (match_here [Chr (chr "m")]) t)
              else None).
      destruct (x =? chr "[")%N eqn:Ex; [|discriminate].
      apply N.eqb_eq in Ex. subst x.
      destruct (star ansi_param (match_here [Chr (chr "m")]) t) as [j|] eqn:Ej;
        cbn [option_map]; [|discriminate].
      intros [= <-].
      apply star_sound in Ej as (i & m & Hi & Hf & Hm & ->).
      destruct (skipn i t) as [|y rest] eqn:Es; [discriminate|].
      cbn [match_here] in Hm. destruct (y =? chr "m")%N eqn:Ey; [|discriminate].
      apply N.eqb_eq in Ey. subst y. simpl in Hm.
      injection Hm as <-.
      exists (firstn i t), rest. split; [|split; [exact Hf|]].
      + rewrite W. do 2 f_equal. rewrite <- Es. symmetry. apply firstn_skipn.
      + rewrite length_firstn, Nat.min_l by exact Hi. lia.
    - intros (params & rest & -> & Hf & ->).
      rewrite startswith_app, skipn_app, Nat.sub_diag, skipn_all.
      cbn [app skipn].
      change (match_here [Chr (chr "["); Star ansi_param; Chr (chr "m")]
                (chr "[" :: params ++ chr "m" :: rest))
        with (option_map S (star ansi_param (match_here [Chr (chr "m")])
                              (params ++ chr "m" :: rest))).
      rewrite (@star_run ansi_param _ params (chr "m" :: rest) 1 Hf);
        [cbn [option_map]; f_equal; lia|reflexivity|reflexivity]. }
  split; [exact (G [ESC])|exact (G (lit "\u001b"))].
Qed.

Lemma digit_is_dot (c : char) : digit c = true -> dot c = true.
Proof.
  unfold dot. destruct (c =? LF)%N eqn:E; [|reflexivity].
  apply N.eqb_eq in E. subst c. discriminate.
Qed.

Lemma forallb_digit_dot (l : str) :
  forallb digit l = true -> forallb dot l = true.
Proof.
  induction l as [|c l IH]; cbn [forallb]; [reflexivity|].
  intros H. apply andb_true_iff in H as [Hc Hl].
  now rewrite digit_is_dot, IH.
Qed.

Lemma agent_line_found (tok text : str) :
  found (map Chr AGENT_WORD ++ [Plus digit; Star dot] ++ map Chr tok) text = true
  <-> agent_line tok text.
Proof.
  split.
  - intros H. apply found_suffix in H as (pre & suf & n & -> & Hm).
    pose proof Hm as Hd. cbn [app] in Hd.
    apply agent_word_digit in Hd as (d & t & D & ->).
    rewrite match_here_word, startswith_app in Hm.
    rewrite skipn_app, Nat.sub_diag, skipn_all in Hm.
    cbn [app skipn] in Hm.
    change (match_here (Plus digit :: Star dot :: map Chr tok) (d :: t))
      with (if digit d
            then option_map S
                   (star digit (star dot (match_here (map Chr tok))) t)
            else None) in Hm.
    rewrite D in Hm.
    destruct (star digit (star dot (match_here (map Chr tok))) t) as [j|] eqn:Ej;
      [|discriminate].
    apply star_sound in Ej as (i & m & Hi & Hf & Hs & _).
    apply star_sound in Hs as (i' & m' & Hi' & Hf' & Hw & _).
    rewrite match_here_word_only in Hw.
    destruct (startswith tok (skipn i' (skipn i t))) eqn:W; [|discriminate].
    apply startswith_split in W.
    exists pre, d, (firstn i t ++ firstn i' (skipn i t)),
      (skipn (length tok) (skipn i' (skipn i t))).
    split; [|split; [exact D|]].
    + do 3 f_equal. rewrite <- app_assoc, <- W, firstn_skipn.
      symmetry. apply firstn_skipn.
    + rewrite forallb_app, (forallb_digit_dot _ Hf), Hf'. reflexivity.
  - intros (pre & d & mid & post & -> & D & Hmid).
    assert (Hs : exists n,
              star digit (star dot (match_here (map Chr tok)))
                   (mid ++ tok ++ post) = Some n).
    { assert (H1 : exists n1,
                star dot (match_here (map Chr tok)) (mid ++ tok ++ post)
                  = Some n1).
      { apply star_complete with (i := length mid) (m := length tok).
        - rewrite length_app. lia.
        - now rewrite firstn_app, Nat.sub_diag, firstn_all, app_nil_r.
        - rewrite skipn_app, Nat.sub_diag, skipn_all. cbn [app skipn].
          now rewrite match_here_word_only, startswith_app. }
      destruct H1 as [n1 E1].
      apply star_complete with (i := 0) (m := n1); [lia|reflexivity|exact E1]. }
    destruct Hs as [j Ej].
    apply found_of_suffix with (n := length AGENT_WORD + S j).
    rewrite match_here_word, startswith_app.
    rewrite skipn_app, Nat.sub_diag, skipn_all. cbn [app skipn].
    change (match_here (Plus digit :: Star dot :: map Chr tok)
              (d :: mid ++ tok ++ post))
      with (if digit d
            then option_map S
                   (star digit (star dot (match_here (map Chr tok)))
                         (mid ++ tok ++ post))
            else None).
    now rewrite D, Ej.
Qed.

End Patterns.

(** ** Content extractor: which texts are responses, whose they are *)

Section Classification.

(** A text is tested as a response exactly when it holds [Agent agent_],
    a digit and, later in the same line, [Response:]; it is tested as
    metrics, if it is no response, exactly when the same holds with
    [Metrics:].  A line feed between the agent and the word prevents
    the match. *)
Theorem classification_patterns (text : str) :
  (found response_re text = true <-> agent_line (lit "Response:") text) /\
  (found metrics_re text = true <-> agent_line (lit "Metrics:") text).
Proof.
  split.
  - exact (agent_line_found (lit "Response:") text).
  - exact (agent_line_found (lit "Metrics:") text).
Qed.

Lemma search_leftmost (re : regex) (pre suf : str) (n : nat) :
  no_match_before re (length pre) (pre ++ suf) ->
  match_here re suf = Some n ->
  search re (pre ++ suf) = Some (pre, firstn n suf, skipn n suf).
Proof.
  intros Hb Hm. induction pre as [|c pre IH].
  - cbn [app]. destruct suf as [|x t]; cbn [search]; now rewrite Hm.
  - pose proof (Hb 0 ltac:(simpl; lia)) as H0. cbn [app skipn] in H0.
    cbn [app search]. rewrite H0.
    rewrite IH; [reflexivity|].
    intros i Hi. apply (Hb (S i)). simpl. lia.
Qed.

(** The agent recorded for a fragment is the first one the text
    mentions, with all the digits that follow [agent_]: it need not be
    the agent whose [Response:] or [Metrics:] made the fragment
    count. *)
Theorem agent_id_leftmost (pre ds rest : str) :
  ds <> [] ->
  forallb digit ds = true ->
  match rest with c :: _ => digit c = false | [] => True end ->
  no_match_before agent_re (length pre) (pre ++ AGENT_WORD ++ ds ++ rest) ->
  agent_id_of (pre ++ AGENT_WORD ++ ds ++ rest) = lit "agent_" ++ ds.
Proof.
  intros Hne Hds Hrest Hb. destruct ds as [|d ds]; [contradiction|].
  cbn [forallb] in Hds. apply andb_true_iff in Hds as [D Hds].
  assert (Hm : match_here agent_re (AGENT_WORD ++ (d :: ds) ++ rest) =
               Some (length AGENT_WORD + S (length ds + 0))).
  { rewrite agent_re_word, match_here_word, startswith_app.
    rewrite skipn_app, Nat.sub_diag, skipn_all. cbn [app skipn].
    change (match_here [Plus digit] (d :: ds ++ rest))
      with (if digit d
            then option_map S (star digit (match_here []) (ds ++ rest))
            else None).
    rewrite D, (@star_run digit _ ds rest 0 Hds Hrest); [reflexivity|].
    reflexivity. }
  unfold agent_id_of. rewrite (search_leftmost _ _ Hb Hm).
  rewrite firstn_app, firstn_all2 by (simpl; lia).
  replace (length AGENT_WORD + S (length ds + 0) - length AGENT_WORD)
    with (S (length ds)) by lia.
  cbn [app firstn]. rewrite firstn_app, firstn_all, Nat.sub_diag.
  cbn [firstn]. rewrite app_nil_r. reflexivity.
Qed.

End Classification.

(** The first agent is recorded with the response of the second. *)
Lemma agent_id_leftmost_witness :
  let text := lit "Agent agent_1 idle" ++ [LF] ++
              lit "Agent agent_2 Response: hi" in
  agent_id_of text = lit "agent_" ++ lit "1" /\
  extract_text Json.loads content_sections text =
  Sections VNone [(lit "agent_1", lit "hi")] [] (VList []).
Proof.
  split; [|reflexivity].
  exact (@agent_id_leftmost [] (lit "1")
           (lit " idle" ++ [LF] ++ lit "Agent agent_2 Response: hi")
           ltac:(discriminate) eq_refl eq_refl
           (fun i H => match Nat.nlt_0_r i H with end)).
Defined.

(** ** Batch cleaner: one copy for each rewritten element *)

Module HeapCopies.

Import Heap HeapFacts Terms.









End HeapCopies.
